(** * Strategy execution engine of the Binance futures order bot

    Shallow embedding of [src/advanced/twap.py], [src/advanced/grid_orders.py],
    [src/advanced/oco.py] and of the parts of [src/validator.py],
    [src/config.py], [src/logger.py] and [src/binance_client.py] they call.

    Conventions of the embedding:
    - a Python [float] is an IEEE-754 binary64 number ([spec_float] with
      precision 53 and maximal exponent 1024, rounding to nearest even);
    - a Python [dict] used as a registry is a [gmap]; the run dictionaries
      themselves are objects in a heap and are passed around by reference;
    - the exchange is an external collaborator: its answers are given by
      functions of the history of calls made so far, and every call the
      code makes is appended to that history;
    - an exception is a value of [exn]; code that may raise returns [res];
    - the loggers and the clock have no effect on the state modelled here:
      the handlers of [logging] keep their own errors to themselves, and
      [time.sleep] on a constant returns; [print] writes to standard output
      and lets its errors through, so a summary that is printed may raise,
      and so may [time.sleep] on a computed waiting time. *)

From Stdlib Require Import ZArith NArith List Bool Lia Ascii String.
From Stdlib Require Import SpecFloat.
From stdpp Require Import base numbers gmap strings list pretty.

Local Open Scope Z_scope.

(** ** Binary64 arithmetic *)

Module B64.

Definition prec : Z := 53.
Definition emax : Z := 1024.

Definition float := spec_float.

Definition add : float -> float -> float := SFadd prec emax.
Definition sub : float -> float -> float := SFsub prec emax.
Definition mul : float -> float -> float := SFmul prec emax.
Definition div : float -> float -> float := SFdiv prec emax.

Definition ltb : float -> float -> bool := SFltb.
Definition leb : float -> float -> bool := SFleb.
Definition eqb : float -> float -> bool := SFeqb.
Definition gtb (x y : float) : bool := SFltb y x.
Definition geb (x y : float) : bool := SFleb y x.

(** [float(n)] for a Python [int]. *)
Definition of_Z (n : Z) : float := binary_normalize prec emax n 0 false.

(** The literal [p/q] written in decimal in the source, read as the
    nearest binary64 number. *)
Definition lit (p q : Z) : float := div (of_Z p) (of_Z q).

Definition zero : float := S754_zero false.


Definition is_nan (x : float) : bool :=
  match x with S754_nan => true | _ => false end.

(** The value of the finite number of mantissa [m] and exponent [e], counted
    in units of [2^-1200] (below the smallest binary64 number, so that the
    count is an integer). *)
Definition V (m : positive) (e : Z) : Z := Z.pos m * 2 ^ (e + 1200).

(** The mantissa [m] has 53 digits and the exponent [e] is far from both
    ends of the range: a positive normal number. *)
Definition normal (m : positive) (e : Z) : Prop :=
  Z.pos (digits2_pos m) = 53 /\ -1000 <= e <= 900.

(** Truth value of a float in a condition: [0.0] and [-0.0] are false. *)
Definition truthy (x : float) : bool :=
  match x with S754_zero _ => false | _ => true end.

End B64.

(** ** Exceptions and results *)

(** The exceptions the strategy modules raise themselves, and the ones the
    exchange client lets through ([requests] errors, malformed replies). All
    of them derive from Python's [Exception]; the text of a message built
    with an f-string from numbers is kept without the numbers. *)
Inductive exn :=
| ValueError (msg : string)
| TypeError (msg : string)
| ConnectionError (msg : string)
| OSError (msg : string)
| RequestException (msg : string).

Inductive res (A : Type) :=
| Ok (a : A)
| Raise (e : exn).
Arguments Ok {A} a.
Arguments Raise {A} e.

Definition is_ok {A} (r : res A) : bool :=
  match r with Ok _ => true | Raise _ => false end.

(** ** Strings: [str.upper] and [str.strip] on ASCII text *)

Module Str.

Definition is_space (c : ascii) : bool :=
  let n := N_of_ascii c in
  ((9 <=? n) && (n <=? 13) || (28 <=? n) && (n <=? 32))%N.

Definition is_upper_AZ (c : ascii) : bool :=
  let n := N_of_ascii c in ((65 <=? n) && (n <=? 90))%N.

Definition upper_ascii (c : ascii) : ascii :=
  let n := N_of_ascii c in
  if ((97 <=? n) && (n <=? 122))%N then ascii_of_N (n - 32) else c.

Fixpoint upper (s : string) : string :=
  match s with
  | EmptyString => EmptyString
  | String c s' => String (upper_ascii c) (upper s')
  end.

Fixpoint lstrip (s : string) : string :=
  match s with
  | String c s' => if is_space c then lstrip s' else s
  | EmptyString => EmptyString
  end.

Definition strip (s : string) : string :=
  String.rev (lstrip (String.rev (lstrip s))).

Fixpoint all (p : ascii -> bool) (s : string) : bool :=
  match s with
  | EmptyString => true
  | String c s' => p c && all p s'
  end.

Definition ends_with (suffix s : string) : bool :=
  let n := String.length s in
  let k := String.length suffix in
  (k <=? n)%nat && String.eqb (substring (n - k) k s) suffix.

(** The text is ASCII: every character is below 128. On such a text [upper]
    and [strip] are Python's [str.upper] and [str.strip]; on other texts
    Python follows Unicode (a long s becomes [S], a no-break space is
    stripped) and they are not. *)
Definition is_ascii (s : string) : bool :=
  all (fun c => (N_of_ascii c <? 128)%N) s.

End Str.

(** ** [src/config.py] *)

Module Config.
(** [MIN_QUANTITY = 0.001] *)
Definition MIN_QUANTITY : B64.float := B64.lit 1 1000.
(** [MAX_QUANTITY = 1000] *)
Definition MAX_QUANTITY : B64.float := B64.of_Z 1000.
End Config.

(** ** [src/logger.py] *)

Module Logger.

(** [log_order_attempt(self, order_type, symbol, side, quantity, price=None,
    **kwargs)]. The parameters [side] and [quantity] have no default: a call
    that does not give them raises [TypeError] before the body runs. The
    body itself writes one entry to the log. [None] is an argument the call
    does not give; the keyword arguments collected by [kwargs] are left
    out. *)
Definition log_order_attempt (order_type symbol : string)
    (side : option string) (quantity : option B64.float) : res unit :=
  match side, quantity with
  | Some _, Some _ => Ok tt
  | None, Some _ =>
      Raise (TypeError
        "BotLogger.log_order_attempt() missing 1 required positional argument: 'side'")
  | Some _, None =>
      Raise (TypeError
        "BotLogger.log_order_attempt() missing 1 required positional argument: 'quantity'")
  | None, None =>
      Raise (TypeError
        "BotLogger.log_order_attempt() missing 2 required positional arguments: 'side' and 'quantity'")
  end.

End Logger.

(** ** [src/validator.py] *)

Module OrderValidator.

(** [SYMBOL_PATTERN = re.compile(r'^[A-Z]{2,10}USDT$')], matched against
    the upper-cased, stripped symbol: between two and ten capital letters
    followed by [USDT] and nothing else. *)
Definition SYMBOL_PATTERN_match (s : string) : bool :=
  Str.all Str.is_upper_AZ s && Str.ends_with "USDT" s
  && (6 <=? String.length s)%nat && (String.length s <=? 14)%nat.

Definition validate_symbol (symbol : string) : bool :=
  SYMBOL_PATTERN_match (Str.strip (Str.upper symbol)).

Definition VALID_SIDES : list string := ["BUY"; "SELL"]%string.

Definition validate_side (side : string) : bool :=
  let side := Str.strip (Str.upper side) in
  existsb (String.eqb side) VALID_SIDES.

Definition validate_quantity (quantity : B64.float) : bool :=
  if B64.leb quantity B64.zero then false
  else if B64.ltb quantity Config.MIN_QUANTITY then false
  else if B64.gtb quantity Config.MAX_QUANTITY then false
  else true.

(** [validate_price(price, required=True)]; [None] is the absent price. *)
Definition validate_price (price : option B64.float) : bool :=
  match price with
  | None => false
  | Some price_val => if B64.leb price_val B64.zero then false else true
  end.

End OrderValidator.

(** ** [src/binance_client.py]: the exchange seen through the client *)

(** Keyword arguments of [place_order]. *)
Record order_request := {
  rq_symbol : string;
  rq_side : string;
  rq_type : string;
  rq_quantity : B64.float;
  rq_price : option B64.float;
  rq_stopPrice : option B64.float;
  rq_timeInForce : string }.

(** A numeric field of a reply: a text that [float()] reads as the number
    [x], or a value that [float()] rejects. *)
Inductive numeric :=
| Number (x : B64.float)
| Unreadable.

(** [float(v)] *)
Definition to_float (v : numeric) : res B64.float :=
  match v with
  | Number x => Ok x
  | Unreadable => Raise (ValueError "could not convert string to float")
  end.

(** The JSON object the exchange answers to an order request, a query or a
    cancellation: an object with its [orderId] and [status]. [executedQty]
    is read with a default by the callers, so it may be absent; [fills] is
    the list of the pairs of [qty] and [price], empty when the key is
    absent. *)
Record order := {
  orderId : Z;
  o_status : string;
  executedQty : option numeric;
  fills : list (numeric * numeric) }.

(** One request sent through the client. *)
Inductive call :=
| Ping
| GetSymbolPrice (symbol : string)
| PlaceOrder (rq : order_request)
| GetOrder (symbol : string) (order_id : Z)
| CancelOrder (symbol : string) (order_id : Z).

(** The collaborators. Each answer may depend on every call made before it.
    [x_price] stands for [float(get_symbol_price(symbol)['price'])],
    [x_sleep] for the outcome of [time.sleep] on a computed waiting time, and
    [x_print] for the outcome of the [print]s of one message or summary,
    which is named by its heading: [Raise e] when one of them raises [e]
    (standard output is closed, the pipe is broken), which ends the
    summary. *)
Record exchange := {
  x_ping : list call -> bool;
  x_price : list call -> string -> res B64.float;
  x_place : list call -> order_request -> res order;
  x_query : list call -> string -> Z -> res order;
  x_cancel : list call -> string -> Z -> res order;
  x_sleep : list call -> res unit;
  x_print : list call -> string -> res unit }.

Module Client.
Section Client.
Variable X : exchange.

(** [test_connectivity] catches every exception and answers [False]. *)
Definition test_connectivity (log : list call) : bool * list call :=
  (x_ping X log, log ++ [Ping]).

Definition get_symbol_price (symbol : string) (log : list call)
  : res B64.float * list call :=
  (x_price X log symbol, log ++ [GetSymbolPrice symbol]).

Definition place_order (rq : order_request) (log : list call)
  : res order * list call :=
  (x_place X log rq, log ++ [PlaceOrder rq]).

Definition get_order (symbol : string) (order_id : Z) (log : list call)
  : res order * list call :=
  (x_query X log symbol order_id, log ++ [GetOrder symbol order_id]).

Definition cancel_order (symbol : string) (order_id : Z) (log : list call)
  : res order * list call :=
  (x_cancel X log symbol order_id, log ++ [CancelOrder symbol order_id]).
End Client.
End Client.

Definition is_place (c : call) : bool :=
  match c with PlaceOrder _ => true | _ => false end.

Definition is_cancel (c : call) : bool :=
  match c with CancelOrder _ _ => true | _ => false end.

(** The order requests among the calls, oldest first. *)
Definition placed (log : list call) : list order_request :=
  omap (fun c => match c with PlaceOrder rq => Some rq | _ => None end) log.

(** The cancellations among the calls, oldest first. *)
Definition cancels (log : list call) : list (string * Z) :=
  omap (fun c => match c with CancelOrder s i => Some (s, i) | _ => None end) log.

(** ** [src/advanced/oco.py] *)

Module OCO.

Record leg := { leg_type : string; leg_order : order }.

(** The dictionary [orders_result]. *)
Record oco_result := {
  oco_id : string;
  symbol : string;
  quantity : B64.float;
  orders : list leg }.

Definition append_leg (r : oco_result) (l : leg) : oco_result :=
  {| oco_id := oco_id r; symbol := symbol r; quantity := quantity r;
     orders := orders r ++ [l] |}.

Definition _validate_oco_order (symbol side : string) (quantity : B64.float)
    (take_profit_price stop_loss_price stop_limit_price : B64.float) : bool :=
  if negb (OrderValidator.validate_symbol symbol
           && OrderValidator.validate_side side
           && OrderValidator.validate_quantity quantity
           && OrderValidator.validate_price (Some take_profit_price)
           && OrderValidator.validate_price (Some stop_loss_price)
           && OrderValidator.validate_price (Some stop_limit_price))
  then false
  else if String.eqb side "SELL" then
    if B64.geb take_profit_price stop_loss_price then false else true
  else
    if B64.leb take_profit_price stop_loss_price then false else true.

Section Manager.
Variable X : exchange.

(** The handler [except Exception as e] of [_place_simulated_oco]: when a
    first order is recorded, one attempt to cancel it, whose own failure is
    swallowed by the bare [except]; then [raise] re-raises [e]. *)
Definition rollback (symbol : string) (orders_result : oco_result) (e : exn)
    (log : list call) : res oco_result * list call :=
  match orders orders_result with
  | first_order :: _ =>
      let '(_, log) :=
        Client.cancel_order X symbol (orderId (leg_order first_order)) log in
      (Raise e, log)
  | [] => (Raise e, log)
  end.

Definition tp_request (symbol tp_side : string) (quantity take_profit_price : B64.float)
  : order_request :=
  {| rq_symbol := symbol; rq_side := tp_side; rq_type := "LIMIT";
     rq_quantity := quantity; rq_price := Some take_profit_price;
     rq_stopPrice := None; rq_timeInForce := "GTC" |}.

Definition sl_request (symbol sl_side : string)
    (quantity stop_loss_price stop_limit_price : B64.float) : order_request :=
  {| rq_symbol := symbol; rq_side := sl_side; rq_type := "STOP";
     rq_quantity := quantity; rq_price := Some stop_limit_price;
     rq_stopPrice := Some stop_loss_price; rq_timeInForce := "GTC" |}.

(** [now] is the reading [int(time.time())] that names the pair. *)
Definition _place_simulated_oco (symbol side : string) (quantity : B64.float)
    (take_profit_price stop_loss_price stop_limit_price : B64.float)
    (now : Z) (log : list call) : res oco_result * list call :=
  let tp_side := if String.eqb side "BUY" then "SELL" else "BUY" in
  let sl_side := tp_side in
  let orders_result :=
    {| oco_id := "OCO_" +:+ pretty now; symbol := symbol;
       quantity := quantity; orders := [] |} in
  match Client.place_order X
          (tp_request symbol tp_side quantity take_profit_price) log with
  | (Raise e, log) => rollback symbol orders_result e log
  | (Ok tp_order, log) =>
      let orders_result :=
        append_leg orders_result
          {| leg_type := "TAKE_PROFIT"; leg_order := tp_order |} in
      match Client.place_order X
              (sl_request symbol sl_side quantity stop_loss_price stop_limit_price)
              log with
      | (Raise e, log) => rollback symbol orders_result e log
      | (Ok sl_order, log) =>
          (Ok (append_leg orders_result
                 {| leg_type := "STOP_LOSS"; leg_order := sl_order |}), log)
      end
  end.

(** The summary printed once both orders are placed. *)
Definition _display_oco_summary (orders_result : oco_result) (log : list call)
  : res unit :=
  x_print X log "OCO (ONE-CANCELS-THE-OTHER) ORDERS PLACED".

Definition place_oco_order (symbol side : string) (quantity : B64.float)
    (take_profit_price stop_loss_price : B64.float)
    (stop_limit_price : option B64.float)
    (now : Z) (log : list call) : res oco_result * list call :=
  let symbol := Str.strip (Str.upper symbol) in
  let side := Str.strip (Str.upper side) in
  let stop_limit_price := default stop_loss_price stop_limit_price in
  match Logger.log_order_attempt "OCO" symbol (Some side) (Some quantity) with
  | Raise e => (Raise e, log)
  | Ok _ =>
  if negb (_validate_oco_order symbol side quantity take_profit_price
             stop_loss_price stop_limit_price)
  then (Raise (ValueError "Invalid OCO order parameters"), log)
  else
    let '(up, log) := Client.test_connectivity X log in
    if negb up
    then (Raise (ConnectionError "Unable to connect to Binance API"), log)
    else
      (* the price is fetched for the log only; a failure is swallowed *)
      let '(_, log) := Client.get_symbol_price X symbol log in
      match _place_simulated_oco symbol side quantity take_profit_price
              stop_loss_price stop_limit_price now log with
      | (Raise e, log) => (Raise e, log)
      | (Ok orders_result, log) =>
          match _display_oco_summary orders_result log with
          | Ok _ => (Ok orders_result, log)
          | Raise e => (Raise e, log)
          end
      end
  end.

End Manager.
End OCO.

(** [str(e)] *)
Definition exn_str (e : exn) : string :=
  match e with
  | ValueError msg | TypeError msg | ConnectionError msg | OSError msg
  | RequestException msg => msg
  end.

(** [cancel_oco_orders] of [src/advanced/oco.py]: one entry of the list
    under the key [cancelled_orders] for each order id given, with the
    response of the exchange or the text of the error. *)
Module OCOCancel.

Record cancel_result := {
  cr_order_id : Z;
  cr_status : string;
  cr_response : option order;
  cr_error : option string }.

Section Manager.
Variable X : exchange.

(** The body of the loop, for one [order_id]. *)
Definition cancel_one (symbol : string)
    (st : list cancel_result * list call) (order_id : Z)
  : list cancel_result * list call :=
  let '(results, log) := st in
  match Client.cancel_order X symbol order_id log with
  | (Ok response, log) =>
      (results ++ [{| cr_order_id := order_id; cr_status := "CANCELLED";
                      cr_response := Some response; cr_error := None |}], log)
  | (Raise e, log) =>
      (results ++ [{| cr_order_id := order_id; cr_status := "CANCEL_FAILED";
                      cr_response := None; cr_error := Some (exn_str e) |}], log)
  end.

Definition cancel_oco_orders (symbol : string) (oco_orders : list Z)
    (log : list call) : list cancel_result * list call :=
  fold_left (cancel_one symbol) oco_orders ([], log).

End Manager.
End OCOCancel.

(** [range(n)] *)
Definition range (n : Z) : list Z := Z.of_nat <$> seq 0 (Z.to_nat n).

(** ** [src/advanced/twap.py] *)

Module TWAP.

(** The dictionary [twap_info]. [end_time] and [error] are the keys added
    when the run ends. *)
Record info := {
  twap_id : string;
  symbol : string;
  side : string;
  total_quantity : B64.float;
  chunk_size : B64.float;
  num_chunks : Z;
  interval_seconds : Z;
  price_limit : option B64.float;
  randomize : bool;
  start_time : Z;
  executed_chunks : Z;
  executed_quantity : B64.float;
  total_value : B64.float;
  orders : list order;
  status : string;
  end_time : option Z;
  error : option string }.

Definition with_progress (i : info) (chunks : Z) (qty value : B64.float)
    (os : list order) : info :=
  {| twap_id := twap_id i; symbol := symbol i; side := side i;
     total_quantity := total_quantity i; chunk_size := chunk_size i;
     num_chunks := num_chunks i; interval_seconds := interval_seconds i;
     price_limit := price_limit i; randomize := randomize i;
     start_time := start_time i;
     executed_chunks := chunks; executed_quantity := qty;
     total_value := value; orders := os;
     status := status i; end_time := end_time i; error := error i |}.

Definition with_status (i : info) (st : string) (finished : option Z)
    (err : option string) : info :=
  {| twap_id := twap_id i; symbol := symbol i; side := side i;
     total_quantity := total_quantity i; chunk_size := chunk_size i;
     num_chunks := num_chunks i; interval_seconds := interval_seconds i;
     price_limit := price_limit i; randomize := randomize i;
     start_time := start_time i;
     executed_chunks := executed_chunks i;
     executed_quantity := executed_quantity i;
     total_value := total_value i; orders := orders i;
     status := st; end_time := finished; error := err |}.

(** The instance attributes [active_twap_orders] and [stop_flags]; [heap]
    holds the [twap_info] dictionaries, which the registry, the worker
    thread and the callers all reach by reference. *)
Record manager := {
  heap : list info;
  active_twap_orders : gmap string nat;
  stop_flags : gmap string bool }.

(** Where a thread running [_execute_twap] stands: in the [for] loop; after
    it, with [status] and [end_time] written and the completion summary
    still to be printed; or returned. *)
Inductive point :=
| Loop
| Summary
| Returned.

(** A thread running [_execute_twap]: its [twap_info], the bound of
    [range(num_chunks)], the next value of [chunk_num], and where it
    stands. The thread looks its dictionary up in the registry as its
    first statement, which is taken to happen when it is started. *)
Record worker := {
  w_twap_id : string;
  w_info : nat;
  w_range : Z;
  w_chunk : Z;
  w_at : point }.

(** The thread is in its loop. *)
Definition w_running (t : worker) : bool :=
  match w_at t with Loop => true | _ => false end.

Record system := {
  mgr : manager;
  log : list call;
  threads : list worker }.

Definition _validate_twap_order (symbol side : string)
    (total_quantity : B64.float) (num_chunks interval_seconds : Z) : bool :=
  if negb (OrderValidator.validate_symbol symbol
           && OrderValidator.validate_side side
           && OrderValidator.validate_quantity total_quantity)
  then false
  else if num_chunks <? 2 then false
  else if 100 <? num_chunks then false
  else if interval_seconds <? 10 then false
  else
    let chunk_size := B64.div total_quantity (B64.of_Z num_chunks) in
    if B64.ltb chunk_size Config.MIN_QUANTITY then false
    else true.

(** How one pass of the [for] loop ends. *)
Inductive pass_end :=
| Continue
| Break
| Crash (e : exn).

(** The skip condition of [_execute_chunk]. *)
Definition beyond_limit (side : string) (current_price price_limit : B64.float)
  : bool :=
  (String.eqb side "BUY" && B64.gtb current_price price_limit)
  || (String.eqb side "SELL" && B64.ltb current_price price_limit).

Definition market_request (symbol side : string) (chunk_size : B64.float)
  : order_request :=
  {| rq_symbol := symbol; rq_side := side; rq_type := "MARKET";
     rq_quantity := chunk_size; rq_price := None; rq_stopPrice := None;
     rq_timeInForce := "GTC" |}.

(** [sum(float(fill['qty']) * float(fill['price']) for fill in fills)],
    added up from the left starting at [0]; a field that cannot be read ends
    the sum with its exception. *)
Fixpoint fills_value_from (acc : B64.float) (fs : list (numeric * numeric))
  : res B64.float :=
  match fs with
  | [] => Ok acc
  | (qty, price) :: fs =>
      match to_float qty with
      | Raise e => Raise e
      | Ok q =>
          match to_float price with
          | Raise e => Raise e
          | Ok p => fills_value_from (B64.add acc (B64.mul q p)) fs
          end
      end
  end.

Definition fills_value (fs : list (numeric * numeric)) : res B64.float :=
  fills_value_from B64.zero fs.

(** The updates of [twap_info] after a chunk that returned an order, one
    after the other: the count of chunks, the executed quantity, the value
    of the fills, the list of orders. They stand in the [try] of the loop,
    whose handler logs and goes on: when a field of the reply cannot be
    read, the updates made before it stay and the later ones are not
    made. *)
Definition record_chunk (i : info) (chunk_size : B64.float)
    (chunk_result : order) : info :=
  let i :=
    with_progress i (executed_chunks i + 1) (executed_quantity i)
      (total_value i) (orders i) in
  match to_float (default (Number chunk_size) (executedQty chunk_result)) with
  | Raise _ => i
  | Ok executed =>
      let i :=
        with_progress i (executed_chunks i)
          (B64.add (executed_quantity i) executed) (total_value i) (orders i) in
      match fills chunk_result with
      | [] =>
          with_progress i (executed_chunks i) (executed_quantity i)
            (total_value i) (orders i ++ [chunk_result])
      | fs =>
          match fills_value fs with
          | Raise _ => i
          | Ok chunk_value =>
              with_progress i (executed_chunks i) (executed_quantity i)
                (B64.add (total_value i) chunk_value)
                (orders i ++ [chunk_result])
          end
      end
  end.

Section Manager.
Variable X : exchange.

(** [None] is the skipped chunk ([return None]); an exception of the
    client, or of the [print] that follows the placement, is logged and
    raised again. *)
Definition _execute_chunk (twap_info : info) (chunk_num : Z)
    (chunk_size : B64.float) (log : list call)
  : res (option order) * list call :=
  let symbol := symbol twap_info in
  let side := side twap_info in
  let place log :=
    match Client.place_order X (market_request symbol side chunk_size) log with
    | (Ok order_result, log) =>
        match x_print X log "TWAP Chunk executed" with
        | Ok _ => (Ok (Some order_result), log)
        | Raise e => (Raise e, log)
        end
    | (Raise e, log) => (Raise e, log)
    end in
  match price_limit twap_info with
  | Some price_limit =>
      if B64.truthy price_limit then
        match Client.get_symbol_price X symbol log with
        | (Raise e, log) => (Raise e, log)
        | (Ok current_price, log) =>
            if beyond_limit side current_price price_limit
            then (Ok None, log)
            else place log
        end
      else place log
  | None => place log
  end.

(** The quantity of the chunk [chunk_num]: [chunk_size], and for the last
    one what remains of [total_quantity]. *)
Definition planned_quantity (twap_info : info) (chunk_num : Z) : B64.float :=
  let chunk_size := chunk_size twap_info in
  let remaining_quantity :=
    B64.sub (total_quantity twap_info) (executed_quantity twap_info) in
  if chunk_num =? num_chunks twap_info - 1 then remaining_quantity
  else chunk_size.

(** One pass of the loop of [_execute_twap], for the value [chunk_num]. *)
Definition loop_pass (flags : gmap string bool) (twap_id : string)
    (chunk_num : Z) (twap_info : info) (log : list call)
  : info * list call * pass_end :=
  if default false (flags !! twap_id) then (twap_info, log, Break)
  else
    let chunk_size := planned_quantity twap_info chunk_num in
    let '(twap_info, log) :=
      match _execute_chunk twap_info (chunk_num + 1) chunk_size log with
      | (Ok (Some chunk_result), log) =>
          (record_chunk twap_info chunk_size chunk_result, log)
      | (Ok None, log) => (twap_info, log)
      | (Raise e, log) => (twap_info, log)
      end in
    if chunk_num <? num_chunks twap_info - 1 then
      match x_sleep X log with
      | Ok _ => (twap_info, log, Continue)
      | Raise e => (twap_info, log, Crash e)
      end
    else (twap_info, log, Continue).

(** The two assignments after the loop, and the two of the handler
    [except Exception as e] around the loop and what follows it. *)
Definition completed (now : Z) (twap_info : info) : info :=
  with_status twap_info "COMPLETED" (Some now) (error twap_info).

Definition failed (e : exn) (twap_info : info) : info :=
  with_status twap_info "FAILED" (end_time twap_info) (Some (exn_str e)).

(** The summaries printed when a run starts and when its thread is done. *)
Definition _display_twap_start (twap_info : info) (log : list call) : res unit :=
  x_print X log "TWAP (TIME-WEIGHTED AVERAGE PRICE) ORDER STARTED".

Definition _display_twap_completion (twap_info : info) (log : list call)
  : res unit :=
  x_print X log "TWAP ORDER COMPLETED".

Definition leave (t : worker) : worker :=
  {| w_twap_id := w_twap_id t; w_info := w_info t; w_range := w_range t;
     w_chunk := w_chunk t; w_at := Summary |}.

Definition stop (t : worker) : worker :=
  {| w_twap_id := w_twap_id t; w_info := w_info t; w_range := w_range t;
     w_chunk := w_chunk t; w_at := Returned |}.

Definition next (t : worker) : worker :=
  {| w_twap_id := w_twap_id t; w_info := w_info t; w_range := w_range t;
     w_chunk := w_chunk t + 1; w_at := w_at t |}.

Definition store (s : system) (l : nat) (i : info) (lg : list call)
    (w : nat) (t : worker) : system :=
  {| mgr := {| heap := <[l := i]> (heap (mgr s));
               active_twap_orders := active_twap_orders (mgr s);
               stop_flags := stop_flags (mgr s) |};
     log := lg;
     threads := <[w := t]> (threads s) |}.

(** The thread [w] advances [_execute_twap]. In the loop, by one pass; when
    the pass ends in [break], or [range(num_chunks)] is exhausted, by the
    assignments of [COMPLETED] and of [end_time] that follow the loop; an
    exception that leaves the loop goes to the handler. After the loop, by
    the completion summary: when printing it raises, the handler, which is
    around it as well, writes [FAILED] over [COMPLETED]. *)
Definition _execute_twap_step (now : Z) (w : nat) (s : system) : system :=
  match threads s !! w with
  | None => s
  | Some t =>
      match heap (mgr s) !! w_info t with
      | None => s
      | Some twap_info =>
          match w_at t with
          | Loop =>
              if w_chunk t <? w_range t then
                match loop_pass (stop_flags (mgr s)) (w_twap_id t) (w_chunk t)
                        twap_info (log s) with
                | (twap_info, lg, Continue) =>
                    store s (w_info t) twap_info lg w (next t)
                | (twap_info, lg, Break) =>
                    store s (w_info t) (completed now twap_info) lg w (leave t)
                | (twap_info, lg, Crash e) =>
                    store s (w_info t) (failed e twap_info) lg w (stop t)
                end
              else
                store s (w_info t) (completed now twap_info) (log s) w (leave t)
          | Summary =>
              match _display_twap_completion twap_info (log s) with
              | Ok _ => store s (w_info t) twap_info (log s) w (stop t)
              | Raise e =>
                  store s (w_info t) (failed e twap_info) (log s) w (stop t)
              end
          | Returned => s
          end
      end
  end.

(** [_execute_twap] run by the thread [w] until it returns, while no other
    thread intervenes: at most [num_chunks + 2] steps. *)
Definition _execute_twap (now : Z) (w : nat) (s : system) : system :=
  match threads s !! w with
  | None => s
  | Some t =>
      Nat.iter (S (S (Z.to_nat (w_range t - w_chunk t))))
        (_execute_twap_step now w) s
  end.

Definition place_twap_order (symbol side : string) (total_quantity : B64.float)
    (num_chunks interval_seconds : Z) (price_limit : option B64.float)
    (randomize : bool) (now : Z) (s : system) : res nat * system :=
  let symbol := Str.strip (Str.upper symbol) in
  let side := Str.strip (Str.upper side) in
  let twap_id := "TWAP_" +:+ symbol +:+ "_" +:+ pretty now in
  match Logger.log_order_attempt "TWAP" symbol (Some side)
          (Some total_quantity) with
  | Raise e => (Raise e, s)
  | Ok _ =>
  if negb (_validate_twap_order symbol side total_quantity num_chunks
             interval_seconds)
  then (Raise (ValueError "Invalid TWAP order parameters"), s)
  else
    let '(up, lg) := Client.test_connectivity X (log s) in
    if negb up
    then (Raise (ConnectionError "Unable to connect to Binance API"),
          {| mgr := mgr s; log := lg; threads := threads s |})
    else
      let chunk_size := B64.div total_quantity (B64.of_Z num_chunks) in
      (* the price is fetched for the log only; a failure is swallowed *)
      let '(_, lg) := Client.get_symbol_price X symbol lg in
      let twap_info :=
        {| twap_id := twap_id; symbol := symbol; side := side;
           total_quantity := total_quantity; chunk_size := chunk_size;
           num_chunks := num_chunks; interval_seconds := interval_seconds;
           price_limit := price_limit; randomize := randomize;
           start_time := now;
           executed_chunks := 0; executed_quantity := B64.zero;
           total_value := B64.zero; orders := []; status := "ACTIVE";
           end_time := None; error := None |} in
      let l := length (heap (mgr s)) in
      let registered :=
        {| heap := heap (mgr s) ++ [twap_info];
           active_twap_orders := <[twap_id := l]> (active_twap_orders (mgr s));
           stop_flags := <[twap_id := false]> (stop_flags (mgr s)) |} in
      (* the summary is printed after the run is registered and before its
         thread is started *)
      match _display_twap_start twap_info lg with
      | Raise e =>
          (Raise e, {| mgr := registered; log := lg; threads := threads s |})
      | Ok _ =>
          (Ok l,
           {| mgr := registered;
              log := lg;
              threads := threads s ++
                [{| w_twap_id := twap_id; w_info := l; w_range := num_chunks;
                    w_chunk := 0; w_at := Loop |}] |})
      end
  end.

Definition stop_twap_order (twap_id : string) (s : system) : bool * system :=
  if bool_decide (is_Some (stop_flags (mgr s) !! twap_id)) then
    (true,
     {| mgr := {| heap := heap (mgr s);
                  active_twap_orders := active_twap_orders (mgr s);
                  stop_flags := <[twap_id := true]> (stop_flags (mgr s)) |};
        log := log s; threads := threads s |})
  else (false, s).

(** [self.active_twap_orders.get(twap_id, {})]: the registered dictionary
    itself, or a new empty one ([None]). *)
Definition get_twap_status (twap_id : string) (s : system) : option nat :=
  active_twap_orders (mgr s) !! twap_id.

(** What a holder of the value returned by [get_twap_status] reads at a
    later time. *)
Definition read (r : option nat) (s : system) : option info :=
  r ≫= fun l => heap (mgr s) !! l.

End Manager.

Definition init : system :=
  {| mgr := {| heap := []; active_twap_orders := ∅; stop_flags := ∅ |};
     log := []; threads := [] |}.

(** What the callers and the scheduler can do to a manager. *)
Inductive op :=
| Place (symbol side : string) (total_quantity : B64.float)
    (num_chunks interval_seconds : Z) (price_limit : option B64.float)
    (randomize : bool)
| Stop (twap_id : string)
| Status (twap_id : string)
| Thread (w : nat).

Definition step (X : exchange) (now : Z) (o : op) (s : system) : system :=
  match o with
  | Place symbol side total_quantity num_chunks interval_seconds price_limit
      randomize =>
      snd (place_twap_order X symbol side total_quantity num_chunks
             interval_seconds price_limit randomize now s)
  | Stop twap_id => snd (stop_twap_order twap_id s)
  | Status _ => s
  | Thread w => _execute_twap_step X now w s
  end.

(** A schedule: operations with the clock reading at each. *)
Definition run (X : exchange) (ops : list (Z * op)) (s : system) : system :=
  fold_left (fun s o => step X (fst o) (snd o) s) ops s.

(** The states a manager can be in: those a schedule leads to from the
    manager just created. *)
Inductive reachable (X : exchange) : system -> Prop :=
| reachable_init : reachable X init
| reachable_step (s : system) (now : Z) (o : op) :
    reachable X s -> reachable X (step X now o s).

(** Each thread runs a dictionary of the heap, no two threads the same
    one, and the status of that dictionary tells where the thread stands:
    [ACTIVE] in the loop, [COMPLETED] before the completion summary,
    [COMPLETED] or [FAILED] once the thread has returned. *)
Definition consistent (s : system) : Prop :=
  (forall (w : nat) (t : worker),
      threads s !! w = Some t ->
      exists i, heap (mgr s) !! w_info t = Some i
        /\ match w_at t with
           | Loop => status i = "ACTIVE"
           | Summary => status i = "COMPLETED"
           | Returned => status i = "COMPLETED" \/ status i = "FAILED"
           end)
  /\ forall (w w' : nat) (t t' : worker),
      threads s !! w = Some t -> threads s !! w' = Some t' ->
      w_info t = w_info t' -> w = w'.

End TWAP.

(** ** [src/advanced/grid_orders.py] *)

Module Grid.

(** An entry of [buy_orders] or [sell_orders]. *)
Record child := {
  c_order : order;
  c_level_price : B64.float;
  c_status : string }.

(** An entry of [filled_orders]. *)
Record filled := {
  f_type : string;
  f_order : order;
  f_level_price : B64.float }.

(** The dictionary [grid_info]. *)
Record info := {
  grid_id : string;
  symbol : string;
  lower_price : B64.float;
  upper_price : B64.float;
  current_price : B64.float;
  quantity_per_level : B64.float;
  num_levels : Z;
  rebalance : bool;
  grid_levels : list B64.float;
  start_time : Z;
  buy_orders : list child;
  sell_orders : list child;
  filled_orders : list filled;
  total_profit : B64.float;
  status : string }.

Definition with_orders (i : info) (buys sells : list child)
    (fills : list filled) : info :=
  {| grid_id := grid_id i; symbol := symbol i;
     lower_price := lower_price i; upper_price := upper_price i;
     current_price := current_price i;
     quantity_per_level := quantity_per_level i;
     num_levels := num_levels i; rebalance := rebalance i;
     grid_levels := grid_levels i; start_time := start_time i;
     buy_orders := buys; sell_orders := sells; filled_orders := fills;
     total_profit := total_profit i; status := status i |}.

Definition with_status (i : info) (st : string) : info :=
  {| grid_id := grid_id i; symbol := symbol i;
     lower_price := lower_price i; upper_price := upper_price i;
     current_price := current_price i;
     quantity_per_level := quantity_per_level i;
     num_levels := num_levels i; rebalance := rebalance i;
     grid_levels := grid_levels i; start_time := start_time i;
     buy_orders := buy_orders i; sell_orders := sell_orders i;
     filled_orders := filled_orders i;
     total_profit := total_profit i; status := st |}.

Definition with_child_status (c : child) (st : string) : child :=
  {| c_order := c_order c; c_level_price := c_level_price c; c_status := st |}.

Record manager := {
  heap : list info;
  active_grids : gmap string nat;
  stop_flags : gmap string bool }.

(** A thread running [_monitor_grid]. *)
Record monitor := {
  m_grid_id : string;
  m_info : nat;
  m_running : bool }.

Record system := {
  mgr : manager;
  log : list call;
  threads : list monitor }.

Definition _validate_grid_order (symbol : string)
    (lower_price upper_price quantity_per_level : B64.float) (num_levels : Z)
  : bool :=
  if negb (OrderValidator.validate_symbol symbol
           && OrderValidator.validate_price (Some lower_price)
           && OrderValidator.validate_price (Some upper_price)
           && OrderValidator.validate_quantity quantity_per_level)
  then false
  else if B64.geb lower_price upper_price then false
  else if num_levels <? 3 then false
  else if 50 <? num_levels then false
  else
    let price_diff_pct :=
      B64.mul (B64.div (B64.sub upper_price lower_price) lower_price)
        (B64.of_Z 100) in
    if B64.ltb price_diff_pct (B64.of_Z 5) then false
    else true.

(** In [i * price_step] the integer [i] is converted to a float first. *)
Definition _calculate_grid_levels (lower_price upper_price : B64.float)
    (num_levels : Z) : list B64.float :=
  let price_step :=
    B64.div (B64.sub upper_price lower_price) (B64.of_Z (num_levels - 1)) in
  (fun i => B64.add lower_price (B64.mul (B64.of_Z i) price_step))
    <$> range num_levels.

Definition limit_request (symbol side : string) (quantity level_price : B64.float)
  : order_request :=
  {| rq_symbol := symbol; rq_side := side; rq_type := "LIMIT";
     rq_quantity := quantity; rq_price := Some level_price;
     rq_stopPrice := None; rq_timeInForce := "GTC" |}.

Definition placed_child (o : order) (level_price : B64.float) : child :=
  {| c_order := o; c_level_price := level_price; c_status := "PLACED" |}.

(** The initial placement as the specification words it: a level below the
    current price gets a buy limit order at its price, a level above it a
    sell limit order, any other level nothing. *)
Definition expected_request (symbol : string) (quantity current_price : B64.float)
    (level : B64.float) : option order_request :=
  if B64.ltb level current_price
  then Some (limit_request symbol "BUY" quantity level)
  else if B64.gtb level current_price
       then Some (limit_request symbol "SELL" quantity level)
       else None.

Section Manager.
Variable X : exchange.

(** The body of the loop of [_place_initial_grid_orders] for one level; a
    failed placement is logged and leaves no entry. *)
Definition place_level (st : info * list call) (level_price : B64.float)
  : info * list call :=
  let '(grid_info, log) := st in
  let symbol := symbol grid_info in
  let current_price := current_price grid_info in
  let quantity := quantity_per_level grid_info in
  if B64.ltb level_price current_price then
    match Client.place_order X
            (limit_request symbol "BUY" quantity level_price) log with
    | (Ok order, log) =>
        (with_orders grid_info
           (buy_orders grid_info ++ [placed_child order level_price])
           (sell_orders grid_info) (filled_orders grid_info), log)
    | (Raise e, log) => (grid_info, log)
    end
  else if B64.gtb level_price current_price then
    match Client.place_order X
            (limit_request symbol "SELL" quantity level_price) log with
    | (Ok order, log) =>
        (with_orders grid_info (buy_orders grid_info)
           (sell_orders grid_info ++ [placed_child order level_price])
           (filled_orders grid_info), log)
    | (Raise e, log) => (grid_info, log)
    end
  else (grid_info, log).

Definition _place_initial_grid_orders (grid_info : info) (log : list call)
  : info * list call :=
  fold_left place_level (grid_levels grid_info) (grid_info, log).

(** One of the two loops of [_check_filled_orders], over the entries [cs]
    of the side [kind]. *)
Fixpoint check_side (kind symbol : string) (cs : list child)
    (fills : list filled) (log : list call)
  : list child * list filled * list call :=
  match cs with
  | [] => ([], fills, log)
  | order_info :: rest =>
      let '(order_info, fills, log) :=
        if String.eqb (c_status order_info) "PLACED" then
          match Client.get_order X symbol (orderId (c_order order_info)) log with
          | (Ok order_status, log) =>
              if String.eqb (o_status order_status) "FILLED" then
                (with_child_status order_info "FILLED",
                 fills ++ [{| f_type := kind; f_order := order_status;
                              f_level_price := c_level_price order_info |}],
                 log)
              else (order_info, fills, log)
          | (Raise e, log) => (order_info, fills, log)
          end
        else (order_info, fills, log) in
      let '(rest, fills, log) := check_side kind symbol rest fills log in
      (order_info :: rest, fills, log)
  end.

Definition _check_filled_orders (grid_info : info) (log : list call)
  : info * list call :=
  let symbol := symbol grid_info in
  let '(buys, fills, log) :=
    check_side "BUY" symbol (buy_orders grid_info)
      (filled_orders grid_info) log in
  let '(sells, fills, log) :=
    check_side "SELL" symbol (sell_orders grid_info) fills log in
  (with_orders grid_info buys sells fills, log).

(** [_rebalance_grid] is [pass]. *)
Definition _rebalance_grid (grid_info : info) : info := grid_info.

Definition halt (t : monitor) : monitor :=
  {| m_grid_id := m_grid_id t; m_info := m_info t; m_running := false |}.

Definition store (s : system) (l : nat) (i : info) (lg : list call)
    (ts : list monitor) : system :=
  {| mgr := {| heap := <[l := i]> (heap (mgr s));
               active_grids := active_grids (mgr s);
               stop_flags := stop_flags (mgr s) |};
     log := lg;
     threads := ts |}.

(** The thread [w] evaluates the condition of the [while] of
    [_monitor_grid] and runs the body once, or leaves the loop and runs the
    statements after it. *)
Definition _monitor_grid_step (w : nat) (s : system) : system :=
  match threads s !! w with
  | None => s
  | Some t =>
      if negb (m_running t) then s
      else
        match heap (mgr s) !! m_info t with
        | None => s
        | Some grid_info =>
            if negb (default false (stop_flags (mgr s) !! m_grid_id t))
               && String.eqb (status grid_info) "ACTIVE"
            then
              let '(grid_info, lg) := _check_filled_orders grid_info (log s) in
              let grid_info :=
                if rebalance grid_info then _rebalance_grid grid_info
                else grid_info in
              store s (m_info t) grid_info lg (threads s)
            else
              store s (m_info t) (with_status grid_info "STOPPED") (log s)
                (<[w := halt t]> (threads s))
        end
  end.

(** The summary printed once the initial orders are placed. *)
Definition _display_grid_start (grid_info : info) (log : list call) : res unit :=
  x_print X log "GRID TRADING STRATEGY STARTED".

(** The call of [bot_logger.log_order_attempt] that opens the function
    gives [order_type], [symbol] and keyword arguments for [kwargs], but
    neither [side] nor [quantity]; it stands before the validation and
    outside the [try], so what it raises leaves the function at once. *)
Definition place_grid_orders (symbol : string)
    (lower_price upper_price quantity_per_level : B64.float)
    (num_levels : Z) (rebalance : bool) (now : Z) (s : system)
  : res nat * system :=
  let symbol := Str.strip (Str.upper symbol) in
  let grid_id := "GRID_" +:+ symbol +:+ "_" +:+ pretty now in
  match Logger.log_order_attempt "GRID" symbol None None with
  | Raise e => (Raise e, s)
  | Ok _ =>
  if negb (_validate_grid_order symbol lower_price upper_price
             quantity_per_level num_levels)
  then (Raise (ValueError "Invalid grid order parameters"), s)
  else
    let '(up, lg) := Client.test_connectivity X (log s) in
    if negb up
    then (Raise (ConnectionError "Unable to connect to Binance API"),
          {| mgr := mgr s; log := lg; threads := threads s |})
    else
      match Client.get_symbol_price X symbol lg with
      | (Raise e, lg) =>
          (Raise e, {| mgr := mgr s; log := lg; threads := threads s |})
      | (Ok current_price, lg) =>
          if negb (B64.ltb lower_price current_price
                   && B64.ltb current_price upper_price)
          then (Raise (ValueError "Current price must be between the bounds"),
                {| mgr := mgr s; log := lg; threads := threads s |})
          else
            let grid_levels :=
              _calculate_grid_levels lower_price upper_price num_levels in
            let grid_info :=
              {| grid_id := grid_id; symbol := symbol;
                 lower_price := lower_price; upper_price := upper_price;
                 current_price := current_price;
                 quantity_per_level := quantity_per_level;
                 num_levels := num_levels; rebalance := rebalance;
                 grid_levels := grid_levels; start_time := now;
                 buy_orders := []; sell_orders := []; filled_orders := [];
                 total_profit := B64.zero; status := "ACTIVE" |} in
            let l := length (heap (mgr s)) in
            let '(grid_info, lg) := _place_initial_grid_orders grid_info lg in
            let registered :=
              {| heap := heap (mgr s) ++ [grid_info];
                 active_grids := <[grid_id := l]> (active_grids (mgr s));
                 stop_flags := <[grid_id := false]> (stop_flags (mgr s)) |} in
            match _display_grid_start grid_info lg with
            | Raise e =>
                (Raise e,
                 {| mgr := registered; log := lg; threads := threads s |})
            | Ok _ =>
                (Ok l,
                 {| mgr := registered;
                    log := lg;
                    threads :=
                      if rebalance
                      then threads s ++
                             [{| m_grid_id := grid_id; m_info := l;
                                 m_running := true |}]
                      else threads s |})
            end
      end
  end.

Definition stop_grid (grid_id : string) (s : system) : bool * system :=
  if bool_decide (is_Some (stop_flags (mgr s) !! grid_id)) then
    (true,
     {| mgr := {| heap := heap (mgr s);
                  active_grids := active_grids (mgr s);
                  stop_flags := <[grid_id := true]> (stop_flags (mgr s)) |};
        log := log s; threads := threads s |})
  else (false, s).

(** One of the two loops of [cancel_all_grid_orders]. *)
Fixpoint cancel_side (symbol : string) (cs : list child)
    (cancelled_orders : list order) (log : list call)
  : list child * list order * list call :=
  match cs with
  | [] => ([], cancelled_orders, log)
  | order_info :: rest =>
      let '(order_info, cancelled_orders, log) :=
        if String.eqb (c_status order_info) "PLACED" then
          match Client.cancel_order X symbol
                  (orderId (c_order order_info)) log with
          | (Ok response, log) =>
              (with_child_status order_info "CANCELLED",
               cancelled_orders ++ [response], log)
          | (Raise e, log) => (order_info, cancelled_orders, log)
          end
        else (order_info, cancelled_orders, log) in
      let '(rest, cancelled_orders, log) :=
        cancel_side symbol rest cancelled_orders log in
      (order_info :: rest, cancelled_orders, log)
  end.

Definition is_placed (c : child) : bool := String.eqb (c_status c) "PLACED".

Definition cancel_call (symbol : string) (c : child) : call :=
  CancelOrder symbol (orderId (c_order c)).

(** What a loop of [cancel_all_grid_orders] has done to the entries [cs] of
    one side when it started with the history [lg]: [cs'] are the entries
    after it and [rs] the responses it has collected. The entry of index [k]
    is asked about after the [PLACED] entries before it. *)
Definition cancelled_side (symbol : string) (lg : list call)
    (cs cs' : list child) (rs : list order) : Prop :=
  length cs' = length cs
  /\ (length rs + length (List.filter is_placed cs')
      = length (List.filter is_placed cs))%nat
  /\ forall (k : nat) (c : child),
      cs !! k = Some c ->
      if is_placed c then
        match x_cancel X
                (lg ++ (cancel_call symbol <$> List.filter is_placed (take k cs)))
                symbol (orderId (c_order c)) with
        | Ok r => cs' !! k = Some (with_child_status c "CANCELLED") /\ r ∈ rs
        | Raise _ => cs' !! k = Some c
        end
      else cs' !! k = Some c.

(** The value returned is the list under the key [cancelled_orders], the
    only key of the dictionary returned. *)
Definition cancel_all_grid_orders (grid_id : string) (s : system)
  : res (list order) * system :=
  match active_grids (mgr s) !! grid_id with
  | None => (Raise (ValueError ("Grid " +:+ grid_id +:+ " not found")), s)
  | Some l =>
      match heap (mgr s) !! l with
      | None => (Raise (ValueError ("Grid " +:+ grid_id +:+ " not found")), s)
      | Some grid_info =>
          let symbol := symbol grid_info in
          let '(buys, cancelled_orders, lg) :=
            cancel_side symbol (buy_orders grid_info) [] (log s) in
          let '(sells, cancelled_orders, lg) :=
            cancel_side symbol (sell_orders grid_info) cancelled_orders lg in
          let grid_info :=
            with_status
              (with_orders grid_info buys sells (filled_orders grid_info))
              "CANCELLED" in
          (Ok cancelled_orders, store s l grid_info lg (threads s))
      end
  end.

(** [self.active_grids.get(grid_id, {})] *)
Definition get_grid_status (grid_id : string) (s : system) : option nat :=
  active_grids (mgr s) !! grid_id.

Definition read (r : option nat) (s : system) : option info :=
  r ≫= fun l => heap (mgr s) !! l.

End Manager.

Definition init : system :=
  {| mgr := {| heap := []; active_grids := ∅; stop_flags := ∅ |};
     log := []; threads := [] |}.

Inductive op :=
| Place (symbol : string)
    (lower_price upper_price quantity_per_level : B64.float)
    (num_levels : Z) (rebalance : bool)
| Stop (grid_id : string)
| CancelAll (grid_id : string)
| Status (grid_id : string)
| Thread (w : nat).

Definition step (X : exchange) (now : Z) (o : op) (s : system) : system :=
  match o with
  | Place symbol lower_price upper_price quantity_per_level num_levels
      rebalance =>
      snd (place_grid_orders X symbol lower_price upper_price
             quantity_per_level num_levels rebalance now s)
  | Stop grid_id => snd (stop_grid grid_id s)
  | CancelAll grid_id => snd (cancel_all_grid_orders X grid_id s)
  | Status _ => s
  | Thread w => _monitor_grid_step X w s
  end.

Definition run (X : exchange) (ops : list (Z * op)) (s : system) : system :=
  fold_left (fun s o => step X (fst o) (snd o) s) ops s.

(** The states a manager can be in: those a schedule leads to from the
    manager just created. *)
Inductive reachable (X : exchange) : system -> Prop :=
| reachable_init : reachable X init
| reachable_step (s : system) (now : Z) (o : op) :
    reachable X s -> reachable X (step X now o s).

End Grid.


(** ** Mock exchanges used to run the programs on concrete inputs *)

Module Mock.

(** A reply whose numeric fields can all be read. *)
Definition reply (id : Z) (st : string) (qty : option B64.float)
    (fs : list (B64.float * B64.float)) : order :=
  {| orderId := id; o_status := st; executedQty := Number <$> qty;
     fills := (fun f => (Number (fst f), Number (snd f))) <$> fs |}.

Definition refused : exn := RequestException "400 Client Error".
Definition unreachable : exn := RequestException "Connection reset".

(** Every order is accepted and numbered by the length of the history;
    market orders fill at once at the price [p]. *)
Definition filling (p : B64.float) : exchange :=
  {| x_ping := fun _ => true;
     x_price := fun _ _ => Ok p;
     x_place := fun lg rq =>
       Ok (reply (Z.of_nat (length lg))
             (if String.eqb (rq_type rq) "MARKET" then "FILLED" else "NEW")
             (Some (rq_quantity rq)) [(rq_quantity rq, p)]);
     x_query := fun _ _ id => Ok (reply id "NEW" None []);
     x_cancel := fun _ _ id => Ok (reply id "CANCELED" None []);
     x_sleep := fun _ => Ok tt;
     x_print := fun _ _ => Ok tt |}.

(** Like [filling], but the exchange refuses the order request number [k]
    (counted from 0) with [refused], and every cancellation with
    [unreachable]. *)
Definition refusing (k : nat) (p : B64.float) : exchange :=
  {| x_ping := fun _ => true;
     x_price := fun _ _ => Ok p;
     x_place := fun lg rq =>
       if (length (placed lg) =? k)%nat then Raise refused
       else Ok (reply (Z.of_nat (length lg))
                  (if String.eqb (rq_type rq) "MARKET" then "FILLED" else "NEW")
                  (Some (rq_quantity rq)) [(rq_quantity rq, p)]);
     x_query := fun _ _ id => Ok (reply id "NEW" None []);
     x_cancel := fun _ _ _ => Raise unreachable;
     x_sleep := fun _ => Ok tt;
     x_print := fun _ _ => Ok tt |}.

(** An exchange that answers the price [p] and refuses every order request. *)
Definition rejecting (p : B64.float) : exchange :=
  {| x_ping := fun _ => true;
     x_price := fun _ _ => Ok p;
     x_place := fun _ _ => Raise refused;
     x_query := fun _ _ id => Ok (reply id "NEW" None []);
     x_cancel := fun _ _ id => Ok (reply id "CANCELED" None []);
     x_sleep := fun _ => Ok tt;
     x_print := fun _ _ => Ok tt |}.

(** Like [filling], but standard output is closed when the summary under
    [heading] is to be printed. *)
Definition closed : exn := ValueError "I/O operation on closed file.".

Definition silenced (heading : string) (p : B64.float) : exchange :=
  {| x_ping := fun _ => true;
     x_price := fun _ _ => Ok p;
     x_place := fun lg rq =>
       Ok (reply (Z.of_nat (length lg))
             (if String.eqb (rq_type rq) "MARKET" then "FILLED" else "NEW")
             (Some (rq_quantity rq)) [(rq_quantity rq, p)]);
     x_query := fun _ _ id => Ok (reply id "NEW" None []);
     x_cancel := fun _ _ id => Ok (reply id "CANCELED" None []);
     x_sleep := fun _ => Ok tt;
     x_print := fun _ h =>
       if String.eqb h heading then Raise closed else Ok tt |}.

(** Like [filling], but the cancellation of the order [order_id] is
    refused. *)
Definition stubborn (order_id : Z) (p : B64.float) : exchange :=
  {| x_ping := fun _ => true;
     x_price := fun _ _ => Ok p;
     x_place := fun lg rq =>
       Ok (reply (Z.of_nat (length lg))
             (if String.eqb (rq_type rq) "MARKET" then "FILLED" else "NEW")
             (Some (rq_quantity rq)) [(rq_quantity rq, p)]);
     x_query := fun _ _ id => Ok (reply id "NEW" None []);
     x_cancel := fun _ _ id =>
       if id =? order_id then Raise refused
       else Ok (reply id "CANCELED" None []);
     x_sleep := fun _ => Ok tt;
     x_print := fun _ _ => Ok tt |}.

(** Like [filling], but the [executedQty] of every reply is text that is
    not a number. *)
Definition garbled (p : B64.float) : exchange :=
  {| x_ping := fun _ => true;
     x_price := fun _ _ => Ok p;
     x_place := fun lg rq =>
       Ok {| orderId := Z.of_nat (length lg); o_status := "FILLED";
             executedQty := Some Unreadable;
             fills := [(Number (rq_quantity rq), Number p)] |};
     x_query := fun _ _ id => Ok (reply id "NEW" None []);
     x_cancel := fun _ _ id => Ok (reply id "CANCELED" None []);
     x_sleep := fun _ => Ok tt;
     x_print := fun _ _ => Ok tt |}.

(** A grid dictionary as [place_grid_orders] builds it and
    [_place_initial_grid_orders] fills it, with the orders numbered from
    [1]: levels [45000, 47500, 50000, 52500, 55000] around the price
    [50000]. *)
Definition grid_of_five : Grid.info :=
  {| Grid.grid_id := "GRID_BTCUSDT_1700000000"; Grid.symbol := "BTCUSDT";
     Grid.lower_price := B64.of_Z 45000; Grid.upper_price := B64.of_Z 55000;
     Grid.current_price := B64.of_Z 50000;
     Grid.quantity_per_level := B64.lit 1 100;
     Grid.num_levels := 5; Grid.rebalance := true;
     Grid.grid_levels :=
       Grid._calculate_grid_levels (B64.of_Z 45000) (B64.of_Z 55000) 5;
     Grid.start_time := 1700000000;
     Grid.buy_orders :=
       [Grid.placed_child (reply 1 "NEW" None []) (B64.of_Z 45000);
        Grid.placed_child (reply 2 "NEW" None []) (B64.of_Z 47500)];
     Grid.sell_orders :=
       [Grid.placed_child (reply 3 "NEW" None []) (B64.of_Z 52500);
        Grid.placed_child (reply 4 "NEW" None []) (B64.of_Z 55000)];
     Grid.filled_orders := [];
     Grid.total_profit := B64.zero; Grid.status := "ACTIVE" |}.

(** The dictionary that [place_grid_orders] builds, before the initial
    placement, in the scenario of the specification: [BTCUSDT] from 45000 to
    55000 with 11 levels, quantity 0.01, the price at 50000. *)
Definition scenario_grid : Grid.info :=
  {| Grid.grid_id := "GRID_BTCUSDT_1700000000"; Grid.symbol := "BTCUSDT";
     Grid.lower_price := B64.of_Z 45000; Grid.upper_price := B64.of_Z 55000;
     Grid.current_price := B64.of_Z 50000;
     Grid.quantity_per_level := B64.lit 1 100;
     Grid.num_levels := 11; Grid.rebalance := true;
     Grid.grid_levels :=
       Grid._calculate_grid_levels (B64.of_Z 45000) (B64.of_Z 55000) 11;
     Grid.start_time := 1700000000;
     Grid.buy_orders := []; Grid.sell_orders := []; Grid.filled_orders := [];
     Grid.total_profit := B64.zero; Grid.status := "ACTIVE" |}.

(** A manager whose registry has been given the dictionary [gi] by
    assignment, as a test does, with a monitoring thread when [monitored]:
    [place_grid_orders] itself registers nothing. *)
Definition holding (gi : Grid.info) (stop monitored : bool) : Grid.system :=
  {| Grid.mgr :=
       {| Grid.heap := [gi];
          Grid.active_grids := {[ Grid.grid_id gi := 0%nat ]};
          Grid.stop_flags := {[ Grid.grid_id gi := stop ]} |};
     Grid.log := [];
     Grid.threads :=
       if monitored
       then [{| Grid.m_grid_id := Grid.grid_id gi; Grid.m_info := 0;
                Grid.m_running := true |}]
       else [] |}.

(** An exchange that cannot be reached. *)
Definition down : exchange :=
  {| x_ping := fun _ => false;
     x_price := fun _ _ => Raise unreachable;
     x_place := fun _ _ => Raise unreachable;
     x_query := fun _ _ _ => Raise unreachable;
     x_cancel := fun _ _ _ => Raise unreachable;
     x_sleep := fun _ => Ok tt;
     x_print := fun _ _ => Ok tt |}.

End Mock.

(** * Properties *)

(** ** OCO: rollback of the first leg *)

(** C3. In every call of [place_oco_order] in which the take-profit order is
    placed and the placement of the stop-loss order raises [e], the call
    raises [e] itself, whatever the exchange answers to the cancellation, and
    the calls it makes are the connectivity check, the price request, the
    two placements and then one cancellation, of the take-profit order. *)
Theorem oco_rollback_raises_original :
  forall (X : exchange) (symbol side : string) (quantity tp sl : B64.float)
         (stop_limit : option B64.float) (now : Z) (log : list call)
         (o1 : order) (e : exn),
    let symbol' := Str.strip (Str.upper symbol) in
    let side' := Str.strip (Str.upper side) in
    let limit' := default sl stop_limit in
    let opposite := if String.eqb side' "BUY" then "SELL" else "BUY" in
    let rq1 := OCO.tp_request symbol' opposite quantity tp in
    let rq2 := OCO.sl_request symbol' opposite quantity sl limit' in
    let log0 := (log ++ [Ping]) ++ [GetSymbolPrice symbol'] in
    OCO._validate_oco_order symbol' side' quantity tp sl limit' = true ->
    x_ping X log = true ->
    x_place X log0 rq1 = Ok o1 ->
    x_place X (log0 ++ [PlaceOrder rq1]) rq2 = Raise e ->
    let out := OCO.place_oco_order X symbol side quantity tp sl stop_limit now log in
    fst out = Raise e
    /\ snd out = ((log0 ++ [PlaceOrder rq1]) ++ [PlaceOrder rq2])
                   ++ [CancelOrder symbol' (orderId o1)]
    /\ cancels (snd out) = cancels log ++ [(symbol', orderId o1)].
Proof.
  intros X symbol side quantity tp sl stop_limit now log o1 e
         symbol' side' limit' opposite rq1 rq2 log0 Hval Hping H1 H2 out.
  assert (Hout : out = (Raise e,
            ((log0 ++ [PlaceOrder rq1]) ++ [PlaceOrder rq2])
              ++ [CancelOrder symbol' (orderId o1)])).
  { subst out. unfold OCO.place_oco_order. cbn [Logger.log_order_attempt].
    fold symbol' side' limit'. rewrite Hval. cbn [negb].
    unfold Client.test_connectivity. rewrite Hping. cbn [negb].
    unfold Client.get_symbol_price, OCO._place_simulated_oco, Client.place_order.
    fold opposite. fold rq1 rq2. fold log0. rewrite H1, H2.
    unfold OCO.rollback, OCO.append_leg. cbn. reflexivity. }
  rewrite Hout. cbn [fst snd]. repeat split.
  unfold cancels, log0. rewrite !omap_app. cbn. rewrite !app_nil_r. reflexivity.
Qed.

(** The second placement is refused and the exchange cannot be reached for
    the cancellation: the refusal is what the caller gets. *)
Lemma oco_rollback_raises_original_witness :
  let X := Mock.refusing 1 (B64.of_Z 50000) in
  let out :=
    OCO.place_oco_order X "btcusdt" "buy" (B64.lit 1 100) (B64.of_Z 52000)
      (B64.of_Z 48000) None 1700000000 [] in
  x_cancel X (snd out) "BTCUSDT" 2 = Raise Mock.unreachable
  /\ fst out = Raise Mock.refused
  /\ cancels (snd out) = [("BTCUSDT"%string, 2)].
Proof.
  intros X out. split; [vm_compute; reflexivity|].
  pose proof (oco_rollback_raises_original X "btcusdt" "buy" (B64.lit 1 100)
                (B64.of_Z 52000) (B64.of_Z 48000) None 1700000000 []
                (Mock.reply 2 "NEW" (Some (B64.lit 1 100))
                   [(B64.lit 1 100, B64.of_Z 50000)])
                Mock.refused) as H.
  cbv zeta in H.
  destruct H as (Hr & _ & Hc); [vm_compute; reflexivity ..|].
  split; [exact Hr | exact Hc].
Defined.

(** ** Starting a run: rejection comes before registration *)

(** C9. A call of [place_twap_order], on ASCII texts, whose parameters are
    invalid raises [ValueError] and leaves the manager as it was, history
    included; one whose connectivity check fails raises [ConnectionError]
    when the registry, the stop flags, the heap of run dictionaries and the
    threads are what they were before the call, and the check is the only
    request it has sent. A call of [place_grid_orders] fails earlier than
    that, on every input: its first statement raises [TypeError], before
    the validation and the connectivity check, and the manager is left as
    it was, history included. *)
Theorem start_rejected_before_mutation :
  forall X : exchange,
    (forall symbol side total_quantity num_chunks interval_seconds price_limit
            randomize now (s : TWAP.system),
        Str.is_ascii symbol = true -> Str.is_ascii side = true ->
        let out := TWAP.place_twap_order X symbol side total_quantity num_chunks
                     interval_seconds price_limit randomize now s in
        let valid := TWAP._validate_twap_order (Str.strip (Str.upper symbol))
                       (Str.strip (Str.upper side)) total_quantity num_chunks
                       interval_seconds in
        (valid = false ->
         fst out = Raise (ValueError "Invalid TWAP order parameters")
         /\ snd out = s)
        /\ (valid = true -> x_ping X (TWAP.log s) = false ->
            fst out = Raise (ConnectionError "Unable to connect to Binance API")
            /\ TWAP.mgr (snd out) = TWAP.mgr s
            /\ TWAP.threads (snd out) = TWAP.threads s
            /\ TWAP.log (snd out) = TWAP.log s ++ [Ping]
            /\ placed (TWAP.log (snd out)) = placed (TWAP.log s)))
    /\
    (forall symbol lower_price upper_price quantity_per_level num_levels
            rebalance now (s : Grid.system),
        let out := Grid.place_grid_orders X symbol lower_price upper_price
                     quantity_per_level num_levels rebalance now s in
        (exists msg, fst out = Raise (TypeError msg))
        /\ snd out = s).
Proof.
  intros X. split.
  - intros symbol side total_quantity num_chunks interval_seconds price_limit
           randomize now s _ _ out valid.
    subst out. unfold TWAP.place_twap_order. cbn [Logger.log_order_attempt].
    fold valid. unfold Client.test_connectivity.
    split.
    + intros ->. cbn [negb fst snd]. split; reflexivity.
    + intros -> Hping. rewrite Hping. cbn [negb fst snd TWAP.mgr TWAP.threads TWAP.log].
      do 4 (split; [reflexivity|]).
      unfold placed. rewrite omap_app. cbn. apply app_nil_r.
  - intros symbol lower_price upper_price quantity_per_level num_levels
           rebalance now s out.
    subst out. unfold Grid.place_grid_orders. cbn [Logger.log_order_attempt fst snd].
    split; [eexists; reflexivity|reflexivity].
Qed.

(** A TWAP request for a single chunk, a TWAP request while the exchange is
    down, and the grid request of the specification's scenario. *)
Lemma start_rejected_before_mutation_witness :
  let t1 := TWAP.place_twap_order (Mock.filling (B64.of_Z 100)) "BTCUSDT" "BUY"
              (B64.of_Z 1) 1 10 None false 1700000000 TWAP.init in
  let t2 := TWAP.place_twap_order Mock.down "BTCUSDT" "BUY"
              (B64.of_Z 1) 2 10 None false 1700000000 TWAP.init in
  let g := Grid.place_grid_orders (Mock.filling (B64.of_Z 50000)) "BTCUSDT"
             (B64.of_Z 45000) (B64.of_Z 55000) (B64.lit 1 100) 11 true
             1700000000 Grid.init in
  (fst t1 = Raise (ValueError "Invalid TWAP order parameters")
   /\ snd t1 = TWAP.init)
  /\ (fst t2 = Raise (ConnectionError "Unable to connect to Binance API")
      /\ TWAP.mgr (snd t2) = TWAP.mgr TWAP.init
      /\ TWAP.threads (snd t2) = []
      /\ TWAP.log (snd t2) = [Ping])
  /\ ((exists msg, fst g = Raise (TypeError msg)) /\ snd g = Grid.init).
Proof.
  intros t1 t2 g.
  destruct (start_rejected_before_mutation (Mock.filling (B64.of_Z 100)))
    as [HT1 _].
  destruct (start_rejected_before_mutation Mock.down) as [HT2 _].
  destruct (start_rejected_before_mutation (Mock.filling (B64.of_Z 50000)))
    as [_ HG].
  specialize (HT1 "BTCUSDT"%string "BUY"%string (B64.of_Z 1) 1 10 None false
                1700000000 TWAP.init eq_refl eq_refl).
  specialize (HT2 "BTCUSDT"%string "BUY"%string (B64.of_Z 1) 2 10 None false
                1700000000 TWAP.init eq_refl eq_refl).
  specialize (HG "BTCUSDT"%string (B64.of_Z 45000) (B64.of_Z 55000)
                (B64.lit 1 100) 11 true 1700000000 Grid.init).
  cbv zeta in HT1, HT2, HG.
  destruct HT1 as (H1 & _). destruct HT2 as (_ & H2).
  split; [apply H1; vm_compute; reflexivity|].
  split; [|exact HG].
  destruct H2 as (Ha & Hb & Hc & Hd & _);
    [vm_compute; reflexivity | reflexivity |].
  repeat split; assumption.
Defined.

(** ** TWAP: what a pass of the loop and a step of the thread change *)

Section TwapSteps.
Variable X : exchange.

Lemma running_loop (t : TWAP.worker) :
  TWAP.w_running t = true <-> TWAP.w_at t = TWAP.Loop.
Proof. unfold TWAP.w_running. destruct (TWAP.w_at t); split; congruence. Qed.

(** Recording a chunk leaves the status alone, whatever the reply. *)
Lemma record_chunk_status i q o :
  TWAP.status (TWAP.record_chunk i q o) = TWAP.status i.
Proof.
  unfold TWAP.record_chunk. cbv zeta.
  destruct (to_float _); [|reflexivity].
  destruct (fills o); [reflexivity|].
  destruct (TWAP.fills_value _); reflexivity.
Qed.

Lemma loop_pass_status flags id k i lg :
  TWAP.status (TWAP.loop_pass X flags id k i lg).1.1 = TWAP.status i.
Proof.
  unfold TWAP.loop_pass.
  destruct (default false (flags !! id)); [reflexivity|].
  destruct (TWAP._execute_chunk X i (k + 1) (TWAP.planned_quantity i k) lg)
    as [[[o|]|e] lg']; cbn -[TWAP.record_chunk];
    repeat match goal with
           | |- context [if ?b then _ else _] => destruct b
           | |- context [match ?r with Ok _ => _ | Raise _ => _ end] => destruct r
           end; cbn -[TWAP.record_chunk];
    try apply record_chunk_status; reflexivity.
Qed.

Lemma loop_pass_break flags id k i lg :
  flags !! id = Some true ->
  TWAP.loop_pass X flags id k i lg = (i, lg, TWAP.Break).
Proof. intros H. unfold TWAP.loop_pass. rewrite H. reflexivity. Qed.

Lemma loop_pass_not_break flags id k i lg :
  default false (flags !! id) = false ->
  (TWAP.loop_pass X flags id k i lg).2 <> TWAP.Break.
Proof.
  intros H. unfold TWAP.loop_pass. rewrite H.
  destruct (TWAP._execute_chunk X i (k + 1) (TWAP.planned_quantity i k) lg)
    as [[[o|]|e] lg']; cbn -[TWAP.record_chunk];
    repeat match goal with
           | |- context [if ?b then _ else _] => destruct b
           | |- context [match ?r with Ok _ => _ | Raise _ => _ end] => destruct r
           end; cbn -[TWAP.record_chunk]; discriminate.
Qed.

(** A thread that has returned does nothing. *)
Lemma thread_returned now w s t :
  TWAP.threads s !! w = Some t -> TWAP.w_at t = TWAP.Returned ->
  TWAP._execute_twap_step X now w s = s.
Proof.
  intros Ht Hr. unfold TWAP._execute_twap_step. rewrite Ht, Hr.
  destruct (TWAP.heap (TWAP.mgr s) !! TWAP.w_info t); reflexivity.
Qed.

(** What a step of the thread [w] does to the heap and to the threads: it
    rewrites the dictionary of the thread and the thread, nothing else. In
    the loop it keeps the status, or leaves the loop with [COMPLETED], or
    ends in the handler with [FAILED]; after the loop it sends nothing, and
    leaves the dictionary as it is or, when the summary cannot be printed,
    as the handler writes it. *)
Lemma thread_step_shape now w s :
  TWAP._execute_twap_step X now w s = s
  \/ exists t i i' lg t',
      TWAP.threads s !! w = Some t
      /\ TWAP.heap (TWAP.mgr s) !! TWAP.w_info t = Some i
      /\ TWAP._execute_twap_step X now w s
         = TWAP.store s (TWAP.w_info t) i' lg w t'
      /\ TWAP.w_info t' = TWAP.w_info t
      /\ ((TWAP.w_at t = TWAP.Loop
           /\ ((TWAP.w_at t' = TWAP.Loop /\ TWAP.status i' = TWAP.status i)
               \/ (TWAP.w_at t' = TWAP.Summary /\ TWAP.status i' = "COMPLETED")
               \/ (TWAP.w_at t' = TWAP.Returned /\ TWAP.status i' = "FAILED")))
          \/ (TWAP.w_at t = TWAP.Summary /\ TWAP.w_at t' = TWAP.Returned
              /\ lg = TWAP.log s
              /\ (i' = i
                  \/ exists e,
                      TWAP._display_twap_completion X i (TWAP.log s) = Raise e
                      /\ i' = TWAP.failed e i))).
Proof.
  unfold TWAP._execute_twap_step.
  destruct (TWAP.threads s !! w) as [t|] eqn:Ht; [|left; reflexivity].
  destruct (TWAP.heap (TWAP.mgr s) !! TWAP.w_info t) as [i|] eqn:Hi;
    [|left; reflexivity].
  destruct (TWAP.w_at t) eqn:Hat; [| |left; reflexivity].
  - right. exists t, i.
    destruct (TWAP.w_chunk t <? TWAP.w_range t).
    + pose proof (loop_pass_status (TWAP.stop_flags (TWAP.mgr s))
                    (TWAP.w_twap_id t) (TWAP.w_chunk t) i (TWAP.log s)) as Hst.
      destruct (TWAP.loop_pass X _ _ _ i (TWAP.log s)) as [[i' lg] [| |e]];
        cbn in Hst.
      * exists i', lg, (TWAP.next t). do 4 (split; [first [reflexivity|assumption]|]).
        left. split; [exact Hat|]. left. split; [exact Hat|exact Hst].
      * exists (TWAP.completed now i'), lg, (TWAP.leave t).
        do 4 (split; [first [reflexivity|assumption]|]).
        left. split; [exact Hat|]. right. left. split; reflexivity.
      * exists (TWAP.failed e i'), lg, (TWAP.stop t).
        do 4 (split; [first [reflexivity|assumption]|]).
        left. split; [exact Hat|]. right. right. split; reflexivity.
    + exists (TWAP.completed now i), (TWAP.log s), (TWAP.leave t).
      do 4 (split; [first [reflexivity|assumption]|]).
      left. split; [exact Hat|]. right. left. split; reflexivity.
  - right. exists t, i.
    destruct (TWAP._display_twap_completion X i (TWAP.log s)) as [u|e] eqn:Hd.
    + exists i, (TWAP.log s), (TWAP.stop t). do 4 (split; [first [reflexivity|assumption]|]).
      right. split; [exact Hat|]. do 2 (split; [reflexivity|]). left. reflexivity.
    + exists (TWAP.failed e i), (TWAP.log s), (TWAP.stop t).
      do 4 (split; [first [reflexivity|assumption]|]).
      right. split; [exact Hat|]. do 2 (split; [reflexivity|]). right. exists e. split; reflexivity.
Qed.

End TwapSteps.

(** ** TWAP: invariants of the reachable states *)

Section TwapInvariants.
Variable X : exchange.

(** A placement leaves the heap and the threads alone, or it adds an
    [ACTIVE] dictionary, with a thread at the head of its loop or, when the
    start summary cannot be printed, with no thread at all. *)
Lemma place_twap_shape symbol side total_quantity num_chunks interval_seconds
    price_limit randomize now s :
  let out := TWAP.place_twap_order X symbol side total_quantity num_chunks
               interval_seconds price_limit randomize now s in
  (TWAP.heap (TWAP.mgr out.2) = TWAP.heap (TWAP.mgr s)
   /\ TWAP.threads out.2 = TWAP.threads s)
  \/ exists i,
      TWAP.heap (TWAP.mgr out.2) = TWAP.heap (TWAP.mgr s) ++ [i]
      /\ TWAP.status i = "ACTIVE"
      /\ (TWAP.threads out.2 = TWAP.threads s
          \/ exists t,
              TWAP.threads out.2 = TWAP.threads s ++ [t]
              /\ TWAP.w_at t = TWAP.Loop
              /\ TWAP.w_info t = length (TWAP.heap (TWAP.mgr s))).
Proof.
  cbv zeta. unfold TWAP.place_twap_order. cbn [Logger.log_order_attempt].
  destruct (negb (TWAP._validate_twap_order _ _ _ _ _)); [left; split; reflexivity|].
  unfold Client.test_connectivity, Client.get_symbol_price.
  destruct (negb (x_ping X (TWAP.log s))); [left; split; reflexivity|].
  right. destruct (TWAP._display_twap_start X _ _); cbn.
  - eexists. split; [reflexivity|]. split; [reflexivity|].
    right. eexists. repeat split.
  - eexists. split; [reflexivity|]. split; [reflexivity|]. left. reflexivity.
Qed.

Lemma stop_twap_shape id s :
  TWAP.heap (TWAP.mgr (TWAP.stop_twap_order id s).2) = TWAP.heap (TWAP.mgr s)
  /\ TWAP.threads (TWAP.stop_twap_order id s).2 = TWAP.threads s
  /\ TWAP.log (TWAP.stop_twap_order id s).2 = TWAP.log s.
Proof.
  unfold TWAP.stop_twap_order. destruct (bool_decide _); repeat split.
Qed.

Lemma step_consistent now o s :
  TWAP.consistent s -> TWAP.consistent (TWAP.step X now o s).
Proof.
  intros [Hth Hinj]. destruct o as [sy sd tq nc iv pl rz|id|id|w]; cbn [TWAP.step].
  - destruct (place_twap_shape sy sd tq nc iv pl rz now s)
      as [[Hh Ht]|(i & Hh & Hi & [Ht|(t & Ht & Hat & Hl)])];
      unfold TWAP.consistent; rewrite Hh, Ht.
    + split; assumption.
    + split; [|exact Hinj].
      intros w t Hw. destruct (Hth w t Hw) as (i' & Hi' & Hst).
      exists i'. split; [apply lookup_app_l_Some; exact Hi'|exact Hst].
    + assert (Hold : forall w t', TWAP.threads s !! w = Some t' ->
                (TWAP.w_info t' < length (TWAP.heap (TWAP.mgr s)))%nat).
      { intros w t' Hw. destruct (Hth w t' Hw) as (i' & Hi' & _).
        eapply lookup_lt_Some; exact Hi'. }
      assert (Hnew : forall w t', (TWAP.threads s ++ [t]) !! w = Some t' ->
                TWAP.threads s !! w = Some t'
                \/ (w = length (TWAP.threads s) /\ t' = t)).
      { intros w t' Hw. apply lookup_app_Some in Hw as [Hw|[Hge Hw]];
          [left; exact Hw|right].
        apply list_lookup_singleton_Some in Hw as [Hw <-]. split; [lia|reflexivity]. }
      split.
      * intros w t' Hw. destruct (Hnew w t' Hw) as [Hw'|[-> ->]].
        -- destruct (Hth w t' Hw') as (i' & Hi' & Hst).
           exists i'. split; [apply lookup_app_l_Some; exact Hi'|exact Hst].
        -- exists i. rewrite Hl, Hat. split; [|exact Hi].
           rewrite lookup_app_r, Nat.sub_diag by lia. reflexivity.
      * intros w w' t1 t2 H1 H2 Heq.
        destruct (Hnew w t1 H1) as [H1'|[-> ->]];
          destruct (Hnew w' t2 H2) as [H2'|[-> ->]].
        -- exact (Hinj w w' t1 t2 H1' H2' Heq).
        -- specialize (Hold w t1 H1'). lia.
        -- specialize (Hold w' t2 H2'). lia.
        -- reflexivity.
  - destruct (stop_twap_shape id s) as (Hh & Ht & _).
    unfold TWAP.consistent. rewrite Hh, Ht. split; assumption.
  - split; assumption.
  - destruct (thread_step_shape X now w s)
      as [->|(t & i & i' & lg & t' & Ht & Hi & -> & Hinfo & Hcase)];
      [split; assumption|].
    destruct (Hth w t Ht) as (i0 & Hi0 & Hst0).
    assert (i0 = i) as -> by congruence.
    unfold TWAP.consistent, TWAP.store. cbn. split.
    + intros w2 t2 H2. destruct (decide (w2 = w)) as [->|Hne].
      * rewrite list_lookup_insert_eq in H2 by (eapply lookup_lt_Some; eauto).
        injection H2 as <-. exists i'. rewrite Hinfo.
        split; [apply list_lookup_insert_eq; eapply lookup_lt_Some; eauto|].
        destruct Hcase as [(Hat & [[-> Hs]|[[-> Hs]|[-> Hs]]])
                          |(Hat & -> & _ & [->|(e & _ & ->)])];
          rewrite Hat in Hst0;
          [rewrite Hs; exact Hst0 | exact Hs | right; exact Hs
          | left; exact Hst0 | right; reflexivity].
      * rewrite list_lookup_insert_ne in H2 by congruence.
        destruct (Hth w2 t2 H2) as (i2 & Hi2 & Hst2).
        exists i2. split; [|exact Hst2].
        rewrite list_lookup_insert_ne; [exact Hi2|].
        intros Heq. apply Hne. symmetry. exact (Hinj w w2 t t2 Ht H2 Heq).
    + assert (Hlook : forall v tv, <[w := t']> (TWAP.threads s) !! v = Some tv ->
                exists tv0, TWAP.threads s !! v = Some tv0
                  /\ TWAP.w_info tv0 = TWAP.w_info tv).
      { intros v tv Hv. destruct (decide (v = w)) as [->|Hne].
        - rewrite list_lookup_insert_eq in Hv by (eapply lookup_lt_Some; eauto).
          injection Hv as <-. exists t. split; [exact Ht|congruence].
        - rewrite list_lookup_insert_ne in Hv by congruence.
          exists tv. split; [exact Hv|reflexivity]. }
      intros v v' t1 t2 H1 H2 Heq.
      destruct (Hlook v t1 H1) as (u1 & Hu1 & E1).
      destruct (Hlook v' t2 H2) as (u2 & Hu2 & E2).
      apply (Hinj v v' u1 u2 Hu1 Hu2). congruence.
Qed.

Lemma reachable_consistent s : TWAP.reachable X s -> TWAP.consistent s.
Proof.
  induction 1 as [|s now o _ IH].
  - split; [intros w t H; discriminate H|].
    intros w w' t t' H. discriminate H.
  - apply step_consistent, IH.
Qed.

Lemma run_consistent ops s :
  TWAP.consistent s -> TWAP.consistent (TWAP.run X ops s).
Proof.
  revert s. induction ops as [|[now o] ops IH]; intros s Hs; [exact Hs|].
  cbn. apply IH, step_consistent, Hs.
Qed.

Lemma reachable_run ops s :
  TWAP.reachable X s -> TWAP.reachable X (TWAP.run X ops s).
Proof.
  revert s. induction ops as [|[now o] ops IH]; intros s Hs; [exact Hs|].
  cbn. apply IH, TWAP.reachable_step, Hs.
Qed.

(** What one operation does to a dictionary of the heap: nothing, or one of
    the writes of the thread that runs it. The status stays, or goes from
    [ACTIVE] to [COMPLETED] or [FAILED], or from [COMPLETED] to [FAILED]. *)
Lemma step_status now o s l i :
  TWAP.consistent s ->
  TWAP.heap (TWAP.mgr s) !! l = Some i ->
  exists i', TWAP.heap (TWAP.mgr (TWAP.step X now o s)) !! l = Some i'
    /\ (i' = i
        \/ (exists w t, o = TWAP.Thread w /\ TWAP.threads s !! w = Some t
                        /\ TWAP.w_info t = l)
           /\ (TWAP.status i' = TWAP.status i
               \/ (TWAP.status i = "ACTIVE"
                   /\ (TWAP.status i' = "COMPLETED" \/ TWAP.status i' = "FAILED"))
               \/ (TWAP.status i = "COMPLETED" /\ TWAP.status i' = "FAILED"
                   /\ exists e,
                       x_print X (TWAP.log s) "TWAP ORDER COMPLETED" = Raise e))).
Proof.
  intros [Hth Hinj] Hl.
  destruct o as [sy sd tq nc iv pl rz|id|id|w]; cbn [TWAP.step].
  - destruct (place_twap_shape sy sd tq nc iv pl rz now s)
      as [[Hh Ht]|(i0 & Hh & _)]; rewrite Hh.
    + exists i. split; [exact Hl|left; reflexivity].
    + exists i. split; [apply lookup_app_l_Some; exact Hl|left; reflexivity].
  - destruct (stop_twap_shape id s) as (Hh & _). rewrite Hh.
    exists i. split; [exact Hl|left; reflexivity].
  - exists i. split; [exact Hl|left; reflexivity].
  - destruct (thread_step_shape X now w s)
      as [->|(t & i0 & i' & lg & t' & Ht & Hi & -> & Hinfo & Hcase)].
    + exists i. split; [exact Hl|left; reflexivity].
    + destruct (Hth w t Ht) as (i1 & Hi1 & Hst).
      assert (i1 = i0) as -> by congruence.
      unfold TWAP.store. cbn.
      destruct (decide (TWAP.w_info t = l)) as [Heq|Hne].
      * rewrite Heq in *. assert (i0 = i) as -> by congruence.
        exists i'. split; [apply list_lookup_insert_eq; eapply lookup_lt_Some; eauto|].
        right. split; [exists w, t; repeat split; assumption|].
        destruct Hcase as [(Hat & [[_ Hs]|[[_ Hs]|[_ Hs]]])
                          |(Hat & _ & _ & [->|(e & He & ->)])];
          rewrite Hat in Hst.
        -- left. exact Hs.
        -- right. left. split; [exact Hst|left; exact Hs].
        -- right. left. split; [exact Hst|right; exact Hs].
        -- left. reflexivity.
        -- right. right. split; [exact Hst|]. split; [reflexivity|].
           exists e. exact He.
      * exists i. split; [|left; reflexivity].
        rewrite list_lookup_insert_ne by congruence. exact Hl.
Qed.

(** A dictionary that an operation adds to the heap is [ACTIVE]. *)
Lemma step_new_cell now o s l i' :
  TWAP.heap (TWAP.mgr s) !! l = None ->
  TWAP.heap (TWAP.mgr (TWAP.step X now o s)) !! l = Some i' ->
  TWAP.status i' = "ACTIVE".
Proof.
  intros Hnone Hl. destruct o as [sy sd tq nc iv pl rz|id|id|w]; cbn [TWAP.step] in Hl.
  - destruct (place_twap_shape sy sd tq nc iv pl rz now s)
      as [[Hh Ht]|(i0 & Hh & Hi0 & _)]; rewrite Hh in Hl; [congruence|].
    apply lookup_app_Some in Hl as [Hl|[_ Hl]]; [congruence|].
    apply list_lookup_singleton_Some in Hl as [_ <-]. exact Hi0.
  - destruct (stop_twap_shape id s) as (Hh & _). rewrite Hh in Hl. congruence.
  - congruence.
  - destruct (thread_step_shape X now w s)
      as [Heq|(t & i0 & i1 & lg & t' & Ht & Hi & Heq & _)];
      rewrite Heq in Hl; [congruence|].
    unfold TWAP.store in Hl. cbn in Hl. exfalso.
    apply lookup_lt_Some in Hl. rewrite length_insert in Hl.
    apply lookup_ge_None in Hnone. lia.
Qed.

Lemma reachable_statuses s :
  TWAP.reachable X s ->
  forall l i, TWAP.heap (TWAP.mgr s) !! l = Some i ->
    TWAP.status i = "ACTIVE" \/ TWAP.status i = "COMPLETED"
    \/ TWAP.status i = "FAILED".
Proof.
  induction 1 as [|s now o Hreach IH]; intros l i Hl; [discriminate Hl|].
  destruct (TWAP.heap (TWAP.mgr s) !! l) as [i0|] eqn:H0.
  - destruct (step_status now o s l i0 (reachable_consistent s Hreach) H0)
      as (i' & Hi' & Hcase).
    assert (i' = i) as -> by congruence.
    specialize (IH l i0 H0).
    destruct Hcase as [->|[_ [Hs|[[_ [Hs|Hs]]|[_ [Hs _]]]]]]; auto.
    rewrite Hs. exact IH.
  - left. exact (step_new_cell now o s l i H0 Hl).
Qed.

End TwapInvariants.

(** ** TWAP: stopping a run *)

Section TwapAfterLoop.
Variable X : exchange.

(** Once the thread [w] has left its loop, an operation leaves its
    dictionary alone, or it is the thread itself failing to print the
    completion summary, and the handler writing [FAILED] and the error. *)
Lemma after_loop_step now o s w t i :
  TWAP.consistent s ->
  TWAP.threads s !! w = Some t -> TWAP.w_at t <> TWAP.Loop ->
  TWAP.heap (TWAP.mgr s) !! TWAP.w_info t = Some i ->
  let s' := TWAP.step X now o s in
  exists t' i',
    TWAP.threads s' !! w = Some t'
    /\ TWAP.w_info t' = TWAP.w_info t
    /\ TWAP.w_at t' <> TWAP.Loop
    /\ TWAP.heap (TWAP.mgr s') !! TWAP.w_info t = Some i'
    /\ (i' = i
        \/ exists e,
            x_print X (TWAP.log s) "TWAP ORDER COMPLETED" = Raise e
            /\ TWAP.status i = "COMPLETED"
            /\ i' = TWAP.failed e i).
Proof.
  intros [Hth Hinj] Ht Hat Hi. cbv zeta.
  destruct o as [sy sd tq nc iv pl rz|id|id|w2]; cbn [TWAP.step].
  - destruct (place_twap_shape X sy sd tq nc iv pl rz now s)
      as [[Hh Hts]|(i0 & Hh & _ & [Hts|(t0 & Hts & _)])]; rewrite Hh, Hts;
      exists t, i.
    + repeat split; auto.
    + repeat split; auto. apply lookup_app_l_Some. exact Hi.
    + split; [apply lookup_app_l_Some; exact Ht|].
      repeat split; auto. apply lookup_app_l_Some. exact Hi.
  - destruct (stop_twap_shape id s) as (Hh & Hts & _). rewrite Hh, Hts.
    exists t, i. repeat split; auto.
  - exists t, i. repeat split; auto.
  - destruct (thread_step_shape X now w2 s)
      as [->|(t2 & i2 & i' & lg & t' & Ht2 & Hi2 & -> & Hinfo & Hcase)];
      [exists t, i; repeat split; auto|].
    unfold TWAP.store. cbn [TWAP.threads TWAP.mgr TWAP.heap].
    destruct (decide (w2 = w)) as [->|Hne].
    + assert (t2 = t) as -> by congruence.
      assert (i2 = i) as -> by congruence.
      destruct Hcase as [(Hloop & _)|(Hsum & Hret & -> & Hi')]; [contradiction|].
      exists t', i'.
      split; [apply list_lookup_insert_eq; eapply lookup_lt_Some; eauto|].
      split; [exact Hinfo|]. split; [congruence|].
      split; [apply list_lookup_insert_eq; eapply lookup_lt_Some; eauto|].
      destruct Hi' as [->|(e & He & ->)]; [left; reflexivity|].
      right. exists e. split; [exact He|]. split; [|reflexivity].
      destruct (Hth w t Ht) as (i1 & Hi1 & Hst). rewrite Hsum in Hst. congruence.
    + exists t, i.
      rewrite list_lookup_insert_ne by congruence.
      split; [exact Ht|]. split; [reflexivity|]. split; [exact Hat|].
      split; [|left; reflexivity].
      rewrite list_lookup_insert_ne; [exact Hi|].
      intros Heq. apply Hne. exact (Hinj w2 w t2 t Ht2 Ht Heq).
Qed.

Variables (w l : nat) (i : TWAP.info).

(** What is kept of the dictionary [i] of a run that has left its loop. *)
Let kept (i2 : TWAP.info) : Prop :=
  TWAP.orders i2 = TWAP.orders i
  /\ TWAP.executed_chunks i2 = TWAP.executed_chunks i
  /\ TWAP.executed_quantity i2 = TWAP.executed_quantity i
  /\ (TWAP.status i2 = "COMPLETED"
      \/ (TWAP.status i2 = "FAILED"
          /\ exists lg e,
              x_print X lg "TWAP ORDER COMPLETED" = Raise e
              /\ TWAP.error i2 = Some (exn_str e))).

Lemma after_loop_run ops :
  forall s t i2,
    TWAP.consistent s ->
    TWAP.threads s !! w = Some t -> TWAP.w_at t <> TWAP.Loop ->
    TWAP.w_info t = l ->
    TWAP.heap (TWAP.mgr s) !! l = Some i2 -> kept i2 ->
    exists t' i',
      TWAP.threads (TWAP.run X ops s) !! w = Some t'
      /\ TWAP.w_at t' <> TWAP.Loop
      /\ TWAP.w_info t' = l
      /\ TWAP.heap (TWAP.mgr (TWAP.run X ops s)) !! l = Some i'
      /\ kept i'.
Proof.
  induction ops as [|[now o] ops IH]; intros s t i2 Hc Ht Hat Hl Hi Hk.
  - exists t, i2. do 4 (split; [assumption|]). exact Hk.
  - change (TWAP.run X ((now, o) :: ops) s)
      with (TWAP.run X ops (TWAP.step X now o s)).
    rewrite <- Hl in Hi.
    destruct (after_loop_step now o s w t i2 Hc Ht Hat Hi)
      as (t' & i' & Ht' & Hinfo & Hat' & Hi' & Hcase).
    rewrite Hl in Hinfo, Hi'.
    destruct (IH (TWAP.step X now o s) t' i' (step_consistent X now o s Hc)
                Ht' Hat' Hinfo Hi') as (t2 & i3 & H1 & H2 & H3 & H4 & H5).
    + destruct Hcase as [->|(e & He & Hst & ->)]; [exact Hk|].
      destruct Hk as (K1 & K2 & K3 & _). repeat split; try assumption.
      right. split; [reflexivity|]. exists (TWAP.log s), e.
      split; [exact He|reflexivity].
    + exists t2, i3. do 4 (split; [assumption|]). exact H5.
Qed.

End TwapAfterLoop.

(** C1, as the code has it. When the thread of a reachable TWAP run comes to
    the head of its loop with chunks left and finds the stop flag set, it
    leaves the loop without sending anything and writes [COMPLETED]: the
    module has no status of its own for a stopped run. Whatever happens
    afterwards, the thread sends nothing more and the run keeps the orders,
    the executed chunks and the executed quantity it had; its status is
    [COMPLETED], or [FAILED] once the completion summary could not be
    printed, with the error of the print recorded. *)
Theorem twap_stop_observed :
  forall (X : exchange) (s : TWAP.system) (w : nat) (t : TWAP.worker) (now : Z),
    TWAP.reachable X s ->
    TWAP.threads s !! w = Some t ->
    TWAP.w_running t = true ->
    TWAP.w_chunk t < TWAP.w_range t ->
    TWAP.stop_flags (TWAP.mgr s) !! TWAP.w_twap_id t = Some true ->
    let s1 := TWAP._execute_twap_step X now w s in
    exists i,
      TWAP.heap (TWAP.mgr s) !! TWAP.w_info t = Some i
      /\ TWAP.status i = "ACTIVE"
      /\ TWAP.log s1 = TWAP.log s
      /\ TWAP.heap (TWAP.mgr s1) !! TWAP.w_info t = Some (TWAP.completed now i)
      /\ forall ops,
          let s2 := TWAP.run X ops s1 in
          (exists i2,
              TWAP.heap (TWAP.mgr s2) !! TWAP.w_info t = Some i2
              /\ TWAP.orders i2 = TWAP.orders i
              /\ TWAP.executed_chunks i2 = TWAP.executed_chunks i
              /\ TWAP.executed_quantity i2 = TWAP.executed_quantity i
              /\ (TWAP.status i2 = "COMPLETED"
                  \/ (TWAP.status i2 = "FAILED"
                      /\ exists lg e,
                          x_print X lg "TWAP ORDER COMPLETED" = Raise e
                          /\ TWAP.error i2 = Some (exn_str e))))
          /\ forall now',
              TWAP.log (TWAP._execute_twap_step X now' w s2) = TWAP.log s2.
Proof.
  intros X s w t now Hreach Ht Hr Hlt Hflag s1.
  pose proof (reachable_consistent X s Hreach) as Hc.
  destruct (proj1 Hc w t Ht) as (i & Hi & Hst).
  apply running_loop in Hr. rewrite Hr in Hst.
  assert (Hs1 : s1 = TWAP.store s (TWAP.w_info t) (TWAP.completed now i)
                       (TWAP.log s) w (TWAP.leave t)).
  { subst s1. unfold TWAP._execute_twap_step. rewrite Ht, Hi, Hr.
    apply Z.ltb_lt in Hlt. rewrite Hlt.
    rewrite loop_pass_break by exact Hflag. reflexivity. }
  assert (Hh1 : TWAP.heap (TWAP.mgr s1) !! TWAP.w_info t
                = Some (TWAP.completed now i)).
  { rewrite Hs1. cbn. apply list_lookup_insert_eq. eapply lookup_lt_Some; eauto. }
  exists i. split; [exact Hi|]. split; [exact Hst|].
  split; [rewrite Hs1; reflexivity|]. split; [exact Hh1|].
  intros ops s2.
  assert (Hc1 : TWAP.consistent s1).
  { change s1 with (TWAP.step X now (TWAP.Thread w) s).
    apply step_consistent. exact Hc. }
  assert (Ht1 : TWAP.threads s1 !! w = Some (TWAP.leave t)).
  { rewrite Hs1. cbn. apply list_lookup_insert_eq. eapply lookup_lt_Some; eauto. }
  destruct (after_loop_run X w (TWAP.w_info t) i ops s1 (TWAP.leave t)
              (TWAP.completed now i) Hc1 Ht1)
    as (t2 & i2 & Ht2 & Hat2 & Hinfo2 & Hi2 & K1 & K2 & K3 & K4);
    [discriminate | reflexivity | exact Hh1
    | repeat split; left; reflexivity |].
  fold s2 in Ht2, Hi2. split.
  - exists i2. repeat split; assumption.
  - intros now'.
    destruct (thread_step_shape X now' w s2)
      as [->|(t3 & i3 & i' & lg & t' & Ht3 & _ & -> & _ & Hcase)];
      [reflexivity|].
    assert (t3 = t2) as -> by congruence.
    destruct Hcase as [(Hloop & _)|(_ & _ & -> & _)]; [contradiction|].
    reflexivity.
Qed.

(** A run of four chunks stopped after the first one: the thread finds the
    flag at the head of the loop for the second chunk. *)
Lemma twap_stop_observed_witness :
  let X := Mock.filling (B64.of_Z 100) in
  let s :=
    TWAP.run X
      [(1700000000, TWAP.Place "BTCUSDT" "BUY" (B64.of_Z 1) 4 10 None false);
       (1700000001, TWAP.Thread 0%nat);
       (1700000005, TWAP.Stop "TWAP_BTCUSDT_1700000000")] TWAP.init in
  let s1 := TWAP._execute_twap_step X 1700000011 0%nat s in
  let s2 := TWAP._execute_twap_step X 1700000012 0%nat s1 in
  TWAP.log s1 = TWAP.log s
  /\ TWAP.log s2 = TWAP.log s
  /\ exists i2,
      TWAP.heap (TWAP.mgr s2) !! 0%nat = Some i2
      /\ (TWAP.status i2 = "COMPLETED" \/ TWAP.status i2 = "FAILED")
      /\ length (TWAP.orders i2) = 1%nat.
Proof.
  intros X s s1 s2.
  assert (Hreach : TWAP.reachable X s).
  { subst s. cbn [TWAP.run fold_left fst snd]. repeat apply TWAP.reachable_step.
    apply TWAP.reachable_init. }
  destruct (twap_stop_observed X s 0%nat
              {| TWAP.w_twap_id := "TWAP_BTCUSDT_1700000000"; TWAP.w_info := 0;
                 TWAP.w_range := 4; TWAP.w_chunk := 1; TWAP.w_at := TWAP.Loop |}
              1700000011 Hreach)
    as (i & Hi & _ & Hlog & _ & Hafter);
    [vm_compute; reflexivity | reflexivity | reflexivity
    | vm_compute; reflexivity |].
  fold s1 in Hlog, Hafter.
  split; [exact Hlog|].
  destruct (Hafter []) as [_ Hquiet]. cbn [TWAP.run fold_left] in Hquiet.
  split; [unfold s2; rewrite Hquiet; exact Hlog|].
  destruct (Hafter [(1700000012, TWAP.Thread 0%nat)])
    as [(i2 & Hi2 & Hord & _ & _ & Hst) _].
  exists i2. split; [exact Hi2|].
  split; [destruct Hst as [Hst|[Hst _]]; [left|right]; exact Hst|].
  rewrite Hord.
  assert (Hlen : (length <$> (TWAP.orders <$> TWAP.heap (TWAP.mgr s) !! 0%nat))
                 = Some 1%nat) by (vm_compute; reflexivity).
  cbn [TWAP.w_info] in Hi. rewrite Hi in Hlen. cbn in Hlen.
  injection Hlen as Hlen. exact Hlen.
Defined.

(** C1 as stated fails: after the stop flag is observed with three of four
    chunks left, the status of the run is [COMPLETED], and it is still
    [COMPLETED] when the thread has returned. When the completion summary
    cannot be printed, the status ends as [FAILED]. *)
Lemma twap_stop_counterexample :
  let id := "TWAP_BTCUSDT_1700000000"%string in
  let ops :=
    [(1700000000, TWAP.Place "BTCUSDT" "BUY" (B64.of_Z 1) 4 10 None false);
     (1700000001, TWAP.Thread 0%nat);
     (1700000005, TWAP.Stop id)] in
  let seen X s :=
    (fun i => (TWAP.status i, TWAP.executed_chunks i, TWAP.num_chunks i))
      <$> TWAP.read (TWAP.get_twap_status id s) s in
  let X := Mock.filling (B64.of_Z 100) in
  let s := TWAP.run X ops TWAP.init in
  let s1 := TWAP.step X 1700000011 (TWAP.Thread 0%nat) s in
  let s2 := TWAP.step X 1700000012 (TWAP.Thread 0%nat) s1 in
  let Y := Mock.silenced "TWAP ORDER COMPLETED" (B64.of_Z 100) in
  let r := TWAP.run Y ops TWAP.init in
  let r1 := TWAP.step Y 1700000011 (TWAP.Thread 0%nat) r in
  let r2 := TWAP.step Y 1700000012 (TWAP.Thread 0%nat) r1 in
  TWAP.stop_flags (TWAP.mgr s) !! id = Some true
  /\ (TWAP.w_chunk <$> TWAP.threads s !! 0%nat) = Some 1
  /\ seen X s = Some ("ACTIVE"%string, 1, 4)
  /\ seen X s1 = Some ("COMPLETED"%string, 1, 4)
  /\ seen X s2 = Some ("COMPLETED"%string, 1, 4)
  /\ (TWAP.w_at <$> TWAP.threads s2 !! 0%nat) = Some TWAP.Returned
  /\ seen Y r1 = Some ("COMPLETED"%string, 1, 4)
  /\ seen Y r2 = Some ("FAILED"%string, 1, 4)
  /\ length (placed (TWAP.log s2)) = 1%nat
  /\ length (placed (TWAP.log r2)) = 1%nat.
Proof. vm_compute. repeat split. Qed.

(** ** Grid: what the operations do to the status of a run *)

Section GridSteps.
Variable X : exchange.

Lemma place_level_status st level :
  Grid.status (Grid.place_level X st level).1 = Grid.status st.1.
Proof.
  destruct st as [gi lg]. unfold Grid.place_level, Client.place_order.
  destruct (B64.ltb level (Grid.current_price gi)).
  - destruct (x_place X lg _); reflexivity.
  - destruct (B64.gtb level (Grid.current_price gi)); [|reflexivity].
    destruct (x_place X lg _); reflexivity.
Qed.

Lemma place_initial_status gi lg :
  Grid.status (Grid._place_initial_grid_orders X gi lg).1 = Grid.status gi.
Proof.
  unfold Grid._place_initial_grid_orders.
  change (Grid.status gi) with (Grid.status (gi, lg).1).
  generalize (gi, lg). induction (Grid.grid_levels gi) as [|level levels IH];
    intros st; [reflexivity|].
  cbn [fold_left]. rewrite IH. apply place_level_status.
Qed.

Lemma check_filled_status gi lg :
  Grid.status (Grid._check_filled_orders X gi lg).1 = Grid.status gi.
Proof.
  unfold Grid._check_filled_orders.
  destruct (Grid.check_side X "BUY" _ _ _ lg) as [[buys fills] lg1].
  destruct (Grid.check_side X "SELL" _ _ fills lg1) as [[sells fills2] lg2].
  reflexivity.
Qed.

(** [place_grid_orders] raises at its first statement, whatever it is
    given. *)
Lemma place_grid_raises symbol lower_price upper_price quantity_per_level
    num_levels rebalance now s :
  exists msg,
    Grid.place_grid_orders X symbol lower_price upper_price quantity_per_level
      num_levels rebalance now s = (Raise (TypeError msg), s).
Proof. eexists. reflexivity. Qed.

(** What one operation does to the status of a grid dictionary, in any
    state of the manager: nothing, or it writes [CANCELLED] or [STOPPED]. *)
Lemma grid_step_status now o s l i :
  Grid.heap (Grid.mgr s) !! l = Some i ->
  exists i', Grid.heap (Grid.mgr (Grid.step X now o s)) !! l = Some i'
    /\ (Grid.status i' = Grid.status i
        \/ Grid.status i' = "CANCELLED" \/ Grid.status i' = "STOPPED").
Proof.
  intros Hl.
  assert (Hkeep : exists i', Grid.heap (Grid.mgr s) !! l = Some i'
            /\ (Grid.status i' = Grid.status i
                \/ Grid.status i' = "CANCELLED" \/ Grid.status i' = "STOPPED"))
    by (exists i; split; [exact Hl|left; reflexivity]).
  assert (Hstore : forall l0 i0 lg ts,
            (Grid.status i0 = Grid.status i
             \/ Grid.status i0 = "CANCELLED" \/ Grid.status i0 = "STOPPED"
             \/ l0 <> l) ->
            exists i', Grid.heap (Grid.mgr (Grid.store s l0 i0 lg ts)) !! l = Some i'
              /\ (Grid.status i' = Grid.status i
                  \/ Grid.status i' = "CANCELLED" \/ Grid.status i' = "STOPPED")).
  { intros l0 i0 lg ts H0. unfold Grid.store. cbn.
    destruct (decide (l0 = l)) as [->|Hne].
    - exists i0. split; [apply list_lookup_insert_eq; eapply lookup_lt_Some; eauto|].
      destruct H0 as [H0|[H0|[H0|H0]]]; auto. congruence.
    - exists i. split; [|left; reflexivity].
      rewrite list_lookup_insert_ne by congruence. exact Hl. }
  destruct o as [sy lo up q n rb|id|id|id|w]; cbn [Grid.step].
  - destruct (place_grid_raises sy lo up q n rb now s) as [msg ->]. exact Hkeep.
  - unfold Grid.stop_grid. destruct (bool_decide _); exact Hkeep.
  - unfold Grid.cancel_all_grid_orders.
    destruct (Grid.active_grids (Grid.mgr s) !! id) as [l0|]; [|exact Hkeep].
    destruct (Grid.heap (Grid.mgr s) !! l0) as [gi|]; [|exact Hkeep].
    destruct (Grid.cancel_side X _ _ [] _) as [[buys c1] lg1].
    destruct (Grid.cancel_side X _ _ c1 lg1) as [[sells c2] lg2].
    cbn [snd]. apply Hstore. right. left. reflexivity.
  - exact Hkeep.
  - unfold Grid._monitor_grid_step.
    destruct (Grid.threads s !! w) as [t|]; [|exact Hkeep].
    destruct (negb (Grid.m_running t)); [exact Hkeep|].
    destruct (Grid.heap (Grid.mgr s) !! Grid.m_info t) as [gi|] eqn:Hgi;
      [|exact Hkeep].
    destruct (_ && _).
    + pose proof (check_filled_status gi (Grid.log s)) as Hst.
      destruct (Grid._check_filled_orders X gi (Grid.log s)) as [gi' lg].
      cbn in Hst. apply Hstore.
      destruct (decide (Grid.m_info t = l)) as [Heq|Hne]; [|auto].
      left. rewrite Heq in Hgi.
      assert (gi = i) as -> by congruence.
      destruct (Grid.rebalance gi'); exact Hst.
    + apply Hstore. right. right. left. reflexivity.
Qed.

(** No operation on a manager without runs gives it one: the only
    statement that registers a run is in [place_grid_orders], after the
    statement that raises. *)
Lemma grid_step_init now o : Grid.step X now o Grid.init = Grid.init.
Proof.
  destruct o as [sy lo up q n rb|id|id|id|w]; cbn [Grid.step].
  - destruct (place_grid_raises sy lo up q n rb now Grid.init) as [msg ->].
    reflexivity.
  - reflexivity.
  - reflexivity.
  - reflexivity.
  - reflexivity.
Qed.

Lemma grid_reachable_init s : Grid.reachable X s -> s = Grid.init.
Proof.
  induction 1 as [|s now o _ IH]; [reflexivity|].
  rewrite IH. apply grid_step_init.
Qed.

End GridSteps.

(** ** The status of a run *)

(** C2, as the code has it. In every reachable state the status of a TWAP
    run is [ACTIVE], [COMPLETED] or [FAILED]. An operation leaves it as it
    is, or takes it from [ACTIVE] to [COMPLETED] or [FAILED], or from
    [COMPLETED] to [FAILED]: this last change is made by the thread of the
    run when the completion summary cannot be printed. No operation of a
    grid manager registers a run, [place_grid_orders] raising on every
    input, so its reachable states are the initial one. On a grid
    dictionary, in whatever state of the manager, an operation that changes
    the status writes [CANCELLED] or [STOPPED], whatever the status was. *)
Theorem run_status_transitions :
  forall X : exchange,
    (forall s : TWAP.system,
        TWAP.reachable X s ->
        forall (l : nat) (i : TWAP.info),
          TWAP.heap (TWAP.mgr s) !! l = Some i ->
          (TWAP.status i = "ACTIVE" \/ TWAP.status i = "COMPLETED"
           \/ TWAP.status i = "FAILED")
          /\ forall now o,
              exists i',
                TWAP.heap (TWAP.mgr (TWAP.step X now o s)) !! l = Some i'
                /\ (TWAP.status i' = TWAP.status i
                    \/ (TWAP.status i = "ACTIVE"
                        /\ (TWAP.status i' = "COMPLETED"
                            \/ TWAP.status i' = "FAILED"))
                    \/ (TWAP.status i = "COMPLETED"
                        /\ TWAP.status i' = "FAILED"
                        /\ exists e,
                            x_print X (TWAP.log s) "TWAP ORDER COMPLETED"
                            = Raise e)))
    /\ (forall s : Grid.system, Grid.reachable X s -> s = Grid.init)
    /\ (forall (s : Grid.system) (l : nat) (i : Grid.info),
          Grid.heap (Grid.mgr s) !! l = Some i ->
          forall now o,
            exists i',
              Grid.heap (Grid.mgr (Grid.step X now o s)) !! l = Some i'
              /\ (Grid.status i' = Grid.status i
                  \/ Grid.status i' = "CANCELLED"
                  \/ Grid.status i' = "STOPPED")).
Proof.
  intros X. split; [|split].
  - intros s Hreach l i Hl.
    pose proof (reachable_consistent X s Hreach) as Hc. split.
    + exact (reachable_statuses X s Hreach l i Hl).
    + intros now o.
      destruct (step_status X now o s l i Hc Hl) as (i' & Hi' & [->|[_ Hst]]).
      * exists i. split; [exact Hi'|left; reflexivity].
      * exists i'. split; [exact Hi'|exact Hst].
  - intros s Hreach. exact (grid_reachable_init X s Hreach).
  - intros s l i Hl now o. exact (grid_step_status X now o s l i Hl).
Qed.

(** A TWAP run of two chunks whose thread leaves the loop; and a grid
    dictionary, put into the registry by hand, whose monitoring thread finds
    the stop flag set. *)
Lemma run_status_transitions_witness :
  let X := Mock.filling (B64.of_Z 50000) in
  let t :=
    TWAP.run X
      [(1700000000, TWAP.Place "BTCUSDT" "BUY" (B64.of_Z 1) 2 10 None false);
       (1700000001, TWAP.Thread 0%nat); (1700000011, TWAP.Thread 0%nat)]
      TWAP.init in
  let gi := Mock.grid_of_five in
  let g := Mock.holding gi true true in
  (exists i i',
      TWAP.heap (TWAP.mgr t) !! 0%nat = Some i
      /\ TWAP.heap (TWAP.mgr (TWAP.step X 1700000012 (TWAP.Thread 0%nat) t))
           !! 0%nat = Some i'
      /\ TWAP.status i = "ACTIVE" /\ TWAP.status i' = "COMPLETED")
  /\ (exists i',
         Grid.heap (Grid.mgr (Grid.step X 1700000002 (Grid.Thread 0%nat) g))
           !! 0%nat = Some i'
         /\ Grid.status i' = "STOPPED").
Proof.
  intros X t gi g.
  destruct (run_status_transitions X) as (HT & _ & HG).
  assert (Ht : TWAP.reachable X t).
  { subst t. cbn [TWAP.run fold_left fst snd]. repeat apply TWAP.reachable_step.
    apply TWAP.reachable_init. }
  split.
  - destruct (TWAP.heap (TWAP.mgr t) !! 0%nat) as [i|] eqn:Hi;
      [|vm_compute in Hi; discriminate Hi].
    destruct (HT t Ht 0%nat i Hi) as [_ Hstep].
    destruct (Hstep 1700000012 (TWAP.Thread 0%nat)) as (i' & Hi' & _).
    exists i, i'. split; [reflexivity|]. split; [exact Hi'|].
    split.
    + assert (H : TWAP.status <$> TWAP.heap (TWAP.mgr t) !! 0%nat = Some "ACTIVE"%string)
        by (vm_compute; reflexivity).
      rewrite Hi in H. injection H as H. exact H.
    + assert (H : TWAP.status <$>
                    TWAP.heap (TWAP.mgr (TWAP.step X 1700000012 (TWAP.Thread 0%nat) t))
                      !! 0%nat = Some "COMPLETED"%string)
        by (vm_compute; reflexivity).
      rewrite Hi' in H. injection H as H. exact H.
  - destruct (HG g 0%nat gi eq_refl 1700000002 (Grid.Thread 0%nat))
      as (i' & Hi' & _).
    exists i'. split; [exact Hi'|].
    assert (H : Grid.status <$>
                  Grid.heap (Grid.mgr (Grid.step X 1700000002 (Grid.Thread 0%nat) g))
                    !! 0%nat = Some "STOPPED"%string)
      by (vm_compute; reflexivity).
    rewrite Hi' in H. injection H as H. exact H.
Defined.

(** C2 as stated fails on a TWAP run. The run of two chunks below has
    executed both and its status is [COMPLETED]; the completion summary
    cannot be printed, and the next step of the thread, which is the handler
    of [_execute_twap], changes the status to [FAILED]. *)
Lemma run_status_counterexample :
  let X := Mock.silenced "TWAP ORDER COMPLETED" (B64.of_Z 50000) in
  let id := "TWAP_BTCUSDT_1700000000"%string in
  let s :=
    TWAP.run X
      [(1700000000, TWAP.Place "BTCUSDT" "BUY" (B64.of_Z 1) 2 10 None false);
       (1700000001, TWAP.Thread 0%nat); (1700000011, TWAP.Thread 0%nat);
       (1700000012, TWAP.Thread 0%nat)]
      TWAP.init in
  let s' := TWAP.step X 1700000013 (TWAP.Thread 0%nat) s in
  let seen s :=
    (fun i => (TWAP.status i, TWAP.executed_chunks i, TWAP.error i))
      <$> TWAP.read (TWAP.get_twap_status id s) s in
  TWAP.reachable X s
  /\ TWAP.reachable X s'
  /\ seen s = Some ("COMPLETED"%string, 2, None)
  /\ seen s' = Some ("FAILED"%string, 2, Some (exn_str Mock.closed)).
Proof.
  intros X id s s' seen.
  split; [|split].
  - subst s. cbn [TWAP.run fold_left fst snd].
    repeat apply TWAP.reachable_step. apply TWAP.reachable_init.
  - subst s' s. cbn [TWAP.run fold_left fst snd].
    repeat apply TWAP.reachable_step. apply TWAP.reachable_init.
  - vm_compute. split; reflexivity.
Qed.

(** ** TWAP: a chunk whose submission fails *)

(** C5, as the code has it. When the execution of a chunk of a reachable
    TWAP run raises (the order request, the price request before it, or the
    message printed after it), the error is written to the log only: the
    dictionary of the run is left exactly as it was, so no record is
    appended to [orders] and the status stays [ACTIVE]; the run is not
    aborted, and the thread goes on to the next value of [chunk_num]. *)
Theorem twap_chunk_failure_logged_only :
  forall (X : exchange) (s : TWAP.system) (w : nat) (t : TWAP.worker)
         (i : TWAP.info) (now : Z) (e : exn) (lg : list call),
    TWAP.reachable X s ->
    TWAP.threads s !! w = Some t ->
    TWAP.w_running t = true ->
    TWAP.heap (TWAP.mgr s) !! TWAP.w_info t = Some i ->
    TWAP.w_chunk t < TWAP.w_range t ->
    default false (TWAP.stop_flags (TWAP.mgr s) !! TWAP.w_twap_id t) = false ->
    TWAP._execute_chunk X i (TWAP.w_chunk t + 1)
      (TWAP.planned_quantity i (TWAP.w_chunk t)) (TWAP.log s) = (Raise e, lg) ->
    (TWAP.w_chunk t < TWAP.num_chunks i - 1 -> x_sleep X lg = Ok tt) ->
    let s1 := TWAP._execute_twap_step X now w s in
    TWAP.heap (TWAP.mgr s1) !! TWAP.w_info t = Some i
    /\ TWAP.threads s1 !! w = Some (TWAP.next t)
    /\ TWAP.w_running (TWAP.next t) = true
    /\ TWAP.w_chunk (TWAP.next t) = TWAP.w_chunk t + 1
    /\ TWAP.log s1 = lg.
Proof.
  intros X s w t i now e lg Hreach Ht Hr Hi Hlt Hflag Hchunk Hsleep s1.
  assert (Hat : TWAP.w_at t = TWAP.Loop) by (apply running_loop; exact Hr).
  assert (Hs1 : s1 = TWAP.store s (TWAP.w_info t) i lg w (TWAP.next t)).
  { subst s1. unfold TWAP._execute_twap_step. rewrite Ht, Hi, Hat.
    apply Z.ltb_lt in Hlt. rewrite Hlt.
    unfold TWAP.loop_pass. rewrite Hflag, Hchunk.
    destruct (TWAP.w_chunk t <? TWAP.num_chunks i - 1) eqn:Hlast.
    - apply Z.ltb_lt in Hlast. rewrite (Hsleep Hlast). reflexivity.
    - reflexivity. }
  rewrite Hs1. cbn [TWAP.store TWAP.heap TWAP.mgr TWAP.threads TWAP.log].
  rewrite !list_lookup_insert_eq by (eapply lookup_lt_Some; eauto).
  repeat split. unfold TWAP.w_running, TWAP.next. cbn. rewrite Hat. reflexivity.
Qed.

(** The exchange refuses the first chunk of a run of two. *)
Lemma twap_chunk_failure_logged_only_witness :
  let X := Mock.refusing 0 (B64.of_Z 100) in
  let s :=
    TWAP.run X
      [(1700000000, TWAP.Place "BTCUSDT" "BUY" (B64.of_Z 1) 2 10 None false)]
      TWAP.init in
  let s1 := TWAP._execute_twap_step X 1700000001 0%nat s in
  x_place X (TWAP.log s)
    (TWAP.market_request "BTCUSDT" "BUY" (B64.lit 1 2)) = Raise Mock.refused
  /\ TWAP.heap (TWAP.mgr s1) !! 0%nat = TWAP.heap (TWAP.mgr s) !! 0%nat
  /\ (TWAP.w_chunk <$> TWAP.threads s1 !! 0%nat) = Some 1
  /\ placed (TWAP.log s1)
     = [TWAP.market_request "BTCUSDT" "BUY" (B64.lit 1 2)].
Proof.
  intros X s s1. split; [vm_compute; reflexivity|].
  assert (Hreach : TWAP.reachable X s).
  { subst s. cbn [TWAP.run fold_left fst snd]. repeat apply TWAP.reachable_step.
    apply TWAP.reachable_init. }
  destruct (TWAP.heap (TWAP.mgr s) !! 0%nat) as [i|] eqn:Hi;
    [|vm_compute in Hi; discriminate Hi].
  destruct (twap_chunk_failure_logged_only X s 0%nat
              {| TWAP.w_twap_id := "TWAP_BTCUSDT_1700000000"; TWAP.w_info := 0;
                 TWAP.w_range := 2; TWAP.w_chunk := 0; TWAP.w_at := TWAP.Loop |}
              i 1700000001 Mock.refused
              (TWAP.log s ++
                 [PlaceOrder (TWAP.market_request "BTCUSDT" "BUY" (B64.lit 1 2))])
              Hreach)
    as (Hh & Hth & _ & _ & Hlog).
  - vm_compute; reflexivity.
  - reflexivity.
  - exact Hi.
  - reflexivity.
  - vm_compute; reflexivity.
  - vm_compute in Hi. injection Hi as <-. vm_compute. reflexivity.
  - intros _. reflexivity.
  - fold s1 in Hh, Hth, Hlog. split; [exact Hh|]. split.
    + rewrite Hth. reflexivity.
    + rewrite Hlog. vm_compute. reflexivity.
Defined.

(** C5 as stated fails: on an exchange that refuses every order request, a
    run of two chunks sends both requests and ends [COMPLETED] with no entry
    in [orders] and no [error]; nothing in the dictionary tells of the two
    failures. *)
Lemma twap_chunk_failure_counterexample :
  let X := Mock.rejecting (B64.of_Z 100) in
  let id := "TWAP_BTCUSDT_1700000000"%string in
  let s :=
    TWAP.run X
      [(1700000000, TWAP.Place "BTCUSDT" "BUY" (B64.of_Z 1) 2 10 None false)]
      TWAP.init in
  let s1 := TWAP._execute_twap X 1700000020 0%nat s in
  let seen := TWAP.read (TWAP.get_twap_status id s1) s1 in
  length (placed (TWAP.log s1)) = 2%nat
  /\ (forall lg rq, x_place X lg rq = Raise Mock.refused)
  /\ (TWAP.orders <$> seen) = Some []
  /\ (TWAP.status <$> seen) = Some "COMPLETED"%string
  /\ (TWAP.error <$> seen) = Some None
  /\ (TWAP.executed_chunks <$> seen) = Some 0.
Proof. vm_compute. repeat split. Qed.

(** ** The status queries *)

Section Registry.
Variable X : exchange.

Lemma twap_step_heap_length now o s :
  (length (TWAP.heap (TWAP.mgr s))
   <= length (TWAP.heap (TWAP.mgr (TWAP.step X now o s))))%nat.
Proof.
  destruct o as [sy sd tq nc iv pl rz|id|id|w]; cbn [TWAP.step].
  - destruct (place_twap_shape X sy sd tq nc iv pl rz now s)
      as [[-> _]|(i & -> & _)]; [lia|rewrite length_app; lia].
  - destruct (stop_twap_shape id s) as (-> & _). lia.
  - lia.
  - destruct (thread_step_shape X now w s)
      as [->|(t & i & i' & lg & t' & _ & _ & -> & _)]; [lia|].
    cbn. rewrite length_insert. lia.
Qed.

(** A registered identifier refers to a dictionary of the heap. *)
Lemma twap_registry_bound s :
  TWAP.reachable X s ->
  forall id l, TWAP.active_twap_orders (TWAP.mgr s) !! id = Some l ->
    (l < length (TWAP.heap (TWAP.mgr s)))%nat.
Proof.
  induction 1 as [|s now o _ IH]; intros id l Hl; [discriminate Hl|].
  pose proof (twap_step_heap_length now o s) as Hlen.
  destruct o as [sy sd tq nc iv pl rz|id0|id0|w]; cbn [TWAP.step] in *.
  - revert Hl Hlen. unfold TWAP.place_twap_order. cbn [Logger.log_order_attempt].
    destruct (negb (TWAP._validate_twap_order _ _ _ _ _));
      [intros Hl _; eauto|].
    unfold Client.test_connectivity, Client.get_symbol_price.
    destruct (negb (x_ping X (TWAP.log s))); [intros Hl _; eauto|].
    destruct (TWAP._display_twap_start X _ _); cbn; rewrite length_app; cbn;
      intros Hl _;
      (apply lookup_insert_Some in Hl as [[_ <-]|[_ Hl]]; [lia|]);
      specialize (IH _ _ Hl); lia.
  - revert Hl Hlen. unfold TWAP.stop_twap_order.
    destruct (bool_decide _); cbn; intros Hl _; eauto.
  - eauto.
  - assert (Hreg : TWAP.active_twap_orders
                     (TWAP.mgr (TWAP._execute_twap_step X now w s))
                   = TWAP.active_twap_orders (TWAP.mgr s)).
    { destruct (thread_step_shape X now w s)
        as [->|(t & i & i' & lg & t' & _ & _ & -> & _)]; reflexivity. }
    rewrite Hreg in Hl. specialize (IH _ _ Hl). lia.
Qed.

(** The operations keep the dictionaries of the heap where they are. *)
Lemma twap_run_cell ops :
  forall s l i,
    TWAP.consistent s -> TWAP.heap (TWAP.mgr s) !! l = Some i ->
    exists i', TWAP.heap (TWAP.mgr (TWAP.run X ops s)) !! l = Some i'.
Proof.
  induction ops as [|[now o] ops IH]; intros s l i Hc Hl; [exists i; exact Hl|].
  change (TWAP.run X ((now, o) :: ops) s)
    with (TWAP.run X ops (TWAP.step X now o s)).
  destruct (step_status X now o s l i Hc Hl) as (i' & Hi' & _).
  exact (IH _ l i' (step_consistent X now o s Hc) Hi').
Qed.

(** The statements after the loop of [_execute_twap]. *)
Lemma thread_leaves_loop now w s t i :
  TWAP.threads s !! w = Some t -> TWAP.w_running t = true ->
  TWAP.heap (TWAP.mgr s) !! TWAP.w_info t = Some i ->
  TWAP.w_range t <= TWAP.w_chunk t ->
  TWAP._execute_twap_step X now w s
  = TWAP.store s (TWAP.w_info t) (TWAP.completed now i) (TWAP.log s) w
      (TWAP.leave t).
Proof.
  intros Ht Hr Hi Hge. apply running_loop in Hr.
  unfold TWAP._execute_twap_step. rewrite Ht, Hi, Hr.
  assert (Hlt : (TWAP.w_chunk t <? TWAP.w_range t) = false)
    by (apply Z.ltb_ge; exact Hge).
  rewrite Hlt. reflexivity.
Qed.

End Registry.

(** C10, as the code has it. The value a status query returns for a
    registered run is the reference held by the registry, that is the
    dictionary of the run itself and no copy: what a caller reads through it
    at any later time is the dictionary as the operations made since have
    left it. For a TWAP run, a value obtained while the run was [ACTIVE]
    shows [COMPLETED] once the thread of the run has left its loop. A grid
    manager has no registered run in any state it can reach; on a grid
    dictionary put into the registry, the value obtained before
    [cancel_all_grid_orders] shows [CANCELLED] after it, and [STOPPED] after
    the monitoring thread has found the stop flag set. *)
Theorem status_query_returns_live_run :
  forall X : exchange,
    (forall (s : TWAP.system) (id : string) (l : nat),
        TWAP.reachable X s ->
        TWAP.get_twap_status id s = Some l ->
        let r := TWAP.get_twap_status id s in
        (exists i, TWAP.heap (TWAP.mgr s) !! l = Some i
                   /\ TWAP.read r s = Some i)
        /\ (forall ops,
              let s' := TWAP.run X ops s in
              exists i', TWAP.heap (TWAP.mgr s') !! l = Some i'
                         /\ TWAP.read r s' = Some i')
        /\ (forall w t now,
              TWAP.threads s !! w = Some t -> TWAP.w_info t = l ->
              TWAP.w_running t = true -> TWAP.w_range t <= TWAP.w_chunk t ->
              TWAP.status <$> TWAP.read r s = Some "ACTIVE"%string
              /\ TWAP.status <$> TWAP.read r (TWAP.step X now (TWAP.Thread w) s)
                 = Some "COMPLETED"%string))
    /\ (forall (s : Grid.system) (id : string),
          Grid.reachable X s -> Grid.get_grid_status id s = None)
    /\ (forall (s : Grid.system) (id : string) (l : nat) (gi : Grid.info),
          Grid.active_grids (Grid.mgr s) !! id = Some l ->
          Grid.heap (Grid.mgr s) !! l = Some gi ->
          let r := Grid.get_grid_status id s in
          Grid.read r s = Some gi
          /\ Grid.status <$> Grid.read r (Grid.cancel_all_grid_orders X id s).2
             = Some "CANCELLED"%string
          /\ forall w t,
              Grid.threads s !! w = Some t -> Grid.m_info t = l ->
              Grid.m_running t = true ->
              Grid.stop_flags (Grid.mgr s) !! Grid.m_grid_id t = Some true ->
              Grid.status <$> Grid.read r (Grid._monitor_grid_step X w s)
              = Some "STOPPED"%string).
Proof.
  intros X. split; [|split].
  - intros s id l Hreach Hget r.
    pose proof (reachable_consistent X s Hreach) as Hc.
    pose proof (twap_registry_bound X s Hreach id l Hget) as Hlt.
    apply lookup_lt_is_Some in Hlt as [i Hi].
    assert (Hr : forall s', TWAP.read r s' = TWAP.heap (TWAP.mgr s') !! l).
    { intros s'. unfold r. rewrite Hget. reflexivity. }
    split; [exists i; split; [exact Hi|rewrite Hr; exact Hi]|].
    split.
    + intros ops s'. destruct (twap_run_cell X ops s l i Hc Hi) as [i' Hi'].
      exists i'. split; [exact Hi'|]. rewrite Hr. exact Hi'.
    + intros w t now Ht Hinfo Hrun Hge. rewrite !Hr. subst l.
      destruct (proj1 Hc w t Ht) as (i0 & Hi0 & Hst).
      assert (i0 = i) as -> by congruence.
      pose proof (proj1 (running_loop t) Hrun) as Hat. rewrite Hat in Hst.
      split; [rewrite Hi; cbn; rewrite Hst; reflexivity|].
      cbn [TWAP.step]. rewrite (thread_leaves_loop X now w s t i Ht Hrun Hi Hge).
      unfold TWAP.store. cbn [TWAP.mgr TWAP.heap].
      rewrite list_lookup_insert_eq by (eapply lookup_lt_Some; eauto).
      reflexivity.
  - intros s id Hreach. rewrite (grid_reachable_init X s Hreach). reflexivity.
  - intros s id l gi Hid Hl r.
    assert (Hr : forall s', Grid.read r s' = Grid.heap (Grid.mgr s') !! l).
    { intros s'. unfold r, Grid.get_grid_status. rewrite Hid. reflexivity. }
    split; [rewrite Hr; exact Hl|]. split.
    + rewrite Hr. unfold Grid.cancel_all_grid_orders. rewrite Hid, Hl.
      destruct (Grid.cancel_side X _ _ [] _) as [[buys c1] lg1].
      destruct (Grid.cancel_side X _ _ c1 lg1) as [[sells c2] lg2].
      cbn [snd Grid.store Grid.mgr Grid.heap].
      rewrite list_lookup_insert_eq by (eapply lookup_lt_Some; eauto).
      reflexivity.
    + intros w t Ht Hinfo Hrun Hflag. rewrite Hr.
      unfold Grid._monitor_grid_step. rewrite Ht, Hrun, Hinfo, Hl, Hflag.
      cbn [negb from_option Datatypes.id andb Grid.store Grid.mgr Grid.heap].
      rewrite list_lookup_insert_eq by (eapply lookup_lt_Some; eauto).
      reflexivity.
Qed.

(** A status is queried, then the thread executes the first chunk. *)
Lemma status_query_returns_live_run_witness :
  let X := Mock.filling (B64.of_Z 100) in
  let id := "TWAP_BTCUSDT_1700000000"%string in
  let s :=
    TWAP.run X
      [(1700000000, TWAP.Place "BTCUSDT" "BUY" (B64.of_Z 1) 2 10 None false)]
      TWAP.init in
  let s1 := TWAP.run X [(1700000001, TWAP.Thread 0%nat)] s in
  TWAP.get_twap_status id s = Some 0%nat
  /\ exists i', TWAP.heap (TWAP.mgr s1) !! 0%nat = Some i'
                /\ TWAP.read (TWAP.get_twap_status id s) s1 = Some i'.
Proof.
  intros X id s s1.
  assert (Hget : TWAP.get_twap_status id s = Some 0%nat)
    by (vm_compute; reflexivity).
  split; [exact Hget|].
  assert (Hreach : TWAP.reachable X s).
  { subst s. cbn [TWAP.run fold_left fst snd]. repeat apply TWAP.reachable_step.
    apply TWAP.reachable_init. }
  destruct (status_query_returns_live_run X) as [HT _].
  destruct (HT s id 0%nat Hreach Hget) as (_ & Hread & _).
  exact (Hread [(1700000001, TWAP.Thread 0%nat)]).
Defined.

(** C10 as stated fails: the value returned by a status query while the run
    was [ACTIVE] with nothing executed shows, after the thread has run, one
    executed chunk and then the status [COMPLETED] with two. *)
Lemma status_query_counterexample :
  let X := Mock.filling (B64.of_Z 50000) in
  let s :=
    TWAP.run X
      [(1700000000, TWAP.Place "BTCUSDT" "BUY" (B64.of_Z 1) 2 10 None false)]
      TWAP.init in
  let snapshot := TWAP.get_twap_status "TWAP_BTCUSDT_1700000000" s in
  let s1 := TWAP.step X 1700000001 (TWAP.Thread 0%nat) s in
  let s2 := TWAP._execute_twap X 1700000020 0%nat s1 in
  ((fun i => (TWAP.status i, TWAP.executed_chunks i)) <$> TWAP.read snapshot s)
  = Some ("ACTIVE"%string, 0)
  /\ ((fun i => (TWAP.status i, TWAP.executed_chunks i)) <$> TWAP.read snapshot s1)
     = Some ("ACTIVE"%string, 1)
  /\ ((fun i => (TWAP.status i, TWAP.executed_chunks i)) <$> TWAP.read snapshot s2)
     = Some ("COMPLETED"%string, 2).
Proof. vm_compute. repeat split. Qed.

(** ** Grid: cancelling all the orders of a run *)

Section GridCancel.
Variable X : exchange.

Lemma is_placed_cancelled c :
  Grid.is_placed (Grid.with_child_status c "CANCELLED") = false.
Proof. reflexivity. Qed.

Lemma cancel_side_spec symbol cs :
  forall acc lg,
  exists cs' rs,
    Grid.cancel_side X symbol cs acc lg
    = (cs', acc ++ rs,
       lg ++ (Grid.cancel_call symbol <$> List.filter Grid.is_placed cs))
    /\ Grid.cancelled_side X symbol lg cs cs' rs.
Proof.
  induction cs as [|c rest IH]; intros acc lg.
  - exists [], []. split; [cbn; rewrite !app_nil_r; reflexivity|].
    split; [reflexivity|]. split; [reflexivity|].
    intros k c Hk. discriminate Hk.
  - cbn [Grid.cancel_side List.filter].
    change (String.eqb (Grid.c_status c) "PLACED") with (Grid.is_placed c).
    destruct (Grid.is_placed c) eqn:Hp.
    + unfold Client.cancel_order.
      destruct (x_cancel X lg symbol (orderId (Grid.c_order c))) as [r|e] eqn:Hx.
      * destruct (IH (acc ++ [r])
                    (lg ++ [CancelOrder symbol (orderId (Grid.c_order c))]))
          as (cs' & rs & Heq & Hlen & Hcnt & Hidx).
        rewrite Heq.
        exists (Grid.with_child_status c "CANCELLED" :: cs'), (r :: rs).
        split.
        { cbn [fmap list_fmap]. rewrite <- !app_assoc. reflexivity. }
        split; [cbn; rewrite Hlen; reflexivity|].
        split.
        { cbn [List.filter]. rewrite Hp, is_placed_cancelled.
          cbn [length]. lia. }
        intros [|k] c' Hk.
        -- cbn in Hk. injection Hk as <-. rewrite Hp.
           cbn [take List.filter fmap list_fmap]. rewrite app_nil_r, Hx.
           split; [reflexivity|]. apply elem_of_cons. left; reflexivity.
        -- cbn in Hk. specialize (Hidx k c' Hk).
           cbn [take List.filter]. rewrite Hp. cbn [fmap list_fmap].
           change (Grid.cancel_call symbol c)
             with (CancelOrder symbol (orderId (Grid.c_order c))).
           rewrite <- app_assoc in Hidx. cbn [app] in Hidx.
           destruct (Grid.is_placed c'); [|exact Hidx].
           destruct (x_cancel X _ symbol (orderId (Grid.c_order c'))) as [r'|e'];
             [|exact Hidx].
           destruct Hidx as [H1 H2]. split; [exact H1|].
           apply elem_of_cons. right; exact H2.
      * destruct (IH acc
                    (lg ++ [CancelOrder symbol (orderId (Grid.c_order c))]))
          as (cs' & rs & Heq & Hlen & Hcnt & Hidx).
        rewrite Heq. exists (c :: cs'), rs.
        split.
        { cbn [fmap list_fmap]. rewrite <- !app_assoc. reflexivity. }
        split; [cbn; rewrite Hlen; reflexivity|].
        split.
        { cbn [List.filter]. rewrite Hp. cbn [length]. lia. }
        intros [|k] c' Hk.
        -- cbn in Hk. injection Hk as <-. rewrite Hp.
           cbn [take List.filter fmap list_fmap]. rewrite app_nil_r, Hx.
           reflexivity.
        -- cbn in Hk. specialize (Hidx k c' Hk).
           cbn [take List.filter]. rewrite Hp. cbn [fmap list_fmap].
           change (Grid.cancel_call symbol c)
             with (CancelOrder symbol (orderId (Grid.c_order c))).
           rewrite <- app_assoc in Hidx. cbn [app] in Hidx. exact Hidx.
    + destruct (IH acc lg) as (cs' & rs & Heq & Hlen & Hcnt & Hidx).
      rewrite Heq. exists (c :: cs'), rs.
      split; [reflexivity|].
      split; [cbn; rewrite Hlen; reflexivity|].
      split.
      { cbn [List.filter]. rewrite Hp. exact Hcnt. }
      intros [|k] c' Hk.
      * cbn in Hk. injection Hk as <-. rewrite Hp. reflexivity.
      * cbn in Hk. specialize (Hidx k c' Hk).
        cbn [take List.filter]. rewrite Hp. exact Hidx.
Qed.

End GridCancel.

(** C4, as the code has it. [cancel_all_grid_orders] on a registered
    dictionary sends one cancellation for every [PLACED] entry, the buy side
    first and then the sell side, whatever the answers to the earlier ones;
    an entry whose cancellation is answered is marked [CANCELLED] and the
    answer is collected, an entry whose cancellation raises stays [PLACED]
    and leaves nothing in what is collected; the status of the run becomes
    [CANCELLED] whatever it was; the call returns the answers collected,
    that is the successful cancellations only. In the states a manager can
    reach no run is registered, [place_grid_orders] raising on every input:
    there the call raises [ValueError] and sends nothing. *)
Theorem grid_cancel_all_best_effort :
  forall X : exchange,
    (forall (s : Grid.system) (id : string) (l : nat) (gi : Grid.info),
        Grid.active_grids (Grid.mgr s) !! id = Some l ->
        Grid.heap (Grid.mgr s) !! l = Some gi ->
        let out := Grid.cancel_all_grid_orders X id s in
        let asked_buys :=
          Grid.cancel_call (Grid.symbol gi)
            <$> List.filter Grid.is_placed (Grid.buy_orders gi) in
        let asked_sells :=
          Grid.cancel_call (Grid.symbol gi)
            <$> List.filter Grid.is_placed (Grid.sell_orders gi) in
        exists (gi' : Grid.info) (from_buys from_sells : list order),
          out.1 = Ok (from_buys ++ from_sells)
          /\ Grid.heap (Grid.mgr out.2) !! l = Some gi'
          /\ Grid.log out.2 = (Grid.log s ++ asked_buys) ++ asked_sells
          /\ Grid.status gi' = "CANCELLED"
          /\ Grid.cancelled_side X (Grid.symbol gi) (Grid.log s)
               (Grid.buy_orders gi) (Grid.buy_orders gi') from_buys
          /\ Grid.cancelled_side X (Grid.symbol gi) (Grid.log s ++ asked_buys)
               (Grid.sell_orders gi) (Grid.sell_orders gi') from_sells)
    /\ (forall (s : Grid.system) (id : string),
          Grid.reachable X s ->
          Grid.cancel_all_grid_orders X id s
          = (Raise (ValueError ("Grid " +:+ id +:+ " not found")), s)).
Proof.
  intros X. split.
  - intros s id l gi Hid Hl out asked_buys asked_sells.
    subst out. unfold Grid.cancel_all_grid_orders. rewrite Hid, Hl.
    destruct (cancel_side_spec X (Grid.symbol gi) (Grid.buy_orders gi) []
                (Grid.log s)) as (buys & rb & Hb & Hsb).
    rewrite Hb.
    destruct (cancel_side_spec X (Grid.symbol gi) (Grid.sell_orders gi) ([] ++ rb)
                (Grid.log s ++ asked_buys)) as (sells & rs & Hs & Hss).
    fold asked_buys. rewrite Hs. cbn [fst snd app].
    eexists _, rb, rs. split; [reflexivity|].
    split; [cbn; apply list_lookup_insert_eq; eapply lookup_lt_Some; eauto|].
    split; [reflexivity|]. split; [reflexivity|].
    split; [exact Hsb|exact Hss].
  - intros s id Hreach. rewrite (grid_reachable_init X s Hreach). reflexivity.
Qed.

(** A dictionary of four orders, put into the registry by assignment, on an
    exchange that refuses the cancellation of the second one. *)
Lemma grid_cancel_all_best_effort_witness :
  let X := Mock.stubborn 2 (B64.of_Z 50000) in
  let id := "GRID_BTCUSDT_1700000000"%string in
  let g := Mock.holding Mock.grid_of_five false false in
  let out := Grid.cancel_all_grid_orders X id g in
  cancels (Grid.log out.2)
  = [("BTCUSDT"%string, 1); ("BTCUSDT"%string, 2); ("BTCUSDT"%string, 3);
     ("BTCUSDT"%string, 4)]
  /\ exists gi', Grid.heap (Grid.mgr out.2) !! 0%nat = Some gi'
       /\ Grid.status gi' = "CANCELLED".
Proof.
  intros X id g out.
  destruct (grid_cancel_all_best_effort X) as [H _].
  destruct (H g id 0%nat Mock.grid_of_five)
    as (gi' & rb & rs & _ & Hh & Hlog & Hst & _).
  - vm_compute; reflexivity.
  - reflexivity.
  - fold out in Hh, Hlog. split.
    + rewrite Hlog. vm_compute. reflexivity.
    + exists gi'. split; [exact Hh|exact Hst].
Defined.

(** C4 as stated fails in its last part. The dictionary holds four [PLACED]
    orders and the exchange refuses the cancellation of the second: the four
    cancellations are sent, and the call returns the three answers it got;
    the failure is not in what the caller gets. The second entry stays
    [PLACED] under the run status [CANCELLED]. *)
Lemma grid_cancel_all_counterexample :
  let X := Mock.stubborn 2 (B64.of_Z 50000) in
  let id := "GRID_BTCUSDT_1700000000"%string in
  let g := Mock.holding Mock.grid_of_five false false in
  let out := Grid.cancel_all_grid_orders X id g in
  let seen := Grid.read (Grid.get_grid_status id out.2) out.2 in
  x_cancel X (Grid.log g ++ [CancelOrder "BTCUSDT" 1]) "BTCUSDT" 2
  = Raise Mock.refused
  /\ cancels (Grid.log out.2)
     = [("BTCUSDT"%string, 1); ("BTCUSDT"%string, 2); ("BTCUSDT"%string, 3);
        ("BTCUSDT"%string, 4)]
  /\ out.1 = Ok [Mock.reply 1 "CANCELED" None []; Mock.reply 3 "CANCELED" None [];
                 Mock.reply 4 "CANCELED" None []]
  /\ ((fun i => Grid.c_status <$> Grid.buy_orders i ++ Grid.sell_orders i) <$> seen)
     = Some ["CANCELLED"; "PLACED"; "CANCELLED"; "CANCELLED"]%string
  /\ (Grid.status <$> seen) = Some "CANCELLED"%string.
Proof. vm_compute. repeat split. Qed.

(** ** Grid: the initial placement *)

(** The two comparisons of a level with the current price exclude each
    other. *)
Lemma SFcompare_antisym x y :
  SFcompare y x = option_map CompOpp (SFcompare x y).
Proof.
  destruct x as [sx|sx| |sx mx ex], y as [sy|sy| |sy my ey]; cbn;
    try reflexivity; try (destruct sx; reflexivity);
    try (destruct sy; reflexivity);
    try (destruct sx, sy; reflexivity).
  assert (Hm : Pos.compare_cont Eq my mx = CompOpp (Pos.compare_cont Eq mx my))
    by (rewrite (Pos.compare_cont_antisym mx my Eq); reflexivity).
  destruct sx, sy; cbn; try reflexivity;
    rewrite (Z.compare_antisym ex ey), Hm;
    destruct (ex ?= ey); cbn; try reflexivity;
    destruct (Pos.compare_cont Eq mx my); reflexivity.
Qed.

Lemma ltb_not_gtb x y : B64.ltb x y = true -> B64.gtb x y = false.
Proof.
  unfold B64.ltb, B64.gtb, SFltb. rewrite (SFcompare_antisym x y).
  destruct (SFcompare x y) as [[]|]; cbn; congruence.
Qed.

Lemma eqb_neither x y :
  B64.eqb x y = true -> B64.ltb x y = false /\ B64.gtb x y = false.
Proof.
  unfold B64.eqb, B64.ltb, B64.gtb, SFeqb, SFltb.
  rewrite (SFcompare_antisym x y).
  destruct (SFcompare x y) as [[]|]; cbn; split; congruence.
Qed.

Section GridPlacement.
Variable X : exchange.

Lemma place_level_spec gi lg level :
  let st := Grid.place_level X (gi, lg) level in
  Grid.symbol st.1 = Grid.symbol gi
  /\ Grid.current_price st.1 = Grid.current_price gi
  /\ Grid.quantity_per_level st.1 = Grid.quantity_per_level gi
  /\ placed st.2
     = placed lg
       ++ option_list (Grid.expected_request (Grid.symbol gi)
                         (Grid.quantity_per_level gi) (Grid.current_price gi)
                         level)
  /\ ((forall lg rq, is_ok (x_place X lg rq) = true) ->
      (Grid.c_level_price <$> Grid.buy_orders st.1
       = (Grid.c_level_price <$> Grid.buy_orders gi)
         ++ List.filter (fun lv => B64.ltb lv (Grid.current_price gi)) [level])
      /\ (Grid.c_level_price <$> Grid.sell_orders st.1
          = (Grid.c_level_price <$> Grid.sell_orders gi)
            ++ List.filter (fun lv => B64.gtb lv (Grid.current_price gi)) [level])
      /\ (Forall (fun c => Grid.c_status c = "PLACED")
            (Grid.buy_orders gi ++ Grid.sell_orders gi) ->
          Forall (fun c => Grid.c_status c = "PLACED")
            (Grid.buy_orders st.1 ++ Grid.sell_orders st.1))).
Proof.
  cbv zeta. unfold Grid.place_level, Grid.expected_request, Client.place_order.
  cbn [List.filter].
  destruct (B64.ltb level (Grid.current_price gi)) eqn:Hlt.
  - rewrite (ltb_not_gtb _ _ Hlt).
    destruct (x_place X lg _) as [o|e] eqn:Hx; cbn [fst snd].
    + do 3 (split; [reflexivity|]).
      split; [unfold placed; rewrite omap_app; reflexivity|].
      intros _. cbn. rewrite fmap_app, !app_nil_r.
      split; [reflexivity|]. split; [reflexivity|].
      intros HF. rewrite <- app_assoc.
      apply Forall_app in HF as [HF1 HF2].
      apply Forall_app. split; [exact HF1|].
      apply Forall_cons. split; [reflexivity|exact HF2].
    + do 3 (split; [reflexivity|]).
      split; [unfold placed; rewrite omap_app; reflexivity|].
      intros Hacc.
      specialize (Hacc lg (Grid.limit_request (Grid.symbol gi) "BUY"
                             (Grid.quantity_per_level gi) level)).
      rewrite Hx in Hacc. discriminate Hacc.
  - destruct (B64.gtb level (Grid.current_price gi)) eqn:Hgt.
    + destruct (x_place X lg _) as [o|e] eqn:Hx; cbn [fst snd].
      * do 3 (split; [reflexivity|]).
        split; [unfold placed; rewrite omap_app; reflexivity|].
        intros _. cbn. rewrite fmap_app, !app_nil_r.
        split; [reflexivity|]. split; [reflexivity|].
        intros HF. rewrite app_assoc. apply Forall_app. split; [exact HF|].
        apply Forall_cons. split; [reflexivity|apply Forall_nil; exact I].
      * do 3 (split; [reflexivity|]).
        split; [unfold placed; rewrite omap_app; reflexivity|].
        intros Hacc.
        specialize (Hacc lg (Grid.limit_request (Grid.symbol gi) "SELL"
                               (Grid.quantity_per_level gi) level)).
        rewrite Hx in Hacc. discriminate Hacc.
    + cbn [fst snd option_list]. rewrite !app_nil_r.
      do 4 (split; [reflexivity|]). intros _.
      split; [reflexivity|]. split; [reflexivity|]. auto.
Qed.

Lemma place_initial_spec levels :
  forall gi lg,
  let st := fold_left (Grid.place_level X) levels (gi, lg) in
  Grid.symbol st.1 = Grid.symbol gi
  /\ Grid.current_price st.1 = Grid.current_price gi
  /\ Grid.quantity_per_level st.1 = Grid.quantity_per_level gi
  /\ placed st.2
     = placed lg
       ++ omap (Grid.expected_request (Grid.symbol gi)
                  (Grid.quantity_per_level gi) (Grid.current_price gi)) levels
  /\ ((forall lg rq, is_ok (x_place X lg rq) = true) ->
      (Grid.c_level_price <$> Grid.buy_orders st.1
       = (Grid.c_level_price <$> Grid.buy_orders gi)
         ++ List.filter (fun lv => B64.ltb lv (Grid.current_price gi)) levels)
      /\ (Grid.c_level_price <$> Grid.sell_orders st.1
          = (Grid.c_level_price <$> Grid.sell_orders gi)
            ++ List.filter (fun lv => B64.gtb lv (Grid.current_price gi)) levels)
      /\ (Forall (fun c => Grid.c_status c = "PLACED")
            (Grid.buy_orders gi ++ Grid.sell_orders gi) ->
          Forall (fun c => Grid.c_status c = "PLACED")
            (Grid.buy_orders st.1 ++ Grid.sell_orders st.1))).
Proof.
  induction levels as [|level levels IH]; intros gi lg; cbv zeta.
  - cbn. rewrite !app_nil_r. repeat split. auto.
  - cbn [fold_left].
    pose proof (place_level_spec gi lg level) as H1. cbv zeta in H1.
    destruct (Grid.place_level X (gi, lg) level) as [gi1 lg1].
    cbn [fst snd] in H1. destruct H1 as (Hs & Hc & Hq & Hp & Hacc1).
    specialize (IH gi1 lg1). cbv zeta in IH.
    destruct IH as (Hs' & Hc' & Hq' & Hp' & Hacc').
    rewrite Hs, Hc, Hq in *.
    split; [exact Hs'|]. split; [exact Hc'|]. split; [exact Hq'|].
    split.
    + rewrite Hp', Hp. rewrite <- app_assoc. f_equal. cbn [omap list_omap].
      destruct (Grid.expected_request _ _ _ level); reflexivity.
    + intros Hacc. destruct (Hacc1 Hacc) as (Hb1 & Hs1 & HF1).
      destruct (Hacc' Hacc) as (Hb2 & Hs2 & HF2).
      rewrite Hb2, Hb1, Hs2, Hs1. rewrite <- !app_assoc.
      change (level :: levels) with ([level] ++ levels).
      rewrite !List.filter_app.
      split; [reflexivity|]. split; [reflexivity|].
      intros HF. exact (HF2 (HF1 HF)).
Qed.

End GridPlacement.

(** C8. The initial placement, [_place_initial_grid_orders], sends level
    after level a buy limit order at the price of each level below the
    current price and a sell limit order at the price of each level above
    it, and nothing for a level equal to the current price; when the
    exchange accepts the orders these are the entries recorded, all
    [PLACED]. On the dictionary of the scenario ([BTCUSDT] from 45000 to
    55000 with 11 levels, quantity 0.01, the price at 50000) this is five
    buy orders from 45000 to 49000, five sell orders from 51000 to 55000 and
    none at the sixth level, 50000. But [place_grid_orders] does not get
    there: called with the parameters of the scenario it raises [TypeError]
    at its first statement, sends no order and registers no run. *)
Theorem grid_initial_placement :
  (forall (X : exchange) (gi : Grid.info) (lg : list call),
      let out := Grid._place_initial_grid_orders X gi lg in
      let symbol := Grid.symbol gi in
      let quantity := Grid.quantity_per_level gi in
      let current_price := Grid.current_price gi in
      let request := Grid.expected_request symbol quantity current_price in
      placed out.2 = placed lg ++ omap request (Grid.grid_levels gi)
      /\ (forall level, B64.ltb level current_price = true ->
          request level = Some (Grid.limit_request symbol "BUY" quantity level))
      /\ (forall level, B64.gtb level current_price = true ->
          request level = Some (Grid.limit_request symbol "SELL" quantity level))
      /\ (forall level, B64.eqb level current_price = true ->
          request level = None)
      /\ ((forall lg rq, is_ok (x_place X lg rq) = true) ->
          (Grid.c_level_price <$> Grid.buy_orders out.1
           = (Grid.c_level_price <$> Grid.buy_orders gi)
             ++ List.filter (fun lv => B64.ltb lv current_price)
                  (Grid.grid_levels gi))
          /\ (Grid.c_level_price <$> Grid.sell_orders out.1
              = (Grid.c_level_price <$> Grid.sell_orders gi)
                ++ List.filter (fun lv => B64.gtb lv current_price)
                     (Grid.grid_levels gi))
          /\ (Forall (fun c => Grid.c_status c = "PLACED")
                (Grid.buy_orders gi ++ Grid.sell_orders gi) ->
              Forall (fun c => Grid.c_status c = "PLACED")
                (Grid.buy_orders out.1 ++ Grid.sell_orders out.1))))
  /\
  (let X := Mock.filling (B64.of_Z 50000) in
   let gi := Mock.scenario_grid in
   let out := Grid._place_initial_grid_orders X gi [] in
   Grid.grid_levels gi
   = B64.of_Z <$> [45000; 46000; 47000; 48000; 49000; 50000;
                   51000; 52000; 53000; 54000; 55000]
   /\ ((fun rq => (rq_symbol rq, rq_side rq, rq_type rq, rq_quantity rq, rq_price rq))
         <$> placed out.2)
      = ((fun p => ("BTCUSDT"%string, "BUY"%string, "LIMIT"%string, B64.lit 1 100,
                    Some (B64.of_Z p)))
           <$> [45000; 46000; 47000; 48000; 49000])
        ++ ((fun p => ("BTCUSDT"%string, "SELL"%string, "LIMIT"%string,
                       B64.lit 1 100, Some (B64.of_Z p)))
              <$> [51000; 52000; 53000; 54000; 55000])
   /\ Grid.c_level_price <$> Grid.buy_orders out.1
      = B64.of_Z <$> [45000; 46000; 47000; 48000; 49000]
   /\ Grid.c_level_price <$> Grid.sell_orders out.1
      = B64.of_Z <$> [51000; 52000; 53000; 54000; 55000])
  /\
  (forall (X : exchange) (rebalance : bool) (now : Z) (s : Grid.system),
      let out := Grid.place_grid_orders X "BTCUSDT" (B64.of_Z 45000)
                   (B64.of_Z 55000) (B64.lit 1 100) 11 rebalance now s in
      (exists msg, out.1 = Raise (TypeError msg))
      /\ out.2 = s
      /\ placed (Grid.log out.2) = placed (Grid.log s)
      /\ Grid.get_grid_status ("GRID_BTCUSDT_" +:+ pretty now) out.2
         = Grid.get_grid_status ("GRID_BTCUSDT_" +:+ pretty now) s).
Proof.
  split; [|split].
  - intros X gi lg out symbol quantity current_price request.
    pose proof (place_initial_spec X (Grid.grid_levels gi) gi lg) as H.
    cbv zeta in H. destruct H as (_ & _ & _ & Hp & Hacc).
    split; [exact Hp|].
    split.
    { intros level Hlt. unfold request, Grid.expected_request.
      rewrite Hlt. reflexivity. }
    split.
    { intros level Hgt. unfold request, Grid.expected_request. rewrite Hgt.
      destruct (B64.ltb level current_price) eqn:Hlt; [|reflexivity].
      apply ltb_not_gtb in Hlt. congruence. }
    split.
    { intros level Heq. unfold request, Grid.expected_request.
      destruct (eqb_neither _ _ Heq) as [-> ->]. reflexivity. }
    exact Hacc.
  - vm_compute. repeat split.
  - intros X rebalance now s out.
    destruct (place_grid_raises X "BTCUSDT" (B64.of_Z 45000) (B64.of_Z 55000)
                (B64.lit 1 100) 11 rebalance now s) as [msg Hout].
    subst out. rewrite Hout. cbn [fst snd].
    split; [exists msg; reflexivity|]. repeat split.
Qed.

(** The general part at the dictionary of the scenario. *)
Lemma grid_initial_placement_witness :
  let X := Mock.filling (B64.of_Z 50000) in
  let out := Grid._place_initial_grid_orders X Mock.scenario_grid [] in
  length (Grid.buy_orders out.1) = 5%nat
  /\ length (Grid.sell_orders out.1) = 5%nat
  /\ Forall (fun c => Grid.c_status c = "PLACED")
       (Grid.buy_orders out.1 ++ Grid.sell_orders out.1).
Proof.
  intros X out.
  destruct grid_initial_placement as [H _].
  specialize (H X Mock.scenario_grid []). cbv zeta in H.
  destruct H as (_ & _ & _ & _ & Hacc).
  destruct Hacc as (Hb & Hs & HF); [intros lg rq; reflexivity|].
  fold out in Hb, Hs, HF.
  split; [|split].
  - rewrite <- (length_fmap Grid.c_level_price), Hb. vm_compute. reflexivity.
  - rewrite <- (length_fmap Grid.c_level_price), Hs. vm_compute. reflexivity.
  - apply HF. cbn. apply Forall_nil. exact I.
Defined.

(** ** Grid: the levels *)








(** ** Binary64: how the operations round *)

Section Scaling.

Lemma scale_bounds (a p b E : Z) :
  0 < E -> a <= p < b -> a * E <= p * E < b * E.
Proof.
  intros HE [Hlo Hhi]. split.
  - apply Z.mul_le_mono_nonneg_r; lia.
  - apply Z.mul_lt_mono_pos_r; lia.
Qed.

Lemma scale_lt (a b c d : Z) :
  0 < c -> a < b -> c <= d -> 0 < b -> a * c < b * d.
Proof.
  intros Hc Hab Hcd Hb.
  apply Z.lt_le_trans with (b * c).
  - apply Z.mul_lt_mono_pos_r; lia.
  - apply Z.mul_le_mono_nonneg_l; lia.
Qed.

Lemma scale_le (a b c d : Z) :
  0 <= a -> 0 <= c -> a <= b -> c <= d -> a * c <= b * d.
Proof. intros. apply Z.mul_le_mono_nonneg; lia. Qed.

Lemma multiple_close (j j' U : Z) :
  0 < U -> Z.abs (j * U - j' * U) < U -> j = j'.
Proof.
  intros HU H. rewrite <- Z.mul_sub_distr_r, Z.abs_mul, (Z.abs_eq U) in H by lia.
  assert (Z.abs (j - j') < 1); [|lia].
  apply (Z.mul_lt_mono_pos_r U); lia.
Qed.

Lemma pow2_lt_exp (a b : Z) : 0 <= b -> 2 ^ a < 2 ^ b -> a < b.
Proof.
  intros Hb H. destruct (Z.lt_ge_cases a b) as [|Hge]; [assumption|exfalso].
  assert (2 ^ b <= 2 ^ a) by (apply Z.pow_le_mono_r; lia). lia.
Qed.

End Scaling.


Section Rounding.

Lemma digits2_size (p : positive) : digits2_pos p = Pos.size p.
Proof. induction p as [p IH|p IH|]; cbn; rewrite ?IH; reflexivity. Qed.

Lemma digits_bounds (p : positive) :
  2 ^ (Z.pos (digits2_pos p) - 1) <= Z.pos p < 2 ^ Z.pos (digits2_pos p).
Proof.
  rewrite digits2_size. split.
  - pose proof (Pos.size_le p) as H.
    assert (H2 : 2 ^ Z.pos (Pos.size p) <= 2 * Z.pos p).
    { change 2 with (Z.pos 2) at 1. rewrite <- Pos2Z.inj_pow.
      change (2 * Z.pos p) with (Z.pos p~0). apply Pos2Z.pos_le_pos. exact H. }
    replace (Z.pos (Pos.size p)) with (Z.succ (Z.pos (Pos.size p) - 1)) in H2 by lia.
    rewrite Z.pow_succ_r in H2 by lia. lia.
  - pose proof (Pos.size_gt p) as H.
    change 2 with (Z.pos 2). rewrite <- Pos2Z.inj_pow.
    apply Pos2Z.pos_lt_pos. exact H.
Qed.

Lemma digits_unique (p : positive) (d : Z) :
  2 ^ (d - 1) <= Z.pos p < 2 ^ d -> Z.pos (digits2_pos p) = d.
Proof.
  intros H. pose proof (digits_bounds p) as Hp.
  assert (Hd : 0 < d).
  { destruct (Z.le_gt_cases d 0) as [Hle|]; [|assumption].
    exfalso. destruct H as [_ H].
    assert (2 ^ d <= 2 ^ 0) by (apply Z.pow_le_mono_r; lia).
    cbn in H0. lia. }
  assert (Z.log2 (Z.pos p) = d - 1).
  { apply Z.log2_unique; [lia|]. replace (Z.succ (d - 1)) with d by lia. exact H. }
  assert (Z.log2 (Z.pos p) = Z.pos (digits2_pos p) - 1).
  { apply Z.log2_unique; [lia|].
    replace (Z.succ (Z.pos (digits2_pos p) - 1)) with (Z.pos (digits2_pos p))
      by lia.
    exact Hp. }
  lia.
Qed.

Lemma iter_pos_nat {A} (f : A -> A) (p : positive) (x : A) :
  SpecFloat.iter_pos f p x = Nat.iter (Pos.to_nat p) f x.
Proof.
  revert x. induction p as [p IH|p IH|]; intros x; cbn [SpecFloat.iter_pos].
  - rewrite !IH, Pos2Nat.inj_xI.
    replace (S (2 * Pos.to_nat p)) with (Pos.to_nat p + (Pos.to_nat p + 1))%nat
      by lia.
    rewrite !Nat.iter_add. reflexivity.
  - rewrite !IH, Pos2Nat.inj_xO.
    replace (2 * Pos.to_nat p)%nat with (Pos.to_nat p + Pos.to_nat p)%nat by lia.
    rewrite Nat.iter_add. reflexivity.
  - reflexivity.
Qed.

(** Shifting a mantissa to the right. *)
Lemma shr_1_m (r : shr_record) :
  0 <= shr_m r -> shr_m (shr_1 r) = shr_m r / 2 /\ 0 <= shr_m (shr_1 r).
Proof.
  destruct r as [m b1 b2]. cbn [shr_m]. intros Hm.
  destruct m as [|p|p]; [cbn; split; [reflexivity|lia]| |lia].
  destruct p as [p|p|]; cbn [shr_1 shr_m].
  - rewrite Pos2Z.inj_xI. split; [|lia].
    apply (Z.div_unique _ 2 _ 1); lia.
  - rewrite Pos2Z.inj_xO. split; [|lia].
    apply (Z.div_unique _ 2 _ 0); lia.
  - split; [reflexivity|lia].
Qed.

Lemma shr_iter_m (n : nat) (r : shr_record) :
  0 <= shr_m r ->
  shr_m (Nat.iter n shr_1 r) = shr_m r / 2 ^ Z.of_nat n
  /\ 0 <= shr_m (Nat.iter n shr_1 r).
Proof.
  intros Hm. induction n as [|n [IH1 IH2]].
  - cbn. rewrite Z.div_1_r. split; [reflexivity|exact Hm].
  - rewrite Nat.iter_succ. destruct (shr_1_m _ IH2) as [H1 H2].
    split; [|exact H2]. rewrite H1, IH1.
    rewrite Nat2Z.inj_succ, Z.pow_succ_r by lia.
    rewrite Z.div_div by lia. rewrite (Z.mul_comm 2). reflexivity.
Qed.

Lemma shr_1_exact (m : Z) :
  0 <= m -> m mod 2 = 0 ->
  shr_1 (Build_shr_record m false false) = Build_shr_record (m / 2) false false.
Proof.
  intros Hm Heven. destruct m as [|p|p]; [reflexivity| |lia].
  destruct p as [p|p|]; cbn [shr_1 orb].
  - exfalso. rewrite Pos2Z.inj_xI in Heven.
    rewrite Z.add_comm, Z.mul_comm, Z.mod_add in Heven by lia. discriminate.
  - f_equal. rewrite Pos2Z.inj_xO.
    apply (Z.div_unique _ 2 _ 0); lia.
  - discriminate Heven.
Qed.

Lemma shr_iter_exact (n : nat) (m : Z) :
  0 <= m -> m mod 2 ^ Z.of_nat n = 0 ->
  Nat.iter n shr_1 (Build_shr_record m false false)
  = Build_shr_record (m / 2 ^ Z.of_nat n) false false.
Proof.
  revert m. induction n as [|n IH]; intros m Hm Hdiv.
  - cbn. rewrite Z.div_1_r. reflexivity.
  - rewrite Nat.iter_succ_r.
    rewrite Nat2Z.inj_succ, Z.pow_succ_r in * by lia.
    assert (Hpos : 0 < 2 ^ Z.of_nat n) by (apply Z.pow_pos_nonneg; lia).
    assert (H2 : m mod 2 = 0).
    { apply Z.mod_divide in Hdiv; [|lia]. apply Z.mod_divide; [lia|].
      destruct Hdiv as [c Hc]. exists (c * 2 ^ Z.of_nat n). lia. }
    rewrite shr_1_exact by assumption.
    rewrite IH.
    + rewrite Z.div_div by lia. reflexivity.
    + apply Z.div_pos; lia.
    + apply Z.mod_divide in Hdiv; [|lia]. apply Z.mod_divide; [lia|].
      destruct Hdiv as [c Hc]. exists c.
      rewrite Hc. replace (c * (2 * 2 ^ Z.of_nat n)) with (c * 2 ^ Z.of_nat n * 2)
        by lia.
      rewrite Z.div_mul by lia. reflexivity.
Qed.

Lemma loc_of_record_of_loc (m : Z) (l : location) :
  loc_of_shr_record (shr_record_of_loc m l) = l.
Proof. destruct l as [|[]]; reflexivity. Qed.

Lemma round_nearest_even_cases (m : Z) (l : location) :
  round_nearest_even m l = m
  \/ (round_nearest_even m l = m + 1 /\ l <> loc_Exact).
Proof.
  destruct l as [|[]]; cbn.
  - left; reflexivity.
  - destruct (Z.even m);
      [left; reflexivity|right; split; [reflexivity|discriminate]].
  - left; reflexivity.
  - right. split; [reflexivity|discriminate].
Qed.

End Rounding.

Section RoundAux.

Lemma fexp_normal (e : Z) : -1021 <= e -> fexp 53 1024 e = e - 53.
Proof. intros H. unfold fexp, emin. lia. Qed.

Lemma shr_record_of_loc_m (m : Z) (l : location) :
  shr_m (shr_record_of_loc m l) = m.
Proof. destruct l as [|[]]; reflexivity. Qed.

Lemma shr_nat (r : shr_record) (e k : Z) :
  0 <= k -> shr r e k = (Nat.iter (Z.to_nat k) shr_1 r, e + k).
Proof.
  intros Hk. destruct k as [|p|p]; [cbn; rewrite Z.add_0_r; reflexivity| |lia].
  cbn [shr]. rewrite iter_pos_nat. reflexivity.
Qed.

Lemma pow2_53 : 2 ^ 53 = 9007199254740992.
Proof. reflexivity. Qed.

Lemma pow2_52 : 2 ^ 52 = 4503599627370496.
Proof. reflexivity. Qed.

(** A mantissa of at least 53 digits is cut to 53 digits and rounded; the
    result is the cut mantissa or the one after it, and the latter only when
    something was lost. *)
Lemma round_aux_spec (s : bool) (q : positive) (e : Z) (l : location) :
  let d := Z.pos (digits2_pos q) in
  let k := d - 53 in
  0 <= k -> -1021 <= d + e -> e + k + 1 <= 971 ->
  exists (m : positive) (e' : Z),
    binary_round_aux 53 1024 s (Z.pos q) e l = S754_finite s m e'
    /\ Z.pos (digits2_pos m) = 53
    /\ (e' = e + k \/ e' = e + k + 1)
    /\ (Z.pos m * 2 ^ (e' - (e + k)) = Z.pos q / 2 ^ k
        \/ (Z.pos m * 2 ^ (e' - (e + k)) = Z.pos q / 2 ^ k + 1
            /\ ~ (l = loc_Exact /\ Z.pos q mod 2 ^ k = 0))).
Proof.
  intros d k Hk Hlo Hhi.
  pose proof (digits_bounds q) as Hd. fold d in Hd.
  assert (Hpk : 0 < 2 ^ k) by (apply Z.pow_pos_nonneg; lia).
  assert (Hdk : 2 ^ d = 2 ^ 53 * 2 ^ k).
  { rewrite <- Z.pow_add_r by lia. f_equal. lia. }
  assert (Hdk1 : 2 ^ (d - 1) = 2 ^ 52 * 2 ^ k).
  { rewrite <- Z.pow_add_r by lia. f_equal. lia. }
  set (m1 := Z.pos q / 2 ^ k).
  assert (Hm1 : 2 ^ 52 <= m1 < 2 ^ 53).
  { subst m1. split.
    - apply Z.div_le_lower_bound; lia.
    - apply Z.div_lt_upper_bound; lia. }
  unfold binary_round_aux.
  (* the first shift *)
  unfold shr_fexp at 1. cbn [Zdigits2]. fold d.
  rewrite fexp_normal by lia.
  replace (d + e - 53 - e) with k by lia.
  rewrite shr_nat by lia.
  set (r0 := shr_record_of_loc (Z.pos q) l).
  set (r1 := Nat.iter (Z.to_nat k) shr_1 r0).
  assert (Hr0 : shr_m r0 = Z.pos q) by apply shr_record_of_loc_m.
  assert (Hr1 : shr_m r1 = m1).
  { subst r1 m1. destruct (shr_iter_m (Z.to_nat k) r0) as [H _]; [lia|].
    rewrite H, Hr0, Z2Nat.id by lia. reflexivity. }
  assert (Hexact : l = loc_Exact -> Z.pos q mod 2 ^ k = 0 ->
                   loc_of_shr_record r1 = loc_Exact).
  { intros -> Hdiv. subst r1 r0. cbn [shr_record_of_loc].
    rewrite shr_iter_exact; [reflexivity|lia|].
    rewrite Z2Nat.id by lia. exact Hdiv. }
  rewrite Hr1.
  set (m2 := round_nearest_even m1 (loc_of_shr_record r1)).
  assert (Hm2 : m2 = m1
                \/ (m2 = m1 + 1 /\ ~ (l = loc_Exact /\ Z.pos q mod 2 ^ k = 0))).
  { subst m2. destruct (round_nearest_even_cases m1 (loc_of_shr_record r1))
      as [H|[H Hne]]; [left; exact H|right].
    split; [exact H|]. intros [Hl Hdiv]. apply Hne. apply Hexact; assumption. }
  clearbody m2. clear Hexact.
  assert (Hm2pos : 0 < m2) by (rewrite pow2_52 in Hm1; lia).
  destruct m2 as [|p2|p2]; try lia.
  destruct (Z.eq_dec (Z.pos p2) (2 ^ 53)) as [Hcarry|Hnocarry].
  - (* the rounded mantissa has 54 digits and is cut once more *)
    assert (Hd2 : Z.pos (digits2_pos p2) = 54).
    { apply digits_unique. rewrite Hcarry. split; [reflexivity|].
      apply Z.pow_lt_mono_r; lia. }
    unfold shr_fexp. cbn [Zdigits2]. rewrite Hd2.
    rewrite fexp_normal by lia.
    replace (54 + (e + k) - 53 - (e + k)) with 1 by lia.
    rewrite shr_nat by lia. cbn [shr_record_of_loc Z.to_nat Pos.to_nat
                                 Pos.iter_op Nat.iter nat_rect].
    rewrite shr_1_exact; [|lia|rewrite Hcarry; reflexivity].
    cbn [shr_m]. rewrite Hcarry. change (2 ^ 53 / 2) with (Z.pos 4503599627370496).
    cbn match.
    replace (e + k + 1 <=? 1024 - 53) with true by (symmetry; apply Z.leb_le; lia).
    exists 4503599627370496%positive, (e + k + 1).
    split; [reflexivity|]. split; [reflexivity|]. split; [right; reflexivity|].
    replace (e + k + 1 - (e + k)) with 1 by lia.
    destruct Hm2 as [H|[H Hne]].
    + exfalso. rewrite pow2_53 in *. lia.
    + right. split; [|exact Hne]. rewrite <- H, Hcarry. reflexivity.
  - assert (Hp2 : 2 ^ 52 <= Z.pos p2 < 2 ^ 53) by (destruct Hm2 as [H|[H _]]; lia).
    assert (Hd2 : Z.pos (digits2_pos p2) = 53) by (apply digits_unique; exact Hp2).
    unfold shr_fexp. cbn [Zdigits2]. rewrite Hd2.
    rewrite fexp_normal by lia.
    replace (53 + (e + k) - 53 - (e + k)) with 0 by lia.
    cbn [shr shr_record_of_loc shr_m].
    replace (e + k <=? 1024 - 53) with true by (symmetry; apply Z.leb_le; lia).
    exists p2, (e + k).
    split; [reflexivity|]. split; [exact Hd2|]. split; [left; reflexivity|].
    rewrite Z.sub_diag, Z.mul_1_r.
    destruct Hm2 as [H|[H Hne]]; [left; exact H|right; split; assumption].
Qed.

Lemma round_aux_at (s : bool) (q : positive) (e : Z) (l : location) (k : Z) :
  Z.pos (digits2_pos q) = 53 + k ->
  0 <= k -> -1021 <= 53 + k + e -> e + k + 1 <= 971 ->
  exists (m : positive) (e' : Z),
    binary_round_aux 53 1024 s (Z.pos q) e l = S754_finite s m e'
    /\ Z.pos (digits2_pos m) = 53
    /\ (e' = e + k \/ e' = e + k + 1)
    /\ (Z.pos m * 2 ^ (e' - (e + k)) = Z.pos q / 2 ^ k
        \/ (Z.pos m * 2 ^ (e' - (e + k)) = Z.pos q / 2 ^ k + 1
            /\ ~ (l = loc_Exact /\ Z.pos q mod 2 ^ k = 0))).
Proof.
  intros Hd Hk Hlo Hhi.
  pose proof (round_aux_spec s q e l) as H. cbv zeta in H.
  rewrite Hd in H. replace (53 + k - 53) with k in H by lia.
  apply H; lia.
Qed.

End RoundAux.

Section BinaryRound.

Lemma iter_xO_value (p dd : positive) :
  Z.pos (Pos.iter xO p dd) = Z.pos p * 2 ^ Z.pos dd.
Proof.
  induction dd as [|dd IH] using Pos.peano_ind.
  - cbn [Pos.iter]. rewrite Pos2Z.inj_xO. change (2 ^ 1) with 2. lia.
  - rewrite Pos.iter_succ, Pos2Z.inj_xO, IH, Pos2Z.inj_succ.
    rewrite Z.pow_succ_r by lia. lia.
Qed.

Lemma V_shift (m : positive) (e e0 : Z) :
  -1200 <= e0 -> e0 <= e ->
  B64.V m e = Z.pos m * 2 ^ (e - e0) * 2 ^ (e0 + 1200).
Proof.
  intros H0 He. unfold B64.V. rewrite <- Z.mul_assoc, <- Z.pow_add_r by lia.
  do 2 f_equal. lia.
Qed.

(** [binary_round] gives a number of 53 digits that is a multiple of the
    unit [2^ec] of the exact value and differs from it by less than this
    unit. *)
Lemma binary_round_spec (s : bool) (p : positive) (e : Z) :
  let d := Z.pos (digits2_pos p) in
  let ec := d + e - 53 in
  -1021 <= d + e -> ec + 1 <= 971 -> -1200 <= e ->
  exists (m : positive) (e' : Z),
    binary_round 53 1024 s p e = S754_finite s m e'
    /\ Z.pos (digits2_pos m) = 53
    /\ (e' = ec \/ e' = ec + 1)
    /\ (exists j, B64.V m e' = j * 2 ^ (ec + 1200))
    /\ Z.abs (B64.V m e' - Z.pos p * 2 ^ (e + 1200)) < 2 ^ (ec + 1200).
Proof.
  intros d ec Hlo Hhi He.
  pose proof (digits_bounds p) as Hd. fold d in Hd.
  assert (HU : 0 < 2 ^ (ec + 1200)) by (apply Z.pow_pos_nonneg; lia).
  unfold binary_round. cbn [Zdigits2]. fold d. rewrite fexp_normal by lia.
  fold ec. unfold shl_align.
  destruct (Z.sub ec e) as [|dd|dd] eqn:Hsub.
  - (* exactly 53 digits *)
    assert (Hd53 : d = 53) by lia.
    destruct (round_aux_at s p e loc_Exact 0) as (m & e' & Heq & Hdm & He' & Hv);
      try (unfold d in *; lia).
    rewrite Z.add_0_r in *. change (2 ^ 0) with 1 in Hv.
    rewrite Z.div_1_r, Z.mod_1_r in Hv.
    exists m, e'. split; [exact Heq|]. split; [exact Hdm|].
    split; [replace ec with e by lia; lia|].
    destruct Hv as [Hv|[_ Hne]]; [|exfalso; apply Hne; split; reflexivity].
    assert (HV : B64.V m e' = Z.pos p * 2 ^ (e + 1200)).
    { rewrite (V_shift m e' e) by lia. rewrite Hv. reflexivity. }
    split.
    + exists (Z.pos p). rewrite HV. do 2 f_equal. lia.
    + rewrite HV, Z.sub_diag. cbn. exact HU.
  - (* more than 53 digits: the mantissa is cut *)
    assert (Hk : d - 53 = Z.pos dd) by lia.
    destruct (round_aux_at s p e loc_Exact (Z.pos dd))
      as (m & e' & Heq & Hdm & He' & Hv); try (unfold d in *; lia).
    exists m, e'. split; [exact Heq|]. split; [exact Hdm|].
    split; [replace ec with (e + Z.pos dd) by lia; exact He'|].
    assert (Hpk : 0 < 2 ^ Z.pos dd) by (apply Z.pow_pos_nonneg; lia).
    assert (HUk : 2 ^ (ec + 1200) = 2 ^ Z.pos dd * 2 ^ (e + 1200)).
    { rewrite <- Z.pow_add_r by lia. f_equal. lia. }
    assert (HV : B64.V m e' = Z.pos m * 2 ^ (e' - (e + Z.pos dd)) * 2 ^ (ec + 1200)).
    { rewrite (V_shift m e' (e + Z.pos dd)) by lia. do 2 f_equal. lia. }
    pose proof (Z.div_mod (Z.pos p) (2 ^ Z.pos dd) ltac:(lia)) as Hdm2.
    pose proof (Z.mod_pos_bound (Z.pos p) (2 ^ Z.pos dd) Hpk) as Hr.
    assert (HE : 0 < 2 ^ (e + 1200)) by (apply Z.pow_pos_nonneg; lia).
    split.
    + eexists. exact HV.
    + rewrite HV, HUk.
      set (m1 := Z.pos p / 2 ^ Z.pos dd) in *.
      set (r := Z.pos p mod 2 ^ Z.pos dd) in *.
      set (E := 2 ^ (e + 1200)) in *. set (K := 2 ^ Z.pos dd) in *.
      destruct Hv as [Hv|[Hv Hne]]; rewrite Hv.
      * replace (m1 * (K * E) - Z.pos p * E) with (- (r * E)) by nia.
        rewrite Z.abs_opp, Z.abs_eq by nia. nia.
      * assert (Hr0 : r <> 0) by (intros H0; apply Hne; split; [reflexivity|exact H0]).
        replace ((m1 + 1) * (K * E) - Z.pos p * E) with ((K - r) * E) by nia.
        rewrite Z.abs_eq by nia. nia.
  - (* fewer than 53 digits: the mantissa is padded, nothing is lost *)
    assert (Hk : 53 - d = Z.pos dd) by lia.
    set (p' := Pos.iter xO p dd).
    assert (Hp' : Z.pos p' = Z.pos p * 2 ^ Z.pos dd) by apply iter_xO_value.
    assert (Hpk : 0 < 2 ^ Z.pos dd) by (apply Z.pow_pos_nonneg; lia).
    assert (Hd' : Z.pos (digits2_pos p') = 53).
    { apply digits_unique. rewrite Hp'.
      assert (H1 : 2 ^ 52 = 2 ^ (d - 1) * 2 ^ Z.pos dd).
      { rewrite <- Z.pow_add_r by lia. f_equal. lia. }
      assert (H2 : 2 ^ 53 = 2 ^ d * 2 ^ Z.pos dd).
      { rewrite <- Z.pow_add_r by lia. f_equal. lia. }
      change (53 - 1) with 52. rewrite H1, H2. nia. }
    destruct (round_aux_at s p' ec loc_Exact 0) as (m & e' & Heq & Hdm & He' & Hv);
      try (unfold d in *; lia).
    rewrite Z.add_0_r in *. change (2 ^ 0) with 1 in Hv.
    rewrite Z.div_1_r, Z.mod_1_r in Hv.
    exists m, e'. split; [exact Heq|]. split; [exact Hdm|].
    split; [exact He'|].
    destruct Hv as [Hv|[_ Hne]]; [|exfalso; apply Hne; split; reflexivity].
    assert (HV : B64.V m e' = Z.pos p * 2 ^ (e + 1200)).
    { rewrite (V_shift m e' ec) by lia. rewrite Hv, Hp'.
      rewrite <- Z.mul_assoc, <- Z.pow_add_r by lia. do 2 f_equal. lia. }
    split.
    + exists (Z.pos p'). rewrite HV, Hp'.
      rewrite <- Z.mul_assoc, <- Z.pow_add_r by lia. do 2 f_equal. lia.
    + rewrite HV, Z.sub_diag. cbn. exact HU.
Qed.

End BinaryRound.

Section AddSub.

Lemma shl_align_value (mx : positive) (ex ez : Z) :
  ez <= ex -> Z.pos (shl_align mx ex ez).1 = Z.pos mx * 2 ^ (ex - ez).
Proof.
  intros H. unfold shl_align.
  destruct (ez - ex) as [|d|d] eqn:Hd.
  - replace (ex - ez) with 0 by lia. cbn. lia.
  - lia.
  - cbn [fst]. rewrite iter_xO_value. do 2 f_equal. lia.
Qed.

Lemma V_pos (m : positive) (e : Z) : -1200 <= e -> 0 < B64.V m e.
Proof.
  intros H. unfold B64.V.
  assert (0 < 2 ^ (e + 1200)) by (apply Z.pow_pos_nonneg; lia). lia.
Qed.

Lemma V_bounds (m : positive) (e : Z) :
  Z.pos (digits2_pos m) = 53 -> -1200 <= e ->
  2 ^ (e + 1252) <= B64.V m e < 2 ^ (e + 1253).
Proof.
  intros Hd He. pose proof (digits_bounds m) as Hb. rewrite Hd in Hb.
  change (53 - 1) with 52 in Hb. unfold B64.V.
  assert (HE : 0 < 2 ^ (e + 1200)) by (apply Z.pow_pos_nonneg; lia).
  replace (e + 1252) with (52 + (e + 1200)) by lia.
  replace (e + 1253) with (53 + (e + 1200)) by lia.
  rewrite (Z.pow_add_r 2 52 (e + 1200)), (Z.pow_add_r 2 53 (e + 1200)) by lia.
  nia.
Qed.

(** The sum of two positive normal numbers is the exact sum rounded: a
    number of 53 digits, multiple of the unit that the size of the exact sum
    determines, and closer to the exact sum than this unit. *)
Lemma add_spec (mx my : positive) (ex ey : Z) :
  B64.normal mx ex -> B64.normal my ey ->
  let S := B64.V mx ex + B64.V my ey in
  exists (m : positive) (e ec : Z),
    B64.add (S754_finite false mx ex) (S754_finite false my ey)
    = S754_finite false m e
    /\ Z.pos (digits2_pos m) = 53
    /\ (e = ec \/ e = ec + 1)
    /\ 2 ^ (ec + 1252) <= S < 2 ^ (ec + 1253)
    /\ (exists j, B64.V m e = j * 2 ^ (ec + 1200))
    /\ Z.abs (B64.V m e - S) < 2 ^ (ec + 1200).
Proof.
  intros [Hdx Hex] [Hdy Hey] S.
  set (ez := Z.min ex ey).
  unfold B64.add, SFadd. fold ez. cbn [cond_Zopp].
  pose proof (shl_align_value mx ex ez ltac:(lia)) as Hx.
  pose proof (shl_align_value my ey ez ltac:(lia)) as Hy.
  set (px := (shl_align mx ex ez).1) in *.
  set (py := (shl_align my ey ez).1) in *.
  change (Z.pos px + Z.pos py) with (Z.pos (px + py)).
  cbn [binary_normalize].
  assert (HS : Z.pos (px + py) * 2 ^ (ez + 1200) = S).
  { subst S. rewrite (V_shift mx ex ez), (V_shift my ey ez) by lia.
    rewrite Pos2Z.inj_add, Hx, Hy. ring. }
  pose proof (digits_bounds (px + py)) as Hd.
  set (d := Z.pos (digits2_pos (px + py))) in *.
  assert (Hd53 : 53 <= d).
  { destruct (Z.lt_ge_cases d 53) as [Hlt|]; [|assumption]. exfalso.
    assert (2 ^ d <= 2 ^ 52) by (apply Z.pow_le_mono_r; lia).
    pose proof (digits_bounds mx) as Hbx. rewrite Hdx in Hbx.
    pose proof (digits_bounds my) as Hby. rewrite Hdy in Hby.
    change (53 - 1) with 52 in *.
    assert (0 < 2 ^ (ex - ez)) by (apply Z.pow_pos_nonneg; lia).
    assert (0 < 2 ^ (ey - ez)) by (apply Z.pow_pos_nonneg; lia).
    rewrite Pos2Z.inj_add, Hx, Hy in Hd. nia. }
  assert (Hdhi : d <= 54 + (Z.max ex ey - ez)).
  { destruct (Z.le_gt_cases d (54 + (Z.max ex ey - ez))) as [|Hgt]; [assumption|].
    exfalso.
    assert (2 ^ (54 + (Z.max ex ey - ez)) <= 2 ^ (d - 1))
      by (apply Z.pow_le_mono_r; lia).
    pose proof (digits_bounds mx) as Hbx. rewrite Hdx in Hbx.
    pose proof (digits_bounds my) as Hby. rewrite Hdy in Hby.
    rewrite Z.pow_add_r in H by lia.
    assert (2 ^ (ex - ez) <= 2 ^ (Z.max ex ey - ez)) by (apply Z.pow_le_mono_r; lia).
    assert (2 ^ (ey - ez) <= 2 ^ (Z.max ex ey - ez)) by (apply Z.pow_le_mono_r; lia).
    assert (0 < 2 ^ (ex - ez)) by (apply Z.pow_pos_nonneg; lia).
    assert (0 < 2 ^ (ey - ez)) by (apply Z.pow_pos_nonneg; lia).
    change (2 ^ 54) with (2 * 2 ^ 53) in H.
    rewrite Pos2Z.inj_add, Hx, Hy in Hd. nia. }
  destruct (binary_round_spec false (px + py) ez)
    as (m & e & Heq & Hdm & He & Hj & Habs); fold d; try lia.
  fold d in He, Hj, Habs. rewrite HS in Habs.
  exists m, e, (d + ez - 53).
  split; [exact Heq|]. split; [exact Hdm|]. split; [exact He|].
  split; [|split; assumption].
  rewrite <- HS.
  assert (HE : 0 < 2 ^ (ez + 1200)) by (apply Z.pow_pos_nonneg; lia).
  replace (d + ez - 53 + 1252) with ((d - 1) + (ez + 1200)) by lia.
  replace (d + ez - 53 + 1253) with (d + (ez + 1200)) by lia.
  rewrite (Z.pow_add_r 2 (d - 1) (ez + 1200)), (Z.pow_add_r 2 d (ez + 1200))
    by lia.
  apply scale_bounds; assumption.
Qed.

(** The difference of two positive normal numbers, the first one the
    larger: the exact difference rounded, and the exact difference itself
    when it is below [2^53] units of the smaller exponent. *)
Lemma sub_spec (mx my : positive) (ex ey : Z) :
  B64.normal mx ex -> B64.normal my ey ->
  B64.V my ey < B64.V mx ex ->
  let S := B64.V mx ex - B64.V my ey in
  exists (m : positive) (e ec : Z),
    B64.sub (S754_finite false mx ex) (S754_finite false my ey)
    = S754_finite false m e
    /\ Z.pos (digits2_pos m) = 53
    /\ (e = ec \/ e = ec + 1)
    /\ 2 ^ (ec + 1252) <= S < 2 ^ (ec + 1253)
    /\ (exists j, B64.V m e = j * 2 ^ (ec + 1200))
    /\ Z.abs (B64.V m e - S) < 2 ^ (ec + 1200)
    /\ (S < 2 ^ (Z.min ex ey + 1253) -> B64.V m e = S).
Proof.
  intros [Hdx Hex] [Hdy Hey] Hlt S.
  set (ez := Z.min ex ey).
  unfold B64.sub, SFsub. fold ez. cbn [cond_Zopp].
  pose proof (shl_align_value mx ex ez ltac:(lia)) as Hx.
  pose proof (shl_align_value my ey ez ltac:(lia)) as Hy.
  set (px := (shl_align mx ex ez).1) in *.
  set (py := (shl_align my ey ez).1) in *.
  assert (HE : 0 < 2 ^ (ez + 1200)) by (apply Z.pow_pos_nonneg; lia).
  assert (HS : (Z.pos px - Z.pos py) * 2 ^ (ez + 1200) = S).
  { subst S. rewrite (V_shift mx ex ez), (V_shift my ey ez) by lia.
    rewrite Hx, Hy. ring. }
  assert (HM : 0 < Z.pos px - Z.pos py).
  { apply (Z.mul_lt_mono_pos_r (2 ^ (ez + 1200))); [exact HE|].
    rewrite HS, Z.mul_0_l. subst S. lia. }
  destruct (Z.pos px - Z.pos py) as [|p|p] eqn:HMp; try lia.
  cbn [binary_normalize].
  pose proof (digits_bounds p) as Hd.
  set (d := Z.pos (digits2_pos p)) in *.
  assert (Hd1 : 1 <= d) by (subst d; lia).
  assert (Hdhi : d <= 53 + (Z.max ex ey - ez)).
  { destruct (Z.le_gt_cases d (53 + (Z.max ex ey - ez))) as [|Hgt]; [assumption|].
    exfalso.
    assert (2 ^ (53 + (Z.max ex ey - ez)) <= 2 ^ (d - 1))
      by (apply Z.pow_le_mono_r; lia).
    pose proof (digits_bounds mx) as Hbx. rewrite Hdx in Hbx.
    rewrite Z.pow_add_r in H by lia.
    assert (2 ^ (ex - ez) <= 2 ^ (Z.max ex ey - ez)) by (apply Z.pow_le_mono_r; lia).
    assert (0 < 2 ^ (ex - ez)) by (apply Z.pow_pos_nonneg; lia).
    assert (Z.pos p < Z.pos px) by lia.
    assert (Z.pos mx * 2 ^ (ex - ez) < 2 ^ 53 * 2 ^ (Z.max ex ey - ez))
      by (apply scale_lt; lia).
    lia. }
  destruct (binary_round_spec false p ez)
    as (m & e & Heq & Hdm & He & Hj & Habs); fold d; try lia.
  fold d in He, Hj, Habs. rewrite HS in Habs.
  exists m, e, (d + ez - 53).
  split; [exact Heq|]. split; [exact Hdm|]. split; [exact He|].
  assert (Hmag : 2 ^ (d + ez - 53 + 1252) <= S < 2 ^ (d + ez - 53 + 1253)).
  { rewrite <- HS.
    replace (d + ez - 53 + 1252) with ((d - 1) + (ez + 1200)) by lia.
    replace (d + ez - 53 + 1253) with (d + (ez + 1200)) by lia.
    rewrite (Z.pow_add_r 2 (d - 1) (ez + 1200)), (Z.pow_add_r 2 d (ez + 1200))
      by lia.
    apply scale_bounds; assumption. }
  split; [exact Hmag|]. split; [exact Hj|]. split; [exact Habs|].
  intros Hsmall.
  (* at most 53 digits: the unit divides the exact difference *)
  assert (Hd53 : d <= 53).
  { destruct (Z.le_gt_cases d 53) as [|Hgt]; [assumption|]. exfalso.
    assert (2 ^ (ez + 1253) <= 2 ^ (d + ez - 53 + 1252))
      by (apply Z.pow_le_mono_r; lia).
    lia. }
  destruct Hj as [j Hj].
  assert (HU : 0 < 2 ^ (d + ez - 53 + 1200)) by (apply Z.pow_pos_nonneg; lia).
  assert (HSj : S = Z.pos p * 2 ^ (53 - d) * 2 ^ (d + ez - 53 + 1200)).
  { rewrite <- HS, <- Z.mul_assoc, <- Z.pow_add_r by lia. do 2 f_equal. lia. }
  rewrite Hj, HSj in Habs. rewrite Hj, HSj.
  set (U := 2 ^ (d + ez - 53 + 1200)) in *.
  set (j' := Z.pos p * 2 ^ (53 - d)) in *.
  assert (j = j').
  { apply (multiple_close j j' U); [exact HU|]. apply Z.abs_lt. apply Z.abs_lt in Habs.
    lia. }
  subst j. reflexivity.
Qed.

Lemma V_inj (m m' : positive) (e e' : Z) :
  Z.pos (digits2_pos m) = 53 -> Z.pos (digits2_pos m') = 53 ->
  -1200 <= e -> -1200 <= e' ->
  B64.V m e = B64.V m' e' -> m = m' /\ e = e'.
Proof.
  intros Hd Hd' He He' HV.
  pose proof (V_bounds m e Hd He) as Hb.
  pose proof (V_bounds m' e' Hd' He') as Hb'.
  assert (e = e').
  { destruct (Z.lt_trichotomy e e') as [Hlt|[Heq|Hgt]]; [exfalso|exact Heq|exfalso].
    - assert (2 ^ (e + 1253) <= 2 ^ (e' + 1252)) by (apply Z.pow_le_mono_r; lia).
      lia.
    - assert (2 ^ (e' + 1253) <= 2 ^ (e + 1252)) by (apply Z.pow_le_mono_r; lia).
      lia. }
  subst e'. split; [|reflexivity].
  unfold B64.V in HV.
  assert (0 < 2 ^ (e + 1200)) by (apply Z.pow_pos_nonneg; lia).
  apply Pos2Z.inj. nia.
Qed.

End AddSub.

Section Division.

(** [float(n)] is [n] for a positive integer below [2^53]. *)
Lemma of_Z_spec (n : Z) :
  1 <= n < 2 ^ 53 ->
  exists (mn : positive) (en : Z),
    B64.of_Z n = S754_finite false mn en
    /\ Z.pos (digits2_pos mn) = 53
    /\ -53 < en <= 0
    /\ B64.V mn en = n * 2 ^ 1200.
Proof.
  intros Hn. destruct n as [|pn|pn]; try lia.
  unfold B64.of_Z. cbn [binary_normalize].
  pose proof (digits_bounds pn) as Hd.
  set (d := Z.pos (digits2_pos pn)) in *.
  assert (Hd1 : 1 <= d) by (subst d; lia).
  assert (Hd53 : d <= 53).
  { destruct (Z.le_gt_cases d 53) as [|Hgt]; [assumption|]. exfalso.
    assert (2 ^ 53 <= 2 ^ (d - 1)) by (apply Z.pow_le_mono_r; lia). lia. }
  destruct (binary_round_spec false pn 0)
    as (m & e & Heq & Hdm & He & [j Hj] & Habs); fold d; try lia.
  fold d in He, Hj, Habs. rewrite Z.add_0_l in Habs.
  rewrite Z.add_0_r in *.
  assert (HU : 0 < 2 ^ (d - 53 + 1200)) by (apply Z.pow_pos_nonneg; lia).
  assert (HS : Z.pos pn * 2 ^ 1200 = Z.pos pn * 2 ^ (53 - d) * 2 ^ (d - 53 + 1200)).
  { rewrite <- Z.mul_assoc, <- Z.pow_add_r by lia. do 2 f_equal. lia. }
  assert (HV : B64.V m e = Z.pos pn * 2 ^ 1200).
  { rewrite Hj, HS in Habs. apply multiple_close in Habs; [|exact HU].
    rewrite Hj, HS, Habs. reflexivity. }
  exists m, e. split; [exact Heq|]. split; [exact Hdm|]. split; [|exact HV].
  pose proof (V_bounds m e Hdm ltac:(lia)) as Hb. rewrite HV in Hb.
  assert (H1200 : 0 < 2 ^ 1200) by (apply Z.pow_pos_nonneg; lia).
  split.
  - destruct (Z.lt_ge_cases (-53) e) as [|Hle]; [assumption|]. exfalso.
    assert (2 ^ (e + 1253) <= 2 ^ 1200) by (apply Z.pow_le_mono_r; lia). nia.
  - destruct (Z.le_gt_cases e 0) as [|Hgt]; [assumption|]. exfalso.
    assert (2 ^ (53 + 1200) <= 2 ^ (e + 1252)) by (apply Z.pow_le_mono_r; lia).
    rewrite Z.pow_add_r in H by lia. nia.
Qed.

(** The quotient of a positive normal number by a positive integer: one of
    the two neighbouring multiples of a unit [U], between which the exact
    quotient lies. *)
Lemma div_spec (mx : positive) (ex n : Z) :
  Z.pos (digits2_pos mx) = 53 -> -500 <= ex <= 500 -> 1 <= n < 2 ^ 53 ->
  exists (m : positive) (e a m1 : Z),
    B64.div (S754_finite false mx ex) (B64.of_Z n) = S754_finite false m e
    /\ Z.pos (digits2_pos m) = 53
    /\ (e = a \/ e = a + 1)
    /\ ex - 54 <= a <= ex + 1
    /\ 2 ^ 52 <= m1 < 2 ^ 53
    /\ (B64.V m e = m1 * 2 ^ (a + 1200) \/ B64.V m e = (m1 + 1) * 2 ^ (a + 1200))
    /\ m1 * 2 ^ (a + 1200) * n <= B64.V mx ex < (m1 + 1) * 2 ^ (a + 1200) * n.
Proof.
  intros Hdx Hex Hn.
  destruct (of_Z_spec n Hn) as (mn & en & Hof & Hdn & Hen & HVn).
  rewrite Hof. unfold B64.div, SFdiv, SFdiv_core_binary.
  cbn [Zdigits2 xorb]. rewrite Hdx, Hdn.
  replace (53 + ex - (53 + en)) with (ex - en) by lia.
  rewrite fexp_normal by lia.
  rewrite Z.min_l by lia.
  replace (ex - en - (ex - en - 53)) with 53 by lia.
  rewrite Z.shiftl_mul_pow2 by lia.
  pose proof (Z_div_mod (Z.pos mx * 2 ^ 53) (Z.pos mn) ltac:(lia)) as Hdiv.
  destruct (Z.div_eucl (Z.pos mx * 2 ^ 53) (Z.pos mn)) as [q r].
  destruct Hdiv as [Hqr Hr].
  pose proof (digits_bounds mx) as Hbx. rewrite Hdx in Hbx.
  pose proof (digits_bounds mn) as Hbn. rewrite Hdn in Hbn.
  change (53 - 1) with 52 in *.
  assert (Hq : 2 ^ 52 <= q < 2 ^ 54).
  { rewrite pow2_52, pow2_53 in *. change (2 ^ 54) with 18014398509481984.
    split; nia. }
  destruct q as [|pq|pq]; try (rewrite pow2_52 in Hq; lia).
  set (e' := ex - en - 53).
  (* the number of digits of the quotient: 53 or 54 *)
  assert (Hk : exists k, (k = 0 \/ k = 1) /\ Z.pos (digits2_pos pq) = 53 + k).
  { destruct (Z.lt_ge_cases (Z.pos pq) (2 ^ 53)) as [Hlt|Hge].
    - exists 0. split; [left; reflexivity|]. apply digits_unique.
      change (53 + 0 - 1) with 52. change (53 + 0) with 53. lia.
    - exists 1. split; [right; reflexivity|]. apply digits_unique.
      change (53 + 1 - 1) with 53. change (53 + 1) with 54. lia. }
  destruct Hk as (k & Hk01 & Hdq).
  destruct (round_aux_at false pq e' (new_location (Z.pos mn) r) k Hdq)
    as (m & e & Heq & Hdm & He & Hv); try (subst e'; lia).
  set (a := e' + k) in *.
  set (m1 := Z.pos pq / 2 ^ k) in *.
  assert (Hpk : 0 < 2 ^ k) by (apply Z.pow_pos_nonneg; lia).
  pose proof (Z.div_mod (Z.pos pq) (2 ^ k) ltac:(lia)) as Hqk.
  pose proof (Z.mod_pos_bound (Z.pos pq) (2 ^ k) Hpk) as Hrk.
  fold m1 in Hqk.
  assert (Hm1 : 2 ^ 52 <= m1 < 2 ^ 53).
  { pose proof (digits_bounds pq) as Hbq. rewrite Hdq in Hbq.
    replace (53 + k - 1) with (52 + k) in Hbq by lia.
    rewrite !Z.pow_add_r in Hbq by lia.
    subst m1. split.
    - apply Z.div_le_lower_bound; lia.
    - apply Z.div_lt_upper_bound; lia. }
  exists m, e, a, m1.
  split; [exact Heq|]. split; [exact Hdm|]. split; [exact He|].
  split; [subst a e'; lia|]. split; [exact Hm1|].
  assert (HV : B64.V m e = Z.pos m * 2 ^ (e - a) * 2 ^ (a + 1200)).
  { apply V_shift; subst a e'; lia. }
  split.
  { rewrite HV. destruct Hv as [Hv|[Hv _]]; rewrite Hv; [left|right]; reflexivity. }
  (* the exact quotient lies between the two multiples *)
  assert (HUa : 2 ^ (a + 1200) = 2 ^ k * 2 ^ (e' + 1200)).
  { subst a. rewrite <- Z.pow_add_r by (subst e'; lia). f_equal. lia. }
  assert (HE' : 0 < 2 ^ (e' + 1200)) by (apply Z.pow_pos_nonneg; subst e'; lia).
  assert (Hmn : Z.pos mn = n * 2 ^ (- en)).
  { unfold B64.V in HVn.
    assert (0 < 2 ^ (en + 1200)) by (apply Z.pow_pos_nonneg; lia).
    assert (2 ^ 1200 = 2 ^ (- en) * 2 ^ (en + 1200)).
    { rewrite <- Z.pow_add_r by lia. f_equal. lia. }
    nia. }
  assert (HVx : B64.V mx ex * 2 ^ (- en)
                = Z.pos mx * 2 ^ 53 * 2 ^ (e' + 1200)).
  { unfold B64.V. rewrite <- !Z.mul_assoc, <- !Z.pow_add_r by (subst e'; lia).
    do 2 f_equal. subst e'. lia. }
  assert (Hen' : 0 < 2 ^ (- en)) by (apply Z.pow_pos_nonneg; lia).
  rewrite HUa.
  set (P := 2 ^ (e' + 1200)) in *. set (K := 2 ^ k) in *.
  set (D := 2 ^ (- en)) in *. set (W := B64.V mx ex) in *.
  set (rk := Z.pos pq mod K) in *.
  assert (HnP : 0 < P * n) by (apply Z.mul_pos_pos; lia).
  assert (Hlo : Z.pos pq * P * n <= W).
  { apply (Z.mul_le_mono_pos_r _ _ D); [lia|]. rewrite HVx, Hqr.
    replace (Z.pos pq * P * n * D) with (Z.pos pq * (n * D) * P) by ring.
    rewrite <- Hmn. apply Z.mul_le_mono_nonneg_r; lia. }
  assert (Hhi : W < (Z.pos pq + 1) * P * n).
  { apply (Z.mul_lt_mono_pos_r D); [lia|]. rewrite HVx, Hqr.
    replace ((Z.pos pq + 1) * P * n * D) with ((Z.pos pq + 1) * (n * D) * P) by ring.
    rewrite <- Hmn. apply Z.mul_lt_mono_pos_r; lia. }
  split.
  - apply Z.le_trans with (Z.pos pq * P * n); [|exact Hlo].
    replace (m1 * (K * P) * n) with (m1 * K * (P * n)) by ring.
    replace (Z.pos pq * P * n) with (Z.pos pq * (P * n)) by ring.
    apply Z.mul_le_mono_nonneg_r; lia.
  - apply Z.lt_le_trans with ((Z.pos pq + 1) * P * n); [exact Hhi|].
    replace ((m1 + 1) * (K * P) * n) with ((m1 + 1) * K * (P * n)) by ring.
    replace ((Z.pos pq + 1) * P * n) with ((Z.pos pq + 1) * (P * n)) by ring.
    apply Z.mul_le_mono_nonneg_r; lia.
Qed.

End Division.

Section ChunkSum.

(** A quantity that passes [validate_quantity] is not-a-number, or a
    positive normal number between 0.001 and 1000. *)
Lemma valid_quantity_cases (T : B64.float) :
  valid_binary 53 1024 T = true ->
  OrderValidator.validate_quantity T = true ->
  T = S754_nan
  \/ exists (m : positive) (e : Z),
      T = S754_finite false m e
      /\ Z.pos (digits2_pos m) = 53 /\ -62 <= e <= -43.
Proof.
  intros Hvalid Hq. unfold OrderValidator.validate_quantity in Hq.
  destruct T as [s|s| |s m e].
  - destruct s; discriminate Hq.
  - destruct s; discriminate Hq.
  - left; reflexivity.
  - right. destruct s; [discriminate Hq|].
    exists m, e. split; [reflexivity|].
    change (B64.leb (S754_finite false m e) B64.zero) with false in Hq.
    cbn match in Hq.
    assert (Hlo : -62 <= e).
    { destruct (Z.lt_ge_cases e (-62)) as [Hlt|]; [|assumption]. exfalso.
      assert (Hc : B64.ltb (S754_finite false m e) Config.MIN_QUANTITY = true).
      { change Config.MIN_QUANTITY
          with (S754_finite false 4611686018427388 (-62)).
        unfold B64.ltb, SFltb, SFcompare.
        apply Z.compare_lt_iff in Hlt. rewrite Hlt. reflexivity. }
      rewrite Hc in Hq. discriminate Hq. }
    assert (Hhi : e <= -43).
    { destruct (Z.le_gt_cases e (-43)) as [|Hgt]; [assumption|]. exfalso.
      destruct (B64.ltb (S754_finite false m e) Config.MIN_QUANTITY);
        [discriminate Hq|].
      assert (Hc : B64.gtb (S754_finite false m e) Config.MAX_QUANTITY = true).
      { change Config.MAX_QUANTITY
          with (S754_finite false 8796093022208000 (-43)).
        unfold B64.gtb, SFltb, SFcompare.
        assert (Hlt : -43 < e) by lia.
        apply Z.compare_lt_iff in Hlt. rewrite Hlt. reflexivity. }
      rewrite Hc in Hq. discriminate Hq. }
    split; [|lia].
    cbn [valid_binary] in Hvalid. unfold bounded, canonical_mantissa in Hvalid.
    apply andb_prop in Hvalid as [Hcan _]. apply Z.eqb_eq in Hcan.
    unfold fexp, emin in Hcan. lia.
Qed.

(** The running sum of [k] chunks of size [cs], as the loop computes it. *)
Lemma sum_nan (k : nat) :
  (1 <= k)%nat ->
  Nat.iter k (fun e => B64.add e S754_nan) B64.zero = S754_nan.
Proof.
  intros Hk. destruct k as [|k]; [lia|]. rewrite Nat.iter_succ.
  destruct (Nat.iter k _ _); reflexivity.
Qed.

Lemma pow2_unique (a b x : Z) :
  0 <= a -> 0 <= b ->
  2 ^ a <= x < 2 ^ (a + 1) -> 2 ^ b <= x < 2 ^ (b + 1) -> a = b.
Proof.
  intros Ha Hb Hxa Hxb.
  destruct (Z.lt_trichotomy a b) as [Hlt|[Heq|Hgt]]; [exfalso|exact Heq|exfalso].
  - assert (2 ^ (a + 1) <= 2 ^ b) by (apply Z.pow_le_mono_r; lia). lia.
  - assert (2 ^ (b + 1) <= 2 ^ a) by (apply Z.pow_le_mono_r; lia). lia.
Qed.

Variables (mT : positive) (eT n : Z).
Hypothesis HdT : Z.pos (digits2_pos mT) = 53.
Hypothesis HeT : -62 <= eT <= -43.
Hypothesis Hn : 2 <= n <= 100.

Let T := S754_finite false mT eT.
Let W := B64.V mT eT.
Let u := 2 ^ (eT + 1200).
Let cs := B64.div T (B64.of_Z n).

Lemma W_bounds : 2 ^ 52 * u <= W < 2 ^ 53 * u /\ 0 < u.
Proof.
  pose proof (digits_bounds mT) as Hb. rewrite HdT in Hb.
  change (53 - 1) with 52 in Hb.
  assert (Hu : 0 < u) by (apply Z.pow_pos_nonneg; lia).
  unfold W, B64.V. fold u. split; [|exact Hu].
  apply scale_bounds; assumption.
Qed.

(** The size of a chunk: within half a unit of [T] of the exact quotient,
    counted [n] times. *)
Lemma chunk_size_spec :
  exists (mc : positive) (ec : Z),
    cs = S754_finite false mc ec
    /\ B64.normal mc ec
    /\ 2 * Z.abs (n * B64.V mc ec - W) <= n * u
    /\ (n = 2 -> W <= 2 * B64.V mc ec).
Proof.
  destruct W_bounds as [HW Hu].
  destruct (div_spec mT eT n HdT ltac:(lia) ltac:(rewrite pow2_53; lia))
    as (m & e & a & m1 & Heq & Hdm & He & Ha & Hm1 & Hv & Hq).
  fold T cs in Heq. fold W in Hq.
  exists m, e. split; [exact Heq|]. split; [split; [exact Hdm|lia]|].
  set (U := 2 ^ (a + 1200)) in *.
  assert (HU : 0 < U) by (apply Z.pow_pos_nonneg; lia).
  assert (HUu : 2 * U <= u).
  { assert (H53 : 2 ^ 52 * U * 2 <= m1 * U * n).
    { apply scale_le; [lia|lia| |lia]. apply Z.mul_le_mono_nonneg_r; lia. }
    assert (Hlt : U < u) by (rewrite pow2_52, pow2_53 in *; lia).
    assert (Ha' : a + 1200 < eT + 1200).
    { apply (Z.pow_lt_mono_r_iff 2); [lia|lia|exact Hlt]. }
    assert (2 ^ (a + 1200 + 1) <= u) by (apply Z.pow_le_mono_r; lia).
    rewrite Z.pow_add_r in H by lia. change (2 ^ 1) with 2 in H. fold U in H. lia. }
  assert (HUn : 2 * (U * n) <= u * n).
  { rewrite Z.mul_assoc. apply Z.mul_le_mono_nonneg_r; lia. }
  split.
  { destruct Hv as [Hv|Hv]; rewrite Hv.
    - rewrite Z.abs_neq by lia. lia.
    - rewrite Z.abs_eq by lia. lia. }
  (* halving: the quotient has the mantissa of [T] *)
  intros ->.
  assert (Hlt4 : u < 2 ^ (a + 1200 + 2)).
  { rewrite Z.pow_add_r by lia. change (2 ^ 2) with 4. fold U.
    assert ((m1 + 1) * U <= 2 ^ 53 * U) by (apply Z.mul_le_mono_nonneg_r; lia).
    rewrite pow2_52, pow2_53 in *. lia. }
  assert (Ha' : eT + 1200 < a + 1200 + 2).
  { apply (Z.pow_lt_mono_r_iff 2); [lia|lia|exact Hlt4]. }
  assert (Hu2 : u = 2 * U).
  { unfold u, U. replace (eT + 1200) with (a + 1200 + 1).
    - rewrite Z.pow_add_r by lia. change (2 ^ 1) with 2. lia.
    - assert (a + 1200 < eT + 1200); [|lia].
      apply (Z.pow_lt_mono_r_iff 2); [lia|lia|]. fold U u. lia. }
  assert (Hm1' : m1 = Z.pos mT).
  { unfold W, B64.V in Hq. fold u in Hq. rewrite Hu2 in Hq.
    destruct Hq as [Hq1 Hq2].
    assert (m1 <= Z.pos mT).
    { apply (Z.mul_le_mono_pos_r _ _ (2 * U)); lia. }
    assert (Z.pos mT < m1 + 1).
    { apply (Z.mul_lt_mono_pos_r (2 * U)); lia. }
    lia. }
  destruct Hv as [Hv|Hv]; rewrite Hv; unfold W, B64.V; fold u;
    rewrite Hu2, <- Hm1'; lia.
Qed.

(** The running sum after [k] chunks, [k] between 1 and [n - 1]: a positive
    normal number at most [2 k n] units of [T] away from [k/n] of [T],
    counted [n] times. *)
Lemma running_sum_spec (k : nat) :
  (1 <= k)%nat -> Z.of_nat k <= n - 1 ->
  exists (m : positive) (e : Z),
    Nat.iter k (fun x => B64.add x cs) B64.zero = S754_finite false m e
    /\ B64.normal m e
    /\ Z.abs (n * B64.V m e - Z.of_nat k * W) <= 2 * Z.of_nat k * n * u.
Proof.
  destruct W_bounds as [HW Hu].
  destruct chunk_size_spec as (mc & ec & Hcs & Hnc & Hc & _).
  induction k as [|k IH]; [lia|]. intros _ Hk.
  destruct k as [|k].
  - (* the first chunk: 0.0 + cs *)
    exists mc, ec. cbn [Nat.iter nat_rect]. rewrite Hcs.
    split; [reflexivity|]. split; [exact Hnc|].
    change (Z.of_nat 1) with 1. lia.
  - destruct IH as (m & e & Heq & Hnm & Hinv); [lia|lia|].
    rewrite Nat.iter_succ, Heq, Hcs.
    destruct (add_spec m mc e ec Hnm Hnc)
      as (m' & e' & ec' & Heq' & Hdm' & He' & Hmag & [j Hj] & Habs).
    set (k1 := Z.of_nat (S k)) in *.
    assert (Hk1 : 1 <= k1 <= 98) by lia.
    replace (Z.of_nat (S (S k))) with (k1 + 1) by lia.
    set (Vk := B64.V m e) in *. set (c := B64.V mc ec) in *.
    set (V' := B64.V m' e') in *.
    (* the exact sum is below T, so its unit is at most the unit of T *)
    apply Z.abs_le in Hinv. rewrite pow2_52, pow2_53 in HW.
    assert (Hk1W : k1 * W <= n * W - 2 * W).
    { replace (n * W - 2 * W) with ((n - 2) * W) by ring.
      apply Z.mul_le_mono_nonneg_r; lia. }
    assert (Hk1n : k1 * n <= 98 * 100) by (apply scale_le; lia).
    assert (Hk1nu : k1 * n * u <= 98 * 100 * u).
    { apply Z.mul_le_mono_nonneg_r; lia. }
    assert (Hnu : n * u <= 100 * u) by (apply Z.mul_le_mono_nonneg_r; lia).
    assert (HS : Vk + c < W).
    { apply (Z.mul_lt_mono_pos_l n); lia. }
    assert (Hec' : ec' <= eT).
    { destruct (Z.le_gt_cases ec' eT) as [|Hgt]; [assumption|]. exfalso.
      assert (2 ^ (eT + 1253) <= 2 ^ (ec' + 1252)) by (apply Z.pow_le_mono_r; lia).
      replace (eT + 1253) with (53 + (eT + 1200)) in H by lia.
      rewrite Z.pow_add_r, pow2_53 in H by lia. fold u in H. lia. }
    assert (Hu' : 2 ^ (ec' + 1200) <= u) by (apply Z.pow_le_mono_r; lia).
    assert (Hinv' : Z.abs (n * V' - (k1 + 1) * W) <= 2 * (k1 + 1) * n * u).
    { assert (Hd : - u <= V' - (Vk + c) <= u) by lia.
      assert (Hnd : n * (- u) <= n * (V' - (Vk + c)) <= n * u).
      { split; apply Z.mul_le_mono_nonneg_l; lia. }
      apply Z.abs_le. lia. }
    exists m', e'. split; [exact Heq'|]. split; [|exact Hinv'].
    split; [exact Hdm'|].
    (* the exponent: from the size of the sum *)
    pose proof (V_bounds m' e' Hdm') as Hb.
    destruct Hnm as [_ Hem]. destruct Hnc as [Hdc Hec].
    assert (Hlo : -1000 <= ec').
    { destruct (Z.le_gt_cases (-1000) ec') as [|Hlt]; [assumption|]. exfalso.
      pose proof (V_bounds mc ec Hdc ltac:(lia)) as Hcpos. fold c in Hcpos.
      assert (0 < Vk) by (apply V_pos; lia).
      assert (2 ^ (ec' + 1253) <= 2 ^ (ec + 1252)) by (apply Z.pow_le_mono_r; lia).
      lia. }
    lia.
Qed.

(** The last chunk is [T - E], [E] the running sum of the [n - 1] chunks
    before it: the subtraction is exact, and adding its result to [E] gives
    [T] back. *)
Lemma last_chunk_exact :
  let E := Nat.iter (Z.to_nat (n - 1)) (fun x => B64.add x cs) B64.zero in
  B64.add E (B64.sub T E) = T.
Proof.
  intros E.
  destruct W_bounds as [HW Hu]. rewrite pow2_52, pow2_53 in HW.
  destruct (running_sum_spec (Z.to_nat (n - 1)) ltac:(lia) ltac:(lia))
    as (m & e & HE & Hnm & Hinv).
  fold E in HE. rewrite HE. rewrite Z2Nat.id in Hinv by lia.
  assert (HnT : B64.normal mT eT) by (split; [exact HdT|lia]).
  pose proof (V_bounds mT eT HdT ltac:(lia)) as HbT. fold W in HbT.
  pose proof Hnm as [Hdm Hem].
  pose proof (V_bounds m e Hdm ltac:(lia)) as HbE.
  set (VE := B64.V m e) in *.
  apply Z.abs_le in Hinv.
  assert (Hn1n : (n - 1) * n <= 99 * 100) by (apply scale_le; lia).
  assert (Hnn : (n - 1) * n * u <= 99 * 100 * u).
  { apply Z.mul_le_mono_nonneg_r; lia. }
  assert (HltE : VE < W).
  { apply (Z.mul_lt_mono_pos_l n); lia. }
  assert (H2E : W <= 2 * VE).
  { destruct (Z.eq_dec n 2) as [Hn2|Hn2].
    - (* two chunks: the running sum is the chunk itself, half of [T] *)
      destruct chunk_size_spec as (mc & ec & Hcs & _ & _ & Hhalf).
      assert (Hmc : S754_finite false m e = S754_finite false mc ec).
      { rewrite <- HE. unfold E. rewrite Hn2. cbn [Z.sub Z.to_nat Z.add Z.opp
          Z.pos_sub Pos.pred_double Pos.to_nat Pos.iter_op Nat.iter nat_rect].
        rewrite Hcs. reflexivity. }
      injection Hmc as -> ->. exact (Hhalf Hn2).
    - apply (Z.mul_le_mono_pos_l _ _ n); [lia|].
      assert (3 * W <= n * W) by (apply Z.mul_le_mono_nonneg_r; lia). lia. }
  assert (HeE : e <= eT).
  { destruct (Z.le_gt_cases e eT) as [|Hgt]; [assumption|]. exfalso.
    assert (2 ^ (eT + 1253) <= 2 ^ (e + 1252)) by (apply Z.pow_le_mono_r; lia).
    lia. }
  destruct (sub_spec mT m eT e HnT Hnm HltE)
    as (md & ed & ecd & HD & Hdd & Hed & Hmagd & _ & _ & Hexact).
  fold W VE in Hmagd, Hexact. unfold T. rewrite HD.
  assert (HVD : B64.V md ed = W - VE).
  { apply Hexact. rewrite Z.min_r by lia. lia. }
  assert (HloD : 2 ^ 45 * u <= W - VE).
  { change (2 ^ 45) with 35184372088832.
    assert (n * (W - VE) <= 100 * (W - VE)).
    { apply Z.mul_le_mono_nonneg_r; lia. }
    lia. }
  assert (Hecd : -1000 <= ecd <= eT).
  { split.
    - destruct (Z.le_gt_cases (-1000) ecd) as [|Hlt]; [assumption|]. exfalso.
      assert (H1 : 2 ^ (ecd + 1253) <= 2 ^ (eT + 1200)).
      { apply Z.pow_le_mono_r; lia. }
      fold u in H1. change (2 ^ 45) with 35184372088832 in HloD. lia.
    - destruct (Z.le_gt_cases ecd eT) as [|Hgt]; [assumption|]. exfalso.
      assert (2 ^ (eT + 1253) <= 2 ^ (ecd + 1252)) by (apply Z.pow_le_mono_r; lia).
      lia. }
  assert (Hnd : B64.normal md ed) by (split; [exact Hdd|lia]).
  destruct (add_spec m md e ed Hnm Hnd)
    as (mr & er & ecr & HR & Hdr & Her & Hmagr & [j Hj] & Habs).
  fold VE in Hmagr, Habs. rewrite HVD in Hmagr, Habs.
  replace (VE + (W - VE)) with W in Hmagr, Habs by lia.
  rewrite HR.
  assert (Hecr : ecr = eT).
  { destruct (Z.lt_trichotomy ecr eT) as [Hlt|[Heq|Hgt]]; [exfalso|exact Heq|exfalso].
    - assert (2 ^ (ecr + 1253) <= 2 ^ (eT + 1252)) by (apply Z.pow_le_mono_r; lia).
      lia.
    - assert (2 ^ (eT + 1253) <= 2 ^ (ecr + 1252)) by (apply Z.pow_le_mono_r; lia).
      lia. }
  subst ecr. fold u in Hj, Habs.
  assert (HVR : B64.V mr er = B64.V mT eT).
  { rewrite Hj in Habs. rewrite Hj. unfold W, B64.V in Habs. fold u in Habs.
    unfold B64.V. fold u. apply Z.abs_lt in Habs.
    assert (j = Z.pos mT); [|congruence].
    apply (multiple_close j (Z.pos mT) u Hu). apply Z.abs_lt. lia. }
  destruct (V_inj mr mT er eT Hdr HdT ltac:(lia) ltac:(lia) HVR) as [-> ->].
  reflexivity.
Qed.

End ChunkSum.

(** What the TWAP loop submits adds up to the total: [n - 1] chunks of size
    [T / n], then the remainder [T - E]. *)
Lemma chunks_sum_exact (T : B64.float) (n : Z) :
  valid_binary 53 1024 T = true ->
  OrderValidator.validate_quantity T = true ->
  2 <= n <= 100 ->
  let cs := B64.div T (B64.of_Z n) in
  let E := Nat.iter (Z.to_nat (n - 1)) (fun x => B64.add x cs) B64.zero in
  B64.add E (B64.sub T E) = T.
Proof.
  intros Hvalid Hq Hn cs E.
  destruct (valid_quantity_cases T Hvalid Hq) as [->|(m & e & -> & Hd & He)].
  - subst E cs. destruct (Nat.iter _ _ _); reflexivity.
  - exact (last_chunk_exact m e n Hd He Hn).
Qed.

(** ** TWAP: the quantities of the chunks *)

Section TwapFullRun.
Variable X : exchange.

(** The exchange accepts every order and reports the requested quantity as
    executed (or no [executedQty] at all) in a reply whose fills can be
    read, no wait is interrupted and standard output takes what is
    printed. *)
Hypothesis Hfill : forall lg rq, exists o,
  x_place X lg rq = Ok o
  /\ to_float (default (Number (rq_quantity rq)) (executedQty o))
     = Ok (rq_quantity rq)
  /\ is_ok (TWAP.fills_value (fills o)) = true.
Hypothesis Hsleep : forall lg, is_ok (x_sleep X lg) = true.
Hypothesis Hprint : forall lg h, is_ok (x_print X lg h) = true.

Lemma placed_snoc lg rq : placed (lg ++ [PlaceOrder rq]) = placed lg ++ [rq].
Proof. unfold placed. rewrite omap_app. reflexivity. Qed.

(** What recording a chunk does when the reply can be read. *)
Lemma record_chunk_read i q o q' :
  to_float (default (Number q) (executedQty o)) = Ok q' ->
  is_ok (TWAP.fills_value (fills o)) = true ->
  let i' := TWAP.record_chunk i q o in
  TWAP.executed_chunks i' = TWAP.executed_chunks i + 1
  /\ TWAP.executed_quantity i' = B64.add (TWAP.executed_quantity i) q'
  /\ TWAP.orders i' = TWAP.orders i ++ [o]
  /\ TWAP.symbol i' = TWAP.symbol i /\ TWAP.side i' = TWAP.side i
  /\ TWAP.total_quantity i' = TWAP.total_quantity i
  /\ TWAP.chunk_size i' = TWAP.chunk_size i
  /\ TWAP.num_chunks i' = TWAP.num_chunks i
  /\ TWAP.price_limit i' = TWAP.price_limit i
  /\ TWAP.status i' = TWAP.status i.
Proof.
  intros Hq Hf. cbv zeta. unfold TWAP.record_chunk. cbv zeta. rewrite Hq.
  destruct (fills o); [cbn; repeat split|].
  destruct (TWAP.fills_value _); [cbn; repeat split|discriminate Hf].
Qed.

Lemma loop_pass_fills flags id k i lg :
  default false (flags !! id) = false -> TWAP.price_limit i = None ->
  exists o,
    TWAP.loop_pass X flags id k i lg
    = (TWAP.record_chunk i (TWAP.planned_quantity i k) o,
       lg ++ [PlaceOrder (TWAP.market_request (TWAP.symbol i) (TWAP.side i)
                            (TWAP.planned_quantity i k))],
       TWAP.Continue)
    /\ to_float (default (Number (TWAP.planned_quantity i k)) (executedQty o))
       = Ok (TWAP.planned_quantity i k)
    /\ is_ok (TWAP.fills_value (fills o)) = true.
Proof.
  intros Hflag Hlimit. unfold TWAP.loop_pass, TWAP._execute_chunk.
  rewrite Hflag, Hlimit. unfold Client.place_order.
  destruct (Hfill lg (TWAP.market_request (TWAP.symbol i) (TWAP.side i)
                        (TWAP.planned_quantity i k))) as (o & Ho & Hq).
  rewrite Ho.
  pose proof (Hprint (lg ++ [PlaceOrder (TWAP.market_request (TWAP.symbol i)
                        (TWAP.side i) (TWAP.planned_quantity i k))])
                "TWAP Chunk executed") as Hp.
  destruct (x_print X _ _); [|discriminate Hp].
  destruct Hq as [Hq Hf]. cbn [rq_quantity TWAP.market_request] in Hq.
  destruct (record_chunk_read i _ o _ Hq Hf)
    as (_ & _ & _ & _ & _ & _ & _ & Hnum & _).
  exists o. split; [|split; assumption].
  cbn -[TWAP.record_chunk]. rewrite Hnum.
  destruct (k <? TWAP.num_chunks i - 1); [|reflexivity].
  specialize (Hsleep (lg ++ [PlaceOrder (TWAP.market_request (TWAP.symbol i)
                        (TWAP.side i) (TWAP.planned_quantity i k))])).
  destruct (x_sleep X _); [reflexivity|discriminate Hsleep].
Qed.

Lemma store_lookup_thread s l i lg w t t0 :
  TWAP.threads s !! w = Some t0 ->
  TWAP.threads (TWAP.store s l i lg w t) !! w = Some t.
Proof.
  intros H. unfold TWAP.store. cbn [TWAP.threads].
  apply list_lookup_insert_eq. eapply lookup_lt_Some; exact H.
Qed.

Lemma store_lookup_heap s l i lg w t i0 :
  TWAP.heap (TWAP.mgr s) !! l = Some i0 ->
  TWAP.heap (TWAP.mgr (TWAP.store s l i lg w t)) !! l = Some i.
Proof.
  intros H. unfold TWAP.store. cbn [TWAP.heap TWAP.mgr].
  apply list_lookup_insert_eq. eapply lookup_lt_Some; exact H.
Qed.

(** The completion summary, printed. *)
Lemma thread_prints_summary now w s t i :
  TWAP.threads s !! w = Some t -> TWAP.w_at t = TWAP.Summary ->
  TWAP.heap (TWAP.mgr s) !! TWAP.w_info t = Some i ->
  TWAP._execute_twap_step X now w s
  = TWAP.store s (TWAP.w_info t) i (TWAP.log s) w (TWAP.stop t).
Proof.
  intros Ht Hat Hi. unfold TWAP._execute_twap_step. rewrite Ht, Hi, Hat.
  unfold TWAP._display_twap_completion.
  pose proof (Hprint (TWAP.log s) "TWAP ORDER COMPLETED") as Hp.
  destruct (x_print X _ _); [reflexivity|discriminate Hp].
Qed.

Variables (s0 : TWAP.system) (w l : nat) (id sym sd : string).
Variables (T : B64.float) (n : Z) (i0 : TWAP.info) (now : Z).

Let cs := B64.div T (B64.of_Z n).

Hypothesis Hn : 2 <= n <= 100.
Hypothesis Hthread : TWAP.threads s0 !! w
  = Some {| TWAP.w_twap_id := id; TWAP.w_info := l; TWAP.w_range := n;
            TWAP.w_chunk := 0; TWAP.w_at := TWAP.Loop |}.
Hypothesis Hflag : default false (TWAP.stop_flags (TWAP.mgr s0) !! id) = false.
Hypothesis Hheap : TWAP.heap (TWAP.mgr s0) !! l = Some i0.
Hypothesis Hi0 :
  TWAP.symbol i0 = sym /\ TWAP.side i0 = sd /\ TWAP.total_quantity i0 = T
  /\ TWAP.chunk_size i0 = cs /\ TWAP.num_chunks i0 = n
  /\ TWAP.price_limit i0 = None /\ TWAP.status i0 = "ACTIVE"
  /\ TWAP.executed_chunks i0 = 0 /\ TWAP.executed_quantity i0 = B64.zero
  /\ TWAP.orders i0 = [].

(** The state after [j] passes of the loop, [j] below the number of
    chunks: [j] orders of size [chunk_size] have been placed and added up. *)
Lemma twap_passes (j : nat) :
  Z.of_nat j <= n - 1 ->
  let s := Nat.iter j (TWAP._execute_twap_step X now w) s0 in
  TWAP.threads s !! w
  = Some {| TWAP.w_twap_id := id; TWAP.w_info := l; TWAP.w_range := n;
            TWAP.w_chunk := Z.of_nat j; TWAP.w_at := TWAP.Loop |}
  /\ TWAP.stop_flags (TWAP.mgr s) = TWAP.stop_flags (TWAP.mgr s0)
  /\ placed (TWAP.log s)
     = placed (TWAP.log s0) ++ replicate j (TWAP.market_request sym sd cs)
  /\ exists i,
      TWAP.heap (TWAP.mgr s) !! l = Some i
      /\ TWAP.symbol i = sym /\ TWAP.side i = sd /\ TWAP.total_quantity i = T
      /\ TWAP.chunk_size i = cs /\ TWAP.num_chunks i = n
      /\ TWAP.price_limit i = None /\ TWAP.status i = "ACTIVE"
      /\ TWAP.executed_chunks i = Z.of_nat j
      /\ TWAP.executed_quantity i
         = Nat.iter j (fun x => B64.add x cs) B64.zero
      /\ length (TWAP.orders i) = j.
Proof.
  induction j as [|j IH]; intros Hj; cbv zeta.
  - cbn [Nat.iter nat_rect]. split; [exact Hthread|]. split; [reflexivity|].
    split; [cbn; rewrite app_nil_r; reflexivity|].
    exists i0. destruct Hi0 as (H1 & H2 & H3 & H4 & H5 & H6 & H7 & H8 & H9 & H10).
    rewrite H10. repeat split; assumption.
  - destruct IH as (Ht & Hf & Hp & i & Hi & H1 & H2 & H3 & H4 & H5 & H6 & H7
                    & H8 & H9 & H10); [lia|].
    rewrite Nat.iter_succ.
    set (s := Nat.iter j (TWAP._execute_twap_step X now w) s0) in *.
    unfold TWAP._execute_twap_step. rewrite Ht.
    cbn [TWAP.w_at TWAP.w_info TWAP.w_chunk TWAP.w_range TWAP.w_twap_id].
    rewrite Hi.
    assert (Hlt : (Z.of_nat j <? n) = true) by (apply Z.ltb_lt; lia).
    rewrite Hlt.
    destruct (loop_pass_fills (TWAP.stop_flags (TWAP.mgr s)) id (Z.of_nat j) i
                (TWAP.log s)) as (o & Hpass & Hq);
      [rewrite Hf; exact Hflag|exact H6|].
    rewrite Hpass.
    assert (Hplan : TWAP.planned_quantity i (Z.of_nat j) = cs).
    { unfold TWAP.planned_quantity. rewrite H5, H4.
      assert (Hne : (Z.of_nat j =? n - 1) = false) by (apply Z.eqb_neq; lia).
      rewrite Hne. reflexivity. }
    rewrite Hplan in *.
    unfold TWAP.store. cbn [TWAP.threads TWAP.mgr TWAP.heap TWAP.stop_flags TWAP.log].
    split.
    { rewrite list_lookup_insert_eq by (eapply lookup_lt_Some; exact Ht).
      unfold TWAP.next. cbn. do 2 f_equal. lia. }
    split; [exact Hf|].
    split.
    { rewrite placed_snoc, Hp, H1, H2, <- app_assoc. f_equal.
      change [TWAP.market_request sym sd cs]
        with (replicate 1 (TWAP.market_request sym sd cs)).
      rewrite <- replicate_add. f_equal. lia. }
    eexists. split.
    { apply list_lookup_insert_eq. eapply lookup_lt_Some; exact Hi. }
    destruct Hq as [Hq Hread].
    destruct (record_chunk_read i cs o cs Hq Hread)
      as (R1 & R2 & R3 & R4 & R5 & R6 & R7 & R8 & R9 & R10).
    rewrite R1, R2, R3, R4, R5, R6, R7, R8, R9, R10, H9, H8, length_app, H10.
    repeat split; try assumption; cbn; lia.
Qed.

Hypothesis HvalidT : valid_binary 53 1024 T = true.
Hypothesis HquantityT : OrderValidator.validate_quantity T = true.

(** The whole run: the last chunk is what remains, the quantities add up to
    [total_quantity] without rounding error, and the run ends [COMPLETED]. *)
Lemma twap_run_fills :
  let E := Nat.iter (Z.to_nat (n - 1)) (fun x => B64.add x cs) B64.zero in
  let s := TWAP._execute_twap X now w s0 in
  placed (TWAP.log s)
  = placed (TWAP.log s0)
    ++ replicate (Z.to_nat (n - 1)) (TWAP.market_request sym sd cs)
    ++ [TWAP.market_request sym sd (B64.sub T E)]
  /\ exists i,
      TWAP.heap (TWAP.mgr s) !! l = Some i
      /\ TWAP.status i = "COMPLETED"
      /\ TWAP.chunk_size i = cs
      /\ TWAP.total_quantity i = T
      /\ TWAP.executed_chunks i = n
      /\ TWAP.executed_quantity i = T
      /\ length (TWAP.orders i) = Z.to_nat n.
Proof.
  intros E s. subst s. unfold TWAP._execute_twap. rewrite Hthread.
  cbn [TWAP.w_range TWAP.w_chunk]. rewrite Z.sub_0_r.
  replace (Z.to_nat n) with (S (Z.to_nat (n - 1))) by lia.
  rewrite !Nat.iter_succ.
  destruct (twap_passes (Z.to_nat (n - 1)) ltac:(lia))
    as (Ht & Hf & Hp & i & Hi & H1 & H2 & H3 & H4 & H5 & H6 & H7 & H8 & H9 & H10).
  set (s := Nat.iter (Z.to_nat (n - 1)) (TWAP._execute_twap_step X now w) s0) in *.
  fold E in H9. rewrite Z2Nat.id in Ht, H8 by lia.
  (* the last pass *)
  assert (Hlast : exists o,
    TWAP._execute_twap_step X now w s
    = TWAP.store s l (TWAP.record_chunk i (B64.sub T E) o)
        (TWAP.log s ++ [PlaceOrder (TWAP.market_request sym sd (B64.sub T E))])
        w {| TWAP.w_twap_id := id; TWAP.w_info := l; TWAP.w_range := n;
             TWAP.w_chunk := n; TWAP.w_at := TWAP.Loop |}
    /\ to_float (default (Number (B64.sub T E)) (executedQty o))
       = Ok (B64.sub T E)
    /\ is_ok (TWAP.fills_value (fills o)) = true).
  { unfold TWAP._execute_twap_step. rewrite Ht.
    cbn [TWAP.w_at TWAP.w_info TWAP.w_chunk TWAP.w_range TWAP.w_twap_id].
    rewrite Hi.
    assert (Hlt : (n - 1 <? n) = true) by (apply Z.ltb_lt; lia).
    rewrite Hlt.
    destruct (loop_pass_fills (TWAP.stop_flags (TWAP.mgr s)) id (n - 1) i
                (TWAP.log s)) as (o & Hpass & Hq);
      [rewrite Hf; exact Hflag|exact H6|].
    rewrite Hpass.
    assert (Hplan : TWAP.planned_quantity i (n - 1) = B64.sub T E).
    { unfold TWAP.planned_quantity. rewrite H5, H3, H9, Z.eqb_refl. reflexivity. }
    rewrite Hplan in *. rewrite H1, H2. exists o. split; [|exact Hq].
    unfold TWAP.next. cbn. do 3 f_equal. lia. }
  destruct Hlast as (o & -> & Hq & Hread).
  (* the statements after the loop *)
  set (t' := {| TWAP.w_twap_id := id; TWAP.w_info := l; TWAP.w_range := n;
                TWAP.w_chunk := n; TWAP.w_at := TWAP.Loop |}).
  set (i' := TWAP.record_chunk i (B64.sub T E) o).
  set (lg' := TWAP.log s ++ [PlaceOrder (TWAP.market_request sym sd (B64.sub T E))]).
  set (sa := TWAP.store s l i' lg' w t').
  assert (Hta : TWAP.threads sa !! w = Some t')
    by (eapply store_lookup_thread; exact Ht).
  assert (Hia : TWAP.heap (TWAP.mgr sa) !! l = Some i')
    by (eapply store_lookup_heap; exact Hi).
  rewrite (thread_leaves_loop X now w sa t' i');
    [|exact Hta|reflexivity|exact Hia|cbn; lia].
  set (sb := TWAP.store sa (TWAP.w_info t') (TWAP.completed now i')
               (TWAP.log sa) w (TWAP.leave t')).
  assert (Htb : TWAP.threads sb !! w = Some (TWAP.leave t'))
    by (eapply store_lookup_thread; exact Hta).
  assert (Hib : TWAP.heap (TWAP.mgr sb) !! l = Some (TWAP.completed now i'))
    by (eapply (store_lookup_heap sa l); exact Hia).
  rewrite (thread_prints_summary now w sb (TWAP.leave t') (TWAP.completed now i'));
    [|exact Htb|reflexivity|exact Hib].
  split.
  { change (placed lg' = placed (TWAP.log s0)
              ++ replicate (Z.to_nat (n - 1)) (TWAP.market_request sym sd cs)
              ++ [TWAP.market_request sym sd (B64.sub T E)]).
    unfold lg'. rewrite placed_snoc, Hp, <- app_assoc. reflexivity. }
  exists (TWAP.completed now i'). split.
  { eapply (store_lookup_heap sb l). exact Hib. }
  destruct (record_chunk_read i (B64.sub T E) o (B64.sub T E) Hq Hread)
    as (R1 & R2 & R3 & _ & _ & R6 & R7 & _ & _ & _).
  fold i' in R1, R2, R3, R6, R7.
  cbn [TWAP.completed TWAP.with_status
       TWAP.status TWAP.executed_chunks TWAP.executed_quantity TWAP.orders
       TWAP.chunk_size TWAP.total_quantity].
  rewrite R1, R2, R3, R6, R7, H9, H8, length_app, H10.
  split; [reflexivity|]. split; [exact H4|]. split; [exact H3|].
  split; [lia|]. split; [|cbn; lia].
  exact (chunks_sum_exact T n HvalidT HquantityT Hn).
Qed.

End TwapFullRun.

(** What a successful [place_twap_order] has checked and built. *)
Lemma place_twap_ok (X : exchange) symbol side T n interval price_limit
    randomize now s l s1 :
  TWAP.place_twap_order X symbol side T n interval price_limit randomize now s
  = (Ok l, s1) ->
  let sym := Str.strip (Str.upper symbol) in
  let sd := Str.strip (Str.upper side) in
  let id := "TWAP_" +:+ sym +:+ "_" +:+ pretty now in
  TWAP._validate_twap_order sym sd T n interval = true
  /\ l = length (TWAP.heap (TWAP.mgr s))
  /\ TWAP.threads s1
     = TWAP.threads s
       ++ [{| TWAP.w_twap_id := id; TWAP.w_info := l; TWAP.w_range := n;
              TWAP.w_chunk := 0; TWAP.w_at := TWAP.Loop |}]
  /\ TWAP.stop_flags (TWAP.mgr s1) = <[id := false]> (TWAP.stop_flags (TWAP.mgr s))
  /\ TWAP.active_twap_orders (TWAP.mgr s1)
     = <[id := l]> (TWAP.active_twap_orders (TWAP.mgr s))
  /\ TWAP.heap (TWAP.mgr s1)
     = TWAP.heap (TWAP.mgr s)
       ++ [{| TWAP.twap_id := id; TWAP.symbol := sym; TWAP.side := sd;
              TWAP.total_quantity := T;
              TWAP.chunk_size := B64.div T (B64.of_Z n);
              TWAP.num_chunks := n; TWAP.interval_seconds := interval;
              TWAP.price_limit := price_limit; TWAP.randomize := randomize;
              TWAP.start_time := now;
              TWAP.executed_chunks := 0; TWAP.executed_quantity := B64.zero;
              TWAP.total_value := B64.zero; TWAP.orders := [];
              TWAP.status := "ACTIVE";
              TWAP.end_time := None; TWAP.error := None |}].
Proof.
  cbv zeta. unfold TWAP.place_twap_order. cbn [Logger.log_order_attempt].
  destruct (TWAP._validate_twap_order _ _ T n interval) eqn:Hv; cbn [negb];
    [|discriminate].
  unfold Client.test_connectivity, Client.get_symbol_price.
  destruct (x_ping X (TWAP.log s)); cbn [negb]; [|discriminate].
  destruct (TWAP._display_twap_start X _ _); [|discriminate].
  intros H. injection H as <- <-. cbn. repeat split.
Qed.

Lemma validate_twap_inv symbol side T n interval :
  TWAP._validate_twap_order symbol side T n interval = true ->
  OrderValidator.validate_symbol symbol = true
  /\ OrderValidator.validate_side side = true
  /\ OrderValidator.validate_quantity T = true
  /\ 2 <= n <= 100 /\ 10 <= interval.
Proof.
  unfold TWAP._validate_twap_order.
  destruct (OrderValidator.validate_symbol symbol); [|discriminate].
  destruct (OrderValidator.validate_side side); [|discriminate].
  destruct (OrderValidator.validate_quantity T); [|discriminate].
  cbn [andb negb].
  destruct (Z.ltb_spec n 2); [discriminate|].
  destruct (Z.ltb_spec 100 n); [discriminate|].
  destruct (Z.ltb_spec interval 10); [discriminate|].
  intros _. repeat split; lia.
Qed.

(** A number compares equal to itself. *)
Lemma eqb_refl (x : B64.float) : B64.is_nan x = false -> B64.eqb x x = true.
Proof.
  unfold B64.eqb, SFeqb. destruct x as [s|s| |s m e]; try discriminate; intros _.
  - reflexivity.
  - destruct s; reflexivity.
  - cbn. rewrite Z.compare_refl, Pos.compare_cont_refl. destruct s; reflexivity.
Qed.

(** C6, as the code has it. The quantity planned for a chunk is
    [chunk_size], and for the last chunk [total_quantity] minus the executed
    quantity. A run placed without price limit, on an exchange that accepts
    every order and reports the quantity requested as executed in a reply
    that can be read, with its waits and its prints undisturbed and no stop
    requested, submits [num_chunks - 1]
    market orders of [total_quantity / num_chunks] and a last one of
    [total_quantity] minus what was executed; it ends [COMPLETED] with
    [num_chunks] executed chunks, and the binary64 sum of the executed
    quantities is [total_quantity] itself, without rounding error: the two
    compare equal when [total_quantity] is a number. *)
Theorem twap_chunks_sum_to_total (X : exchange) symbol side T n interval
    randomize now now' s l s1 :
  valid_binary 53 1024 T = true ->
  (forall lg rq, exists o,
      x_place X lg rq = Ok o
      /\ to_float (default (Number (rq_quantity rq)) (executedQty o))
         = Ok (rq_quantity rq)
      /\ is_ok (TWAP.fills_value (fills o)) = true) ->
  (forall lg, is_ok (x_sleep X lg) = true) ->
  (forall lg h, is_ok (x_print X lg h) = true) ->
  TWAP.place_twap_order X symbol side T n interval None randomize now s
  = (Ok l, s1) ->
  let sym := Str.strip (Str.upper symbol) in
  let sd := Str.strip (Str.upper side) in
  let cs := B64.div T (B64.of_Z n) in
  let E := Nat.iter (Z.to_nat (n - 1)) (fun x => B64.add x cs) B64.zero in
  let s2 := TWAP._execute_twap X now' (length (TWAP.threads s)) s1 in
  2 <= n
  /\ (forall i k,
        TWAP.planned_quantity i k
        = if k =? TWAP.num_chunks i - 1
          then B64.sub (TWAP.total_quantity i) (TWAP.executed_quantity i)
          else TWAP.chunk_size i)
  /\ placed (TWAP.log s2)
     = placed (TWAP.log s1)
       ++ replicate (Z.to_nat (n - 1)) (TWAP.market_request sym sd cs)
       ++ [TWAP.market_request sym sd (B64.sub T E)]
  /\ B64.add E (B64.sub T E) = T
  /\ exists i,
      TWAP.heap (TWAP.mgr s2) !! l = Some i
      /\ TWAP.status i = "COMPLETED"
      /\ TWAP.chunk_size i = cs
      /\ TWAP.executed_chunks i = n
      /\ TWAP.executed_quantity i = T
      /\ (B64.is_nan T = false
          -> B64.eqb (TWAP.executed_quantity i) (TWAP.total_quantity i) = true)
      /\ length (TWAP.orders i) = Z.to_nat n.
Proof.
  intros Hvalid Hfill Hsleep Hprint Hplace.
  destruct (place_twap_ok X _ _ _ _ _ _ _ _ _ _ _ Hplace)
    as (Hv & Hl & Ht & Hf & _ & Hh).
  destruct (validate_twap_inv _ _ _ _ _ Hv) as (_ & _ & Hq & Hn & _).
  cbv zeta.
  split; [lia|]. split; [intros i k; reflexivity|].
  pose proof (twap_run_fills X Hfill Hsleep Hprint s1 (length (TWAP.threads s)) l
            ("TWAP_" +:+ Str.strip (Str.upper symbol) +:+ "_" +:+ pretty now)
            (Str.strip (Str.upper symbol)) (Str.strip (Str.upper side)) T n) as H.
  cbv zeta in H.
  edestruct (fun i0 => H i0 now' Hn)
    as (Hp & i & Hi & Hst & Hcs & Htot & Hch & Hex & Hlen).
  - rewrite Ht, lookup_app_r, Nat.sub_diag by lia. reflexivity.
  - rewrite Hf, lookup_insert_eq. reflexivity.
  - rewrite Hh, Hl, lookup_app_r, Nat.sub_diag by lia. reflexivity.
  - cbn. repeat split.
  - exact Hvalid.
  - exact Hq.
  - split; [exact Hp|].
    split; [exact (chunks_sum_exact T n Hvalid Hq Hn)|].
    exists i. split; [exact Hi|]. split; [exact Hst|]. split; [exact Hcs|].
    split; [exact Hch|]. split; [exact Hex|]. split; [|exact Hlen].
    intros Hnan. rewrite Hex, Htot. apply eqb_refl. exact Hnan.
Qed.

(** One bitcoin bought in four chunks. *)
Lemma twap_chunks_sum_to_total_witness :
  let X := Mock.filling (B64.of_Z 50000) in
  let s1 := (TWAP.place_twap_order X "btcusdt" " buy" (B64.of_Z 1) 4 10 None
               true 1700000000 TWAP.init).2 in
  let s2 := TWAP._execute_twap X 1700000040 0 s1 in
  exists i,
    TWAP.heap (TWAP.mgr s2) !! 0%nat = Some i
    /\ TWAP.status i = "COMPLETED"
    /\ TWAP.chunk_size i = B64.lit 1 4
    /\ TWAP.executed_chunks i = 4
    /\ TWAP.executed_quantity i = B64.of_Z 1
    /\ length (TWAP.orders i) = 4%nat.
Proof.
  intros X s1 s2.
  destruct (twap_chunks_sum_to_total X "btcusdt" " buy" (B64.of_Z 1) 4 10
              true 1700000000 1700000040 TWAP.init 0%nat s1)
    as (_ & _ & _ & _ & i & Hi & Hst & Hcs & Hch & Hex & _ & Hlen).
  - vm_compute. reflexivity.
  - intros lg rq. eexists. split; [reflexivity|split; reflexivity].
  - intros lg. reflexivity.
  - intros lg h. reflexivity.
  - vm_compute. reflexivity.
  - exists i. repeat split; assumption.
Defined.

(** C6 as stated fails in two ways. On an exchange that fills every order
    as requested, but with standard output closed when the message of a
    chunk is to be printed, no chunk is added to the executed quantity: the
    run of four chunks for a total of 1 sends 0.25 three times and then the
    whole 1, that is 1.75 in all, and ends [COMPLETED]. And a total quantity
    that is not a number passes the validation, each of its comparisons
    being false: the run is placed and executed, and neither does the
    executed quantity compare equal to the total quantity, nor any chunk
    quantity to [total_quantity / num_chunks]. *)
Lemma twap_chunks_sum_counterexample :
  let Y := Mock.silenced "TWAP Chunk executed" (B64.of_Z 50000) in
  let r1 := (TWAP.place_twap_order Y "BTCUSDT" "BUY" (B64.of_Z 1) 4 10 None
               false 1700000000 TWAP.init).2 in
  let r2 := TWAP._execute_twap Y 1700000040 0 r1 in
  let X := Mock.filling (B64.of_Z 50000) in
  let nan : B64.float := S754_nan in
  let out := TWAP.place_twap_order X "BTCUSDT" "BUY" nan 2 10 None false
               1700000000 TWAP.init in
  let s2 := TWAP._execute_twap X 1700000020 0 out.2 in
  let seen s :=
    TWAP.read (TWAP.get_twap_status "TWAP_BTCUSDT_1700000000" s) s in
  (forall lg rq, exists o,
      x_place Y lg rq = Ok o
      /\ executedQty o = Some (Number (rq_quantity rq)))
  /\ rq_quantity <$> placed (TWAP.log r2)
     = [B64.lit 1 4; B64.lit 1 4; B64.lit 1 4; B64.of_Z 1]
  /\ fold_left B64.add (rq_quantity <$> placed (TWAP.log r2)) B64.zero
     = B64.lit 7 4
  /\ (TWAP.status <$> seen r2) = Some "COMPLETED"%string
  /\ OrderValidator.validate_quantity nan = true
  /\ out.1 = Ok 0%nat
  /\ (TWAP.status <$> seen s2) = Some "COMPLETED"%string
  /\ (TWAP.executed_chunks <$> seen s2) = Some 2
  /\ ((fun i => B64.eqb (TWAP.executed_quantity i) (TWAP.total_quantity i))
        <$> seen s2) = Some false
  /\ ((fun rq => B64.eqb (rq_quantity rq) (B64.div nan (B64.of_Z 2)))
        <$> placed (TWAP.log s2)) = [false; false].
Proof.
  split; [intros lg rq; eexists; split; reflexivity|].
  vm_compute. repeat split.
Qed.

(** * Further properties of the code *)

(** ** Normalisation of symbols and sides: [s.upper().strip()] *)

Section Normalisation.

Lemma append_cons (c : ascii) (s t : string) :
  (String c s +:+ t)%string = String c (s +:+ t).
Proof. reflexivity. Qed.

Lemma append_nil_r (s : string) : (s +:+ "")%string = s.
Proof.
  induction s as [|c s IH]; [reflexivity|]. rewrite append_cons, IH. reflexivity.
Qed.

Lemma append_assoc (s t r : string) :
  ((s +:+ t) +:+ r)%string = (s +:+ (t +:+ r))%string.
Proof.
  induction s as [|c s IH]; [reflexivity|]. rewrite !append_cons, IH. reflexivity.
Qed.

Lemma rev_app_spec (s acc : string) :
  String.rev_app s acc = (String.rev s +:+ acc)%string.
Proof.
  unfold String.rev. revert acc.
  induction s as [|c s IH]; intros acc; [reflexivity|].
  cbn [String.rev_app]. rewrite IH, (IH (String c "")), append_assoc. reflexivity.
Qed.

Lemma rev_cons (c : ascii) (s : string) :
  String.rev (String c s) = (String.rev s +:+ String c "")%string.
Proof. unfold String.rev at 1. cbn [String.rev_app]. apply rev_app_spec. Qed.

Lemma rev_append (s t : string) :
  String.rev (s +:+ t) = (String.rev t +:+ String.rev s)%string.
Proof.
  induction s as [|c s IH].
  - change (""%string +:+ t)%string with t. change (String.rev "") with ""%string.
    rewrite append_nil_r. reflexivity.
  - rewrite append_cons, !rev_cons, IH, append_assoc. reflexivity.
Qed.

Lemma rev_involutive (s : string) : String.rev (String.rev s) = s.
Proof.
  induction s as [|c s IH]; [reflexivity|].
  rewrite rev_cons, rev_append, IH. reflexivity.
Qed.

Lemma upper_ascii_idem (c : ascii) :
  Str.upper_ascii (Str.upper_ascii c) = Str.upper_ascii c.
Proof. destruct c as [[] [] [] [] [] [] [] []]; reflexivity. Qed.

Lemma is_space_upper (c : ascii) :
  Str.is_space (Str.upper_ascii c) = Str.is_space c.
Proof. destruct c as [[] [] [] [] [] [] [] []]; reflexivity. Qed.

Lemma upper_idem (s : string) : Str.upper (Str.upper s) = Str.upper s.
Proof.
  induction s as [|c s IH]; cbn; [reflexivity|].
  rewrite upper_ascii_idem, IH. reflexivity.
Qed.

Lemma upper_append (s t : string) :
  Str.upper (s +:+ t) = (Str.upper s +:+ Str.upper t)%string.
Proof.
  induction s as [|c s IH]; [reflexivity|].
  rewrite append_cons. cbn [Str.upper]. rewrite IH. reflexivity.
Qed.

Lemma upper_rev (s : string) : Str.upper (String.rev s) = String.rev (Str.upper s).
Proof.
  induction s as [|c s IH]; [reflexivity|].
  cbn [Str.upper]. rewrite !rev_cons, upper_append, IH. reflexivity.
Qed.

Lemma upper_lstrip (s : string) :
  Str.upper (Str.lstrip s) = Str.lstrip (Str.upper s).
Proof.
  induction s as [|c s IH]; [reflexivity|].
  cbn [Str.lstrip Str.upper]. rewrite is_space_upper.
  destruct (Str.is_space c); [exact IH|reflexivity].
Qed.

Lemma upper_strip (s : string) :
  Str.upper (Str.strip s) = Str.strip (Str.upper s).
Proof.
  unfold Str.strip. rewrite upper_rev, upper_lstrip, upper_rev, upper_lstrip.
  reflexivity.
Qed.

(** A string that [lstrip] leaves alone: empty, or starting with a character
    that is not white space. *)
Lemma lstrip_fixed (s : string) :
  match s with String c _ => Str.is_space c = false | EmptyString => True end ->
  Str.lstrip s = s.
Proof. destruct s as [|c s]; [reflexivity|]. cbn. intros ->. reflexivity. Qed.

Lemma lstrip_head (s : string) :
  match Str.lstrip s with
  | String c _ => Str.is_space c = false
  | EmptyString => True
  end.
Proof.
  induction s as [|c s IH]; [exact I|]. cbn.
  destruct (Str.is_space c) eqn:Hc; [exact IH|exact Hc].
Qed.

Lemma lstrip_idem (s : string) : Str.lstrip (Str.lstrip s) = Str.lstrip s.
Proof. apply lstrip_fixed, lstrip_head. Qed.

Lemma lstrip_split (s : string) :
  exists p, s = (p +:+ Str.lstrip s)%string.
Proof.
  induction s as [|c s [p Hp]]; [exists ""%string; reflexivity|].
  cbn [Str.lstrip]. destruct (Str.is_space c).
  - exists (String c p). rewrite append_cons, <- Hp. reflexivity.
  - exists ""%string. reflexivity.
Qed.

Lemma strip_idem (s : string) : Str.strip (Str.strip s) = Str.strip s.
Proof.
  unfold Str.strip.
  set (a := Str.lstrip s). set (b := Str.lstrip (String.rev a)).
  assert (Hb : Str.lstrip (String.rev b) = String.rev b).
  { apply lstrip_fixed.
    destruct (lstrip_split (String.rev a)) as [p Hp]. fold b in Hp.
    assert (Ha : a = (String.rev b +:+ String.rev p)%string).
    { rewrite <- (rev_involutive a), Hp, rev_append. reflexivity. }
    pose proof (lstrip_head s) as Hh. fold a in Hh. rewrite Ha in Hh.
    destruct (String.rev b) as [|c r]; [exact I|exact Hh]. }
  rewrite Hb, rev_involutive. unfold b. rewrite lstrip_idem. reflexivity.
Qed.

Lemma normalise_idem (s : string) :
  Str.strip (Str.upper (Str.strip (Str.upper s))) = Str.strip (Str.upper s).
Proof. rewrite upper_strip, upper_idem, strip_idem. reflexivity. Qed.

Lemma validate_side_inv (s : string) :
  OrderValidator.validate_side s = true <->
  Str.strip (Str.upper s) = "BUY"%string \/ Str.strip (Str.upper s) = "SELL"%string.
Proof.
  unfold OrderValidator.validate_side, OrderValidator.VALID_SIDES.
  cbn [existsb]. rewrite orb_false_r, orb_true_iff, !String.eqb_eq. reflexivity.
Qed.

End Normalisation.

(** The normalisation [upper().strip()] that the strategy managers and
    the validators both apply is idempotent on ASCII texts, so that the
    validators judge the very strings that are sent to the exchange: a side
    accepted by [validate_side] is [BUY] or [SELL] once normalised, and a
    symbol accepted by [validate_symbol] consists, once normalised, of 6 to
    14 capital letters ending in [USDT]. *)
Theorem normalised_inputs_are_validated (s : string) :
  Str.is_ascii s = true ->
  let n := Str.strip (Str.upper s) in
  Str.strip (Str.upper n) = n
  /\ OrderValidator.validate_symbol n = OrderValidator.validate_symbol s
  /\ OrderValidator.validate_side n = OrderValidator.validate_side s
  /\ (OrderValidator.validate_side s = true
      <-> n = "BUY"%string \/ n = "SELL"%string)
  /\ (OrderValidator.validate_symbol s = true ->
      Str.all Str.is_upper_AZ n = true /\ Str.ends_with "USDT" n = true
      /\ (6 <= String.length n <= 14)%nat).
Proof.
  intros _ n.
  assert (Hn : Str.strip (Str.upper n) = n) by apply normalise_idem.
  split; [exact Hn|].
  split; [unfold OrderValidator.validate_symbol; rewrite Hn; reflexivity|].
  split; [unfold OrderValidator.validate_side; rewrite Hn; reflexivity|].
  split; [apply validate_side_inv|].
  unfold OrderValidator.validate_symbol. fold n.
  - unfold OrderValidator.SYMBOL_PATTERN_match. intros H.
    apply andb_prop in H as [H H4]. apply andb_prop in H as [H H3].
    apply andb_prop in H as [H1 H2].
    apply Nat.leb_le in H3. apply Nat.leb_le in H4. auto.
Qed.

Lemma normalised_inputs_are_validated_witness :
  Str.strip (Str.upper "  ethusdt ") = "ETHUSDT"%string
  /\ Str.all Str.is_upper_AZ (Str.strip (Str.upper "  ethusdt ")) = true
  /\ Str.ends_with "USDT" (Str.strip (Str.upper "  ethusdt ")) = true
  /\ (6 <= String.length (Str.strip (Str.upper "  ethusdt ")) <= 14)%nat.
Proof.
  split; [vm_compute; reflexivity|].
  apply (proj2 (proj2 (proj2 (proj2
           (normalised_inputs_are_validated "  ethusdt " eq_refl))))).
  vm_compute. reflexivity.
Defined.

(** ** The validators on binary64 numbers *)

Section Comparisons.

(** On two numbers, [x < y] fails exactly when [y <= x] holds. *)
Lemma leb_negb_ltb (x y : B64.float) :
  B64.is_nan x = false -> B64.is_nan y = false ->
  B64.leb y x = negb (B64.ltb x y).
Proof.
  intros Hx Hy. unfold B64.leb, B64.ltb, SFleb, SFltb.
  rewrite (SFcompare_antisym x y).
  destruct x as [sx|sx| |sx mx ex], y as [sy|sy| |sy my ey];
    try discriminate; cbn;
    try (destruct sx); try (destruct sy); cbn; try reflexivity;
    destruct (ex ?= ey); cbn; try reflexivity;
    destruct (Pos.compare_cont Eq mx my); reflexivity.
Qed.

End Comparisons.

(** What the validators accept. [validate_quantity] accepts the numbers
    from [MIN_QUANTITY] to [MAX_QUANTITY], bounds included, and
    not-a-number, on which each of its three comparisons is false; nothing
    else. [validate_price] with [required=True] rejects the absent price and
    accepts the positive numbers, infinity included, and not-a-number. *)
Theorem validators_accept :
  (forall q : B64.float,
      OrderValidator.validate_quantity q = true
      <-> B64.is_nan q = true
          \/ (B64.leb Config.MIN_QUANTITY q = true
              /\ B64.leb q Config.MAX_QUANTITY = true))
  /\ OrderValidator.validate_price None = false
  /\ (forall p : B64.float,
        OrderValidator.validate_price (Some p) = true
        <-> B64.is_nan p = true \/ B64.ltb B64.zero p = true).
Proof.
  split; [|split; [reflexivity|]].
  - intros q. unfold OrderValidator.validate_quantity.
    destruct (B64.is_nan q) eqn:Hnan.
    { destruct q; try discriminate Hnan. split; [left|]; reflexivity. }
    assert (Hmin : B64.is_nan Config.MIN_QUANTITY = false) by reflexivity.
    assert (Hmax : B64.is_nan Config.MAX_QUANTITY = false) by reflexivity.
    unfold B64.gtb. fold (B64.ltb Config.MAX_QUANTITY q).
    rewrite (leb_negb_ltb q Config.MIN_QUANTITY Hnan Hmin).
    rewrite (leb_negb_ltb Config.MAX_QUANTITY q Hmax Hnan).
    split.
    + intros H. right.
      destruct (B64.leb q B64.zero); [discriminate H|].
      destruct (B64.ltb q Config.MIN_QUANTITY); [discriminate H|].
      destruct (B64.ltb Config.MAX_QUANTITY q); [discriminate H|].
      split; reflexivity.
    + intros [H|[H1 H2]]; [discriminate H|].
      apply negb_true_iff in H1. apply negb_true_iff in H2. rewrite H1, H2.
      assert (H0 : B64.leb q B64.zero = false).
      { destruct q as [s|s| |s m e]; try discriminate Hnan.
        - discriminate H1.
        - destruct s; [discriminate H1|discriminate H2].
        - destruct s; [discriminate H1|reflexivity]. }
      rewrite H0. reflexivity.
  - intros p. unfold OrderValidator.validate_price.
    destruct (B64.is_nan p) eqn:Hnan.
    { destruct p; try discriminate Hnan. split; [left|]; reflexivity. }
    rewrite (leb_negb_ltb B64.zero p eq_refl Hnan).
    destruct (B64.ltb B64.zero p); cbn; split; auto.
    intros [H|H]; discriminate H.
Qed.

(** ** OCO: every outcome of [place_oco_order], and [cancel_oco_orders] *)

Section OcoOutcomes.
Variable X : exchange.

Lemma placed_app (lg lg' : list call) : placed (lg ++ lg') = placed lg ++ placed lg'.
Proof. unfold placed. apply omap_app. Qed.

Lemma cancels_app (lg lg' : list call) :
  cancels (lg ++ lg') = cancels lg ++ cancels lg'.
Proof. unfold cancels. apply omap_app. Qed.

(** A validated side is [BUY] or [SELL], and the protective orders go to
    the other one. *)
Lemma oco_opposite_side symbol side quantity tp sl limit :
  OCO._validate_oco_order (Str.strip (Str.upper symbol))
    (Str.strip (Str.upper side)) quantity tp sl limit = true ->
  let side' := Str.strip (Str.upper side) in
  let opposite := if String.eqb side' "BUY" then "SELL"%string else "BUY"%string in
  (side' = "BUY"%string /\ opposite = "SELL"%string)
  \/ (side' = "SELL"%string /\ opposite = "BUY"%string).
Proof.
  intros Hval. cbv zeta. unfold OCO._validate_oco_order in Hval.
  destruct (OrderValidator.validate_symbol _); [|discriminate Hval].
  destruct (OrderValidator.validate_side (Str.strip (Str.upper side))) eqn:Hs;
    [|discriminate Hval].
  apply validate_side_inv in Hs. rewrite normalise_idem in Hs.
  destruct Hs as [-> | ->]; [left|right]; split; reflexivity.
Qed.

(** One pass of the loop of [cancel_oco_orders]. *)
Lemma cancel_one_step symbol results lg order_id :
  exists r,
    OCOCancel.cancel_one X symbol (results, lg) order_id
    = (results ++ [r], lg ++ [CancelOrder symbol order_id])
    /\ OCOCancel.cr_order_id r = order_id
    /\ match x_cancel X lg symbol order_id with
       | Ok response =>
           OCOCancel.cr_status r = "CANCELLED"%string
           /\ OCOCancel.cr_response r = Some response
           /\ OCOCancel.cr_error r = None
       | Raise e =>
           OCOCancel.cr_status r = "CANCEL_FAILED"%string
           /\ OCOCancel.cr_response r = None
           /\ OCOCancel.cr_error r = Some (exn_str e)
       end.
Proof.
  unfold OCOCancel.cancel_one, Client.cancel_order.
  destruct (x_cancel X lg symbol order_id); eexists; repeat split.
Qed.

Lemma cancel_loop_spec symbol ids :
  forall results lg,
  exists rs,
    fold_left (OCOCancel.cancel_one X symbol) ids (results, lg)
    = (results ++ rs, lg ++ (CancelOrder symbol <$> ids))
    /\ OCOCancel.cr_order_id <$> rs = ids
    /\ forall (k : nat) (order_id : Z),
        ids !! k = Some order_id ->
        exists r,
          rs !! k = Some r
          /\ match x_cancel X (lg ++ (CancelOrder symbol <$> take k ids))
                     symbol order_id with
             | Ok response =>
                 OCOCancel.cr_status r = "CANCELLED"%string
                 /\ OCOCancel.cr_response r = Some response
                 /\ OCOCancel.cr_error r = None
             | Raise e =>
                 OCOCancel.cr_status r = "CANCEL_FAILED"%string
                 /\ OCOCancel.cr_response r = None
                 /\ OCOCancel.cr_error r = Some (exn_str e)
             end.
Proof.
  induction ids as [|id ids IH]; intros results lg.
  - exists []. cbn. rewrite !app_nil_r. split; [reflexivity|].
    split; [reflexivity|]. intros k order_id Hk. discriminate Hk.
  - cbn [fold_left].
    destruct (cancel_one_step symbol results lg id) as (r & -> & Hid & Hr).
    destruct (IH (results ++ [r]) (lg ++ [CancelOrder symbol id]))
      as (rs & -> & Hids & Hk).
    exists (r :: rs). rewrite <- !app_assoc. split; [reflexivity|].
    split; [cbn; rewrite Hid, Hids; reflexivity|].
    intros [|k] order_id Hlook; cbn in Hlook.
    + injection Hlook as <-. exists r. split; [reflexivity|].
      cbn. rewrite app_nil_r. exact Hr.
    + destruct (Hk k order_id Hlook) as (r' & Hr' & Hm).
      exists r'. split; [exact Hr'|].
      cbn [take fmap list_fmap]. rewrite <- app_assoc in Hm. exact Hm.
Qed.

End OcoOutcomes.

(** The outcomes of [place_oco_order] on ASCII texts. It returns a pair of
    orders, a take-profit limit order and a stop order, both on the side
    opposite to the one given, and has then sent no cancellation. Or it
    raises: without
    any order having been accepted and without sending a cancellation; or
    after the take-profit order was accepted and the stop order refused,
    having then sent one cancellation, for the take-profit order; or,
    when the summary cannot be printed, after both orders were accepted,
    and then without cancelling either. It never returns a single leg. *)
Theorem oco_outcomes :
  forall (X : exchange) (symbol side : string) (quantity tp sl : B64.float)
         (stop_limit : option B64.float) (now : Z) (log : list call),
    Str.is_ascii symbol = true -> Str.is_ascii side = true ->
    let symbol' := Str.strip (Str.upper symbol) in
    let side' := Str.strip (Str.upper side) in
    let limit' := default sl stop_limit in
    let opposite := if String.eqb side' "BUY" then "SELL"%string else "BUY"%string in
    let rq1 := OCO.tp_request symbol' opposite quantity tp in
    let rq2 := OCO.sl_request symbol' opposite quantity sl limit' in
    let log0 := (log ++ [Ping]) ++ [GetSymbolPrice symbol'] in
    let out := OCO.place_oco_order X symbol side quantity tp sl stop_limit now log in
    match fst out with
    | Ok r =>
        exists o1 o2,
          r = {| OCO.oco_id := "OCO_" +:+ pretty now; OCO.symbol := symbol';
                 OCO.quantity := quantity;
                 OCO.orders :=
                   [{| OCO.leg_type := "TAKE_PROFIT"; OCO.leg_order := o1 |};
                    {| OCO.leg_type := "STOP_LOSS"; OCO.leg_order := o2 |}] |}
          /\ x_place X log0 rq1 = Ok o1
          /\ x_place X (log0 ++ [PlaceOrder rq1]) rq2 = Ok o2
          /\ placed (snd out) = placed log ++ [rq1; rq2]
          /\ cancels (snd out) = cancels log
          /\ opposite <> side'
    | Raise e =>
        (placed (snd out) = placed log /\ cancels (snd out) = cancels log)
        \/ (x_place X log0 rq1 = Raise e
            /\ placed (snd out) = placed log ++ [rq1]
            /\ cancels (snd out) = cancels log)
        \/ (exists o1,
              x_place X log0 rq1 = Ok o1
              /\ x_place X (log0 ++ [PlaceOrder rq1]) rq2 = Raise e
              /\ placed (snd out) = placed log ++ [rq1; rq2]
              /\ cancels (snd out) = cancels log ++ [(symbol', orderId o1)])
        \/ (exists o1 o2,
              x_place X log0 rq1 = Ok o1
              /\ x_place X (log0 ++ [PlaceOrder rq1]) rq2 = Ok o2
              /\ x_print X (snd out) "OCO (ONE-CANCELS-THE-OTHER) ORDERS PLACED"
                 = Raise e
              /\ placed (snd out) = placed log ++ [rq1; rq2]
              /\ cancels (snd out) = cancels log)
    end.
Proof.
  intros X symbol side quantity tp sl stop_limit now log _ _
         symbol' side' limit' opposite rq1 rq2 log0 out.
  subst out. unfold OCO.place_oco_order. cbn [Logger.log_order_attempt].
  fold symbol' side' limit'.
  destruct (OCO._validate_oco_order symbol' side' quantity tp sl limit') eqn:Hval;
    cbn [negb]; [|left; split; reflexivity].
  unfold Client.test_connectivity.
  destruct (x_ping X log); cbn [negb fst snd].
  2:{ left. rewrite placed_app, cancels_app. cbn. rewrite ?app_nil_r.
      split; reflexivity. }
  unfold Client.get_symbol_price, OCO._place_simulated_oco, Client.place_order.
  fold opposite. fold rq1 rq2. fold log0.
  assert (Hp0 : placed log0 = placed log).
  { unfold log0. rewrite !placed_app. cbn. rewrite ?app_nil_r. reflexivity. }
  assert (Hc0 : cancels log0 = cancels log).
  { unfold log0. rewrite !cancels_app. cbn. rewrite ?app_nil_r. reflexivity. }
  destruct (x_place X log0 rq1) as [o1|e1] eqn:H1.
  - destruct (x_place X (log0 ++ [PlaceOrder rq1]) rq2) as [o2|e2] eqn:H2.
    + unfold OCO._display_oco_summary.
      destruct (x_print X _ _) as [u|e] eqn:Hpr; cbn [fst snd].
      * exists o1, o2.
        split; [reflexivity|]. split; [reflexivity|]. split; [reflexivity|].
        split; [rewrite !placed_app, Hp0, <- app_assoc; reflexivity|].
        split; [rewrite !cancels_app, Hc0; cbn; rewrite ?app_nil_r; reflexivity|].
        unfold opposite, side'.
        destruct (oco_opposite_side symbol side quantity tp sl limit' Hval)
          as [[Hs Ho]|[Hs Ho]]; rewrite Ho, Hs; discriminate.
      * right. right. right. exists o1, o2.
        split; [reflexivity|]. split; [reflexivity|]. split; [exact Hpr|].
        split; [rewrite !placed_app, Hp0, <- app_assoc; reflexivity|].
        rewrite !cancels_app, Hc0; cbn; rewrite ?app_nil_r; reflexivity.
    + unfold OCO.rollback, OCO.append_leg. cbn [OCO.orders app fst snd].
      unfold Client.cancel_order. cbn [fst snd OCO.leg_order].
      right. right. left. exists o1.
      split; [reflexivity|]. split; [reflexivity|].
      split; [rewrite !placed_app, Hp0; cbn; rewrite ?app_nil_r, <- ?app_assoc;
              reflexivity|].
      rewrite !cancels_app, Hc0. cbn. rewrite ?app_nil_r. reflexivity.
  - unfold OCO.rollback. cbn [OCO.orders fst snd].
    right. left. split; [reflexivity|].
    split; [rewrite placed_app, Hp0; reflexivity|].
    rewrite cancels_app, Hc0. cbn. rewrite ?app_nil_r. reflexivity.
Qed.

(** A buy position protected at 52000 and 48000: two sell orders, no
    cancellation. *)
Lemma oco_outcomes_witness :
  let out := OCO.place_oco_order (Mock.filling (B64.of_Z 50000)) "btcusdt"
               " buy" (B64.lit 1 100) (B64.of_Z 52000) (B64.of_Z 48000) None
               1700000000 [] in
  is_ok (fst out) = true
  /\ cancels (snd out) = []
  /\ rq_side <$> placed (snd out) = ["SELL"; "SELL"]%string.
Proof.
  intros out.
  pose proof (oco_outcomes (Mock.filling (B64.of_Z 50000)) "btcusdt" " buy"
                (B64.lit 1 100) (B64.of_Z 52000) (B64.of_Z 48000) None
                1700000000 [] eq_refl eq_refl) as H.
  cbv zeta in H. fold out in H.
  destruct (fst out) as [r|e] eqn:Hr; [|vm_compute in Hr; discriminate Hr].
  destruct H as (o1 & o2 & _ & _ & _ & Hp & Hc & _).
  split; [reflexivity|]. split; [exact Hc|]. rewrite Hp. vm_compute.
  reflexivity.
Defined.

(** [cancel_oco_orders] never raises: it sends one cancellation for
    each order id, in the order given, whatever the earlier ones answered,
    and returns one entry per id, in the same order: [CANCELLED] with the
    response, or [CANCEL_FAILED] with the text of the error. *)
Theorem cancel_oco_orders_reports_each :
  forall (X : exchange) (symbol : string) (oco_orders : list Z) (log : list call),
    let out := OCOCancel.cancel_oco_orders X symbol oco_orders log in
    OCOCancel.cr_order_id <$> fst out = oco_orders
    /\ snd out = log ++ (CancelOrder symbol <$> oco_orders)
    /\ forall (k : nat) (order_id : Z),
        oco_orders !! k = Some order_id ->
        exists r,
          fst out !! k = Some r
          /\ match x_cancel X (log ++ (CancelOrder symbol <$> take k oco_orders))
                     symbol order_id with
             | Ok response =>
                 OCOCancel.cr_status r = "CANCELLED"%string
                 /\ OCOCancel.cr_response r = Some response
                 /\ OCOCancel.cr_error r = None
             | Raise e =>
                 OCOCancel.cr_status r = "CANCEL_FAILED"%string
                 /\ OCOCancel.cr_response r = None
                 /\ OCOCancel.cr_error r = Some (exn_str e)
             end.
Proof.
  intros X symbol oco_orders log. cbv zeta.
  unfold OCOCancel.cancel_oco_orders.
  destruct (cancel_loop_spec X symbol oco_orders [] log) as (rs & -> & H1 & H2).
  cbn [fst snd app]. split; [exact H1|]. split; [reflexivity|]. exact H2.
Qed.

(** ** TWAP: what every run dictionary satisfies *)

Section TwapCells.
Variable X : exchange.
Variable P : TWAP.info -> Prop.

(** [P] holds of a dictionary just built by [place_twap_order] and is kept
    by the writes of [_execute_twap]. *)
Hypothesis P_new : forall i,
  TWAP.status i = "ACTIVE" -> TWAP.executed_chunks i = 0 ->
  TWAP.executed_quantity i = B64.zero -> TWAP.orders i = [] ->
  TWAP.chunk_size i
  = B64.div (TWAP.total_quantity i) (B64.of_Z (TWAP.num_chunks i)) ->
  P i.
Hypothesis P_recorded : forall i q o, P i -> P (TWAP.record_chunk i q o).
Hypothesis P_completed : forall now i, P i -> P (TWAP.completed now i).
Hypothesis P_failed : forall e i, P i -> P (TWAP.failed e i).

Lemma loop_pass_keeps flags id k i lg :
  P i -> P (TWAP.loop_pass X flags id k i lg).1.1.
Proof.
  intros Hi. unfold TWAP.loop_pass.
  destruct (default false (flags !! id)); [exact Hi|].
  destruct (TWAP._execute_chunk X i (k + 1) (TWAP.planned_quantity i k) lg)
    as [[[o|]|e] lg']; cbn -[TWAP.record_chunk];
    repeat match goal with
           | |- context [if ?b then _ else _] => destruct b
           | |- context [match ?r with Ok _ => _ | Raise _ => _ end] => destruct r
           end; cbn -[TWAP.record_chunk]; auto.
Qed.

Lemma step_keeps now o s :
  (forall l i, TWAP.heap (TWAP.mgr s) !! l = Some i -> P i) ->
  forall l i, TWAP.heap (TWAP.mgr (TWAP.step X now o s)) !! l = Some i -> P i.
Proof.
  intros Hall l i. destruct o as [sy sd tq nc iv pl rz|id|id|w]; cbn [TWAP.step].
  - unfold TWAP.place_twap_order. cbn [Logger.log_order_attempt].
    destruct (negb (TWAP._validate_twap_order _ _ _ _ _)); [apply Hall|].
    unfold Client.test_connectivity, Client.get_symbol_price.
    destruct (negb (x_ping X (TWAP.log s))); [apply Hall|].
    assert (Hnew : forall i0,
              TWAP.status i0 = "ACTIVE" -> TWAP.executed_chunks i0 = 0 ->
              TWAP.executed_quantity i0 = B64.zero -> TWAP.orders i0 = [] ->
              TWAP.chunk_size i0
              = B64.div (TWAP.total_quantity i0) (B64.of_Z (TWAP.num_chunks i0)) ->
              (TWAP.heap (TWAP.mgr s) ++ [i0]) !! l = Some i -> P i).
    { intros i0 H1 H2 H3 H4 H5 Hl.
      apply lookup_app_Some in Hl as [Hl|[_ Hl]]; [exact (Hall l i Hl)|].
      apply list_lookup_singleton_Some in Hl as [_ <-].
      apply P_new; assumption. }
    destruct (TWAP._display_twap_start X _ _); cbn [snd TWAP.mgr TWAP.heap];
      apply Hnew; reflexivity.
  - destruct (stop_twap_shape id s) as (-> & _). apply Hall.
  - apply Hall.
  - unfold TWAP._execute_twap_step.
    destruct (TWAP.threads s !! w) as [t|]; [|apply Hall].
    destruct (TWAP.heap (TWAP.mgr s) !! TWAP.w_info t) as [i0|] eqn:Hi0;
      [|apply Hall].
    assert (Hstore : forall i' lg t',
              P i' ->
              TWAP.heap (TWAP.mgr (TWAP.store s (TWAP.w_info t) i' lg w t')) !! l
              = Some i -> P i).
    { intros i' lg t' Hi'. unfold TWAP.store. cbn [TWAP.mgr TWAP.heap].
      destruct (decide (TWAP.w_info t = l)) as [Heq|Hne].
      - rewrite Heq in *.
        rewrite list_lookup_insert_eq by (eapply lookup_lt_Some; exact Hi0).
        intros H. injection H as <-. exact Hi'.
      - rewrite list_lookup_insert_ne by congruence. apply Hall. }
    pose proof (Hall _ _ Hi0) as HP0.
    destruct (TWAP.w_at t); [| |apply Hall].
    + destruct (TWAP.w_chunk t <? TWAP.w_range t).
      * pose proof (loop_pass_keeps (TWAP.stop_flags (TWAP.mgr s))
                      (TWAP.w_twap_id t) (TWAP.w_chunk t) i0 (TWAP.log s) HP0)
          as Hk.
        destruct (TWAP.loop_pass X _ _ _ i0 (TWAP.log s)) as [[i' lg] [| |e]];
          cbn in Hk; apply Hstore; auto.
      * apply Hstore. auto.
    + destruct (TWAP._display_twap_completion X i0 (TWAP.log s));
        apply Hstore; auto.
Qed.

Lemma reachable_keeps s :
  TWAP.reachable X s ->
  forall l i, TWAP.heap (TWAP.mgr s) !! l = Some i -> P i.
Proof.
  induction 1 as [|s now o _ IH]; [intros l i H; discriminate H|].
  apply step_keeps. exact IH.
Qed.

End TwapCells.

(** What every run dictionary satisfies, in every reachable state: each
    entry of [orders] has been counted in [executed_chunks], which is not
    below zero (it is above the number of entries once a reply could not be
    read after it was counted); the chunk size is the total quantity divided
    by the number of chunks; and a run that is not [ACTIVE] is [COMPLETED]
    with an end time, or [FAILED] with an error. *)
Theorem twap_counters_agree :
  forall (X : exchange) (s : TWAP.system) (l : nat) (i : TWAP.info),
    TWAP.reachable X s ->
    TWAP.heap (TWAP.mgr s) !! l = Some i ->
    Z.of_nat (length (TWAP.orders i)) <= TWAP.executed_chunks i
    /\ TWAP.chunk_size i
       = B64.div (TWAP.total_quantity i) (B64.of_Z (TWAP.num_chunks i))
    /\ (TWAP.status i = "ACTIVE"
        \/ (TWAP.status i = "COMPLETED" /\ is_Some (TWAP.end_time i))
        \/ (TWAP.status i = "FAILED" /\ is_Some (TWAP.error i))).
Proof.
  intros X s l i Hreach Hl.
  refine (reachable_keeps X
            (fun i => Z.of_nat (length (TWAP.orders i)) <= TWAP.executed_chunks i
               /\ TWAP.chunk_size i
                  = B64.div (TWAP.total_quantity i) (B64.of_Z (TWAP.num_chunks i))
               /\ (TWAP.status i = "ACTIVE"
                   \/ (TWAP.status i = "COMPLETED" /\ is_Some (TWAP.end_time i))
                   \/ (TWAP.status i = "FAILED" /\ is_Some (TWAP.error i))))
            _ _ _ _ s Hreach l i Hl).
  - intros i0 Hst Hc _ Ho Hcs. rewrite Hc, Ho. cbn. split; [lia|]. auto.
  - intros i0 q o (Hc & Hcs & Hst). unfold TWAP.record_chunk. cbv zeta.
    destruct (to_float _); [|cbn; split; [lia|]; split; assumption].
    destruct (fills o);
      [cbn; rewrite length_app; cbn; split; [lia|]; split; assumption|].
    destruct (TWAP.fills_value _); cbn; rewrite ?length_app; cbn;
      (split; [lia|]); split; assumption.
  - intros now i0 (Hc & Hcs & Hst). cbn. do 2 (split; [assumption|]).
    right. left. split; [reflexivity|eexists; reflexivity].
  - intros e i0 (Hc & Hcs & Hst). cbn. do 2 (split; [assumption|]).
    right. right. split; [reflexivity|eexists; reflexivity].
Qed.

Lemma twap_counters_agree_witness :
  let X := Mock.filling (B64.of_Z 50000) in
  let s :=
    TWAP.run X
      [(1700000000, TWAP.Place "BTCUSDT" "BUY" (B64.of_Z 1) 4 10 None false);
       (1700000001, TWAP.Thread 0%nat); (1700000011, TWAP.Thread 0%nat)]
      TWAP.init in
  exists i, TWAP.heap (TWAP.mgr s) !! 0%nat = Some i
    /\ Z.of_nat (length (TWAP.orders i)) <= TWAP.executed_chunks i.
Proof.
  intros X s.
  destruct (TWAP.heap (TWAP.mgr s) !! 0%nat) as [i|] eqn:Hi;
    [|vm_compute in Hi; discriminate Hi].
  exists i. split; [reflexivity|].
  refine (proj1 (twap_counters_agree X s 0%nat i _ Hi)).
  subst s. cbn [TWAP.run fold_left fst snd]. repeat apply TWAP.reachable_step.
  apply TWAP.reachable_init.
Defined.

(** ** TWAP: when a summary or a message cannot be printed *)

Section TwapOrphan.
Variable X : exchange.



End TwapOrphan.



Section TwapUnprinted.
Variable X : exchange.

(** The exchange accepts every order and no wait is interrupted, but the
    message that follows the placement of a chunk cannot be printed. *)
Hypothesis Haccept : forall lg rq, is_ok (x_place X lg rq) = true.
Hypothesis Hsleep : forall lg, is_ok (x_sleep X lg) = true.
Hypothesis Hmute : forall lg, is_ok (x_print X lg "TWAP Chunk executed") = false.

(** The order is sent, the dictionary is not touched. *)
Lemma loop_pass_unprinted flags id k i lg :
  default false (flags !! id) = false -> TWAP.price_limit i = None ->
  TWAP.loop_pass X flags id k i lg
  = (i,
     lg ++ [PlaceOrder (TWAP.market_request (TWAP.symbol i) (TWAP.side i)
                          (TWAP.planned_quantity i k))],
     TWAP.Continue).
Proof.
  intros Hflag Hlimit. unfold TWAP.loop_pass, TWAP._execute_chunk.
  rewrite Hflag, Hlimit. unfold Client.place_order.
  pose proof (Haccept lg (TWAP.market_request (TWAP.symbol i) (TWAP.side i)
                            (TWAP.planned_quantity i k))) as Ha.
  destruct (x_place X lg _) as [o|e]; [|discriminate Ha].
  pose proof (Hmute (lg ++ [PlaceOrder (TWAP.market_request (TWAP.symbol i)
                        (TWAP.side i) (TWAP.planned_quantity i k))])) as Hm.
  destruct (x_print X _ _) as [u|e]; [discriminate Hm|].
  destruct (k <? TWAP.num_chunks i - 1); [|reflexivity].
  pose proof (Hsleep (lg ++ [PlaceOrder (TWAP.market_request (TWAP.symbol i)
                        (TWAP.side i) (TWAP.planned_quantity i k))])) as Hs.
  destruct (x_sleep X _); [reflexivity|discriminate Hs].
Qed.

(** The completion summary. *)
Lemma thread_summary now w s t i :
  TWAP.threads s !! w = Some t -> TWAP.w_at t = TWAP.Summary ->
  TWAP.heap (TWAP.mgr s) !! TWAP.w_info t = Some i ->
  TWAP._execute_twap_step X now w s
  = match TWAP._display_twap_completion X i (TWAP.log s) with
    | Ok _ => TWAP.store s (TWAP.w_info t) i (TWAP.log s) w (TWAP.stop t)
    | Raise e =>
        TWAP.store s (TWAP.w_info t) (TWAP.failed e i) (TWAP.log s) w (TWAP.stop t)
    end.
Proof.
  intros Ht Hat Hi. unfold TWAP._execute_twap_step. rewrite Ht, Hi, Hat.
  reflexivity.
Qed.

Variables (s0 : TWAP.system) (w l : nat) (id : string) (n : Z) (i0 : TWAP.info).
Variable now : Z.

Hypothesis Hn : 2 <= n.
Hypothesis Hthread : TWAP.threads s0 !! w
  = Some {| TWAP.w_twap_id := id; TWAP.w_info := l; TWAP.w_range := n;
            TWAP.w_chunk := 0; TWAP.w_at := TWAP.Loop |}.
Hypothesis Hflag : default false (TWAP.stop_flags (TWAP.mgr s0) !! id) = false.
Hypothesis Hheap : TWAP.heap (TWAP.mgr s0) !! l = Some i0.
Hypothesis Hlimit : TWAP.price_limit i0 = None.

Let request (k : Z) : order_request :=
  TWAP.market_request (TWAP.symbol i0) (TWAP.side i0) (TWAP.planned_quantity i0 k).

(** The state after [j] passes of the loop. *)
Lemma twap_passes_unprinted (j : nat) :
  Z.of_nat j <= n ->
  let s := Nat.iter j (TWAP._execute_twap_step X now w) s0 in
  TWAP.threads s !! w
  = Some {| TWAP.w_twap_id := id; TWAP.w_info := l; TWAP.w_range := n;
            TWAP.w_chunk := Z.of_nat j; TWAP.w_at := TWAP.Loop |}
  /\ TWAP.stop_flags (TWAP.mgr s) = TWAP.stop_flags (TWAP.mgr s0)
  /\ placed (TWAP.log s) = placed (TWAP.log s0) ++ (request <$> range (Z.of_nat j))
  /\ TWAP.heap (TWAP.mgr s) !! l = Some i0.
Proof.
  induction j as [|j IH]; intros Hj; cbv zeta.
  - cbn [Nat.iter nat_rect]. split; [exact Hthread|]. split; [reflexivity|].
    split; [cbn; rewrite app_nil_r; reflexivity|exact Hheap].
  - destruct IH as (Ht & Hf & Hp & Hi); [lia|].
    rewrite Nat.iter_succ.
    set (s := Nat.iter j (TWAP._execute_twap_step X now w) s0) in *.
    unfold TWAP._execute_twap_step. rewrite Ht.
    cbn [TWAP.w_at TWAP.w_info TWAP.w_chunk TWAP.w_range TWAP.w_twap_id].
    rewrite Hi.
    assert (Hlt : (Z.of_nat j <? n) = true) by (apply Z.ltb_lt; lia).
    rewrite Hlt, loop_pass_unprinted; [|rewrite Hf; exact Hflag|exact Hlimit].
    unfold TWAP.store. cbn [TWAP.threads TWAP.mgr TWAP.heap TWAP.stop_flags TWAP.log].
    split.
    { rewrite list_lookup_insert_eq by (eapply lookup_lt_Some; exact Ht).
      unfold TWAP.next. cbn. do 2 f_equal. lia. }
    split; [exact Hf|].
    split.
    { rewrite placed_snoc, Hp, <- app_assoc. f_equal.
      unfold range. rewrite Nat2Z.id, Nat2Z.id, seq_S, fmap_app, fmap_app.
      reflexivity. }
    rewrite list_lookup_insert_eq by (eapply lookup_lt_Some; exact Hi).
    reflexivity.
Qed.

Lemma twap_run_unprinted :
  let s := TWAP._execute_twap X now w s0 in
  placed (TWAP.log s) = placed (TWAP.log s0) ++ (request <$> range n)
  /\ exists i,
      TWAP.heap (TWAP.mgr s) !! l = Some i
      /\ (TWAP.status i = "COMPLETED" \/ TWAP.status i = "FAILED")
      /\ TWAP.executed_chunks i = TWAP.executed_chunks i0
      /\ TWAP.executed_quantity i = TWAP.executed_quantity i0
      /\ TWAP.orders i = TWAP.orders i0.
Proof.
  intros s. subst s. unfold TWAP._execute_twap. rewrite Hthread.
  cbn [TWAP.w_range TWAP.w_chunk]. rewrite Z.sub_0_r, !Nat.iter_succ.
  destruct (twap_passes_unprinted (Z.to_nat n) ltac:(lia)) as (Ht & Hf & Hp & Hi).
  set (s := Nat.iter (Z.to_nat n) (TWAP._execute_twap_step X now w) s0) in *.
  rewrite Z2Nat.id in Ht, Hp by lia.
  set (t := {| TWAP.w_twap_id := id; TWAP.w_info := l; TWAP.w_range := n;
               TWAP.w_chunk := n; TWAP.w_at := TWAP.Loop |}) in *.
  rewrite (thread_leaves_loop X now w s t i0);
    [|exact Ht|reflexivity|exact Hi|cbn; lia].
  set (sb := TWAP.store s (TWAP.w_info t) (TWAP.completed now i0)
               (TWAP.log s) w (TWAP.leave t)).
  assert (Htb : TWAP.threads sb !! w = Some (TWAP.leave t))
    by (eapply store_lookup_thread; exact Ht).
  assert (Hib : TWAP.heap (TWAP.mgr sb) !! l = Some (TWAP.completed now i0))
    by (eapply (store_lookup_heap s l); exact Hi).
  rewrite (thread_summary now w sb (TWAP.leave t) (TWAP.completed now i0));
    [|exact Htb|reflexivity|exact Hib].
  destruct (TWAP._display_twap_completion X _ _) as [u|e].
  - split; [exact Hp|]. eexists. split.
    { eapply (store_lookup_heap sb l). exact Hib. }
    split; [left; reflexivity|]. repeat split.
  - split; [exact Hp|]. eexists. split.
    { eapply (store_lookup_heap sb l). exact Hib. }
    split; [right; reflexivity|]. repeat split.
Qed.

End TwapUnprinted.

Lemma range_snoc (n : Z) : 1 <= n -> range n = range (n - 1) ++ [n - 1].
Proof.
  intros Hn. unfold range.
  replace (Z.to_nat n) with (S (Z.to_nat (n - 1))) by lia.
  rewrite seq_S, fmap_app. cbn. do 2 f_equal. lia.
Qed.

Lemma fmap_range_const {A} (f : Z -> A) (a : A) (n : Z) :
  (forall k, 0 <= k < n -> f k = a) ->
  f <$> range n = replicate (Z.to_nat n) a.
Proof.
  intros Hf. unfold range. rewrite <- list_fmap_compose.
  assert (H : forall m start, (Z.of_nat (start + m) <= Z.max 0 n) ->
            (f ∘ Z.of_nat) <$> seq start m = replicate m a).
  { induction m as [|m IH]; intros start Hm; [reflexivity|].
    cbn. rewrite Hf by lia. f_equal. apply IH. lia. }
  apply (H (Z.to_nat n) 0%nat). lia.
Qed.

(** When the message that follows the placement of a chunk cannot be
    printed, the order is at the exchange but the run does not count it: a
    run placed without price limit on an exchange that accepts every order
    submits [num_chunks - 1] orders of the chunk size and a last one of the
    whole [total_quantity] (minus zero), and ends with no executed chunk, no
    executed quantity and no entry in [orders]. *)
Theorem twap_unprinted_chunks_not_counted (X : exchange) symbol side T n interval
    randomize now now' s l s1 :
  (forall lg rq, is_ok (x_place X lg rq) = true) ->
  (forall lg, is_ok (x_sleep X lg) = true) ->
  (forall lg, is_ok (x_print X lg "TWAP Chunk executed") = false) ->
  TWAP.place_twap_order X symbol side T n interval None randomize now s
  = (Ok l, s1) ->
  let sym := Str.strip (Str.upper symbol) in
  let sd := Str.strip (Str.upper side) in
  let cs := B64.div T (B64.of_Z n) in
  let s2 := TWAP._execute_twap X now' (length (TWAP.threads s)) s1 in
  placed (TWAP.log s2)
  = placed (TWAP.log s1)
    ++ replicate (Z.to_nat (n - 1)) (TWAP.market_request sym sd cs)
    ++ [TWAP.market_request sym sd (B64.sub T B64.zero)]
  /\ exists i,
      TWAP.heap (TWAP.mgr s2) !! l = Some i
      /\ (TWAP.status i = "COMPLETED" \/ TWAP.status i = "FAILED")
      /\ TWAP.executed_chunks i = 0
      /\ TWAP.executed_quantity i = B64.zero
      /\ TWAP.orders i = [].
Proof.
  intros Haccept Hsleep Hmute Hplace.
  destruct (place_twap_ok X _ _ _ _ _ _ _ _ _ _ _ Hplace)
    as (Hv & Hl & Ht & Hf & _ & Hh).
  destruct (validate_twap_inv _ _ _ _ _ Hv) as (_ & _ & _ & Hn & _).
  cbv zeta.
  edestruct (fun i0 => twap_run_unprinted X Haccept Hsleep Hmute s1
               (length (TWAP.threads s)) l
               ("TWAP_" +:+ Str.strip (Str.upper symbol) +:+ "_" +:+ pretty now)
               n i0 now') as (Hp & i & Hi & Hst & Hc & Hq & Ho).
  - lia.
  - rewrite Ht, lookup_app_r, Nat.sub_diag by lia. reflexivity.
  - rewrite Hf, lookup_insert_eq. reflexivity.
  - rewrite Hh, Hl, lookup_app_r, Nat.sub_diag by lia. reflexivity.
  - reflexivity.
  - split.
    + rewrite Hp. f_equal. rewrite (range_snoc n) by lia. rewrite fmap_app.
      f_equal.
      * apply fmap_range_const. intros k Hk.
        unfold TWAP.planned_quantity. cbn.
        assert (Hne : (k =? n - 1) = false) by (apply Z.eqb_neq; lia).
        rewrite Hne. reflexivity.
      * cbn. unfold TWAP.planned_quantity. cbn. rewrite Z.eqb_refl. reflexivity.
    + exists i. split; [exact Hi|]. split; [exact Hst|].
      split; [exact Hc|]. split; [exact Hq|exact Ho].
Qed.

(** One bitcoin in four chunks: the orders sent add up to 1.75. *)
Lemma twap_unprinted_chunks_not_counted_witness :
  let X := Mock.silenced "TWAP Chunk executed" (B64.of_Z 50000) in
  let s1 := (TWAP.place_twap_order X "BTCUSDT" "BUY" (B64.of_Z 1) 4 10 None
               false 1700000000 TWAP.init).2 in
  let s2 := TWAP._execute_twap X 1700000040 0 s1 in
  rq_quantity <$> placed (TWAP.log s2)
  = [B64.lit 1 4; B64.lit 1 4; B64.lit 1 4; B64.of_Z 1]
  /\ exists i,
      TWAP.heap (TWAP.mgr s2) !! 0%nat = Some i
      /\ TWAP.executed_chunks i = 0
      /\ TWAP.orders i = [].
Proof.
  intros X s1 s2.
  destruct (twap_unprinted_chunks_not_counted X "BTCUSDT" "BUY" (B64.of_Z 1) 4 10
              false 1700000000 1700000040 TWAP.init 0%nat s1)
    as (Hp & i & Hi & _ & Hc & _ & Ho).
  - intros lg rq. reflexivity.
  - intros lg. reflexivity.
  - intros lg. reflexivity.
  - vm_compute. reflexivity.
  - split.
    + change (TWAP._execute_twap X 1700000040 (length (TWAP.threads TWAP.init)) s1)
        with s2 in Hp.
      rewrite Hp. vm_compute. reflexivity.
    + exists i. split; [exact Hi|]. split; [exact Hc|exact Ho].
Defined.

(** ** TWAP: the identifier of a run *)

(** The identifier of a run is made of its symbol and of the second it is
    placed in. Two runs placed for the same symbol within one second get the
    same identifier: the registry then holds the second run only, no
    identifier leads to the first one any more although its thread is
    started and its dictionary [ACTIVE], and both threads read the one stop
    flag, which the second placement has set to [False] again. *)
Theorem twap_same_second_same_id :
  forall (X : exchange) (symbol symbol' side side' : string) (T T' : B64.float)
         (n n' interval interval' : Z) (price_limit price_limit' : option B64.float)
         (randomize randomize' : bool) (now : Z) (s s1 s2 : TWAP.system)
         (l1 l2 : nat),
    TWAP.reachable X s ->
    TWAP.place_twap_order X symbol side T n interval price_limit randomize now s
    = (Ok l1, s1) ->
    TWAP.place_twap_order X symbol' side' T' n' interval' price_limit'
      randomize' now s1 = (Ok l2, s2) ->
    Str.strip (Str.upper symbol') = Str.strip (Str.upper symbol) ->
    let id := "TWAP_" +:+ Str.strip (Str.upper symbol) +:+ "_" +:+ pretty now in
    TWAP.get_twap_status id s1 = Some l1
    /\ TWAP.get_twap_status id s2 = Some l2
    /\ l2 = S l1
    /\ (forall id', TWAP.get_twap_status id' s2 <> Some l1)
    /\ (exists i1, TWAP.heap (TWAP.mgr s2) !! l1 = Some i1
          /\ TWAP.status i1 = "ACTIVE" /\ TWAP.total_quantity i1 = T)
    /\ (exists w1 w2,
          TWAP.threads s2 = TWAP.threads s ++ [w1; w2]
          /\ TWAP.w_twap_id w1 = id /\ TWAP.w_twap_id w2 = id
          /\ TWAP.w_info w1 = l1 /\ TWAP.w_info w2 = l2)
    /\ TWAP.stop_flags (TWAP.mgr s2) !! id = Some false.
Proof.
  intros X symbol symbol' side side' T T' n n' interval interval' price_limit
         price_limit' randomize randomize' now s s1 s2 l1 l2 Hreach H1 H2 Hsym id.
  destruct (place_twap_ok X _ _ _ _ _ _ _ _ _ _ _ H1)
    as (_ & Hl1 & Ht1 & Hf1 & Hr1 & Hh1).
  destruct (place_twap_ok X _ _ _ _ _ _ _ _ _ _ _ H2)
    as (_ & Hl2 & Ht2 & Hf2 & Hr2 & Hh2).
  rewrite Hsym in Ht2, Hf2, Hr2, Hh2. fold id in Ht1, Hf1, Hr1, Hh1, Ht2, Hf2, Hr2, Hh2.
  assert (Hl12 : l2 = S l1).
  { rewrite Hl2, Hh1, length_app, <- Hl1. cbn. lia. }
  unfold TWAP.get_twap_status.
  split; [rewrite Hr1; apply lookup_insert_eq|].
  split; [rewrite Hr2; apply lookup_insert_eq|].
  split; [exact Hl12|].
  split.
  { intros id' Hid'. rewrite Hr2, Hr1 in Hid'.
    apply lookup_insert_Some in Hid' as [[_ Hid']|[Hne Hid']]; [lia|].
    apply lookup_insert_Some in Hid' as [[Heq _]|[_ Hid']]; [congruence|].
    pose proof (twap_registry_bound X s Hreach id' l1 Hid'). lia. }
  split.
  { eexists. rewrite Hh2, Hh1. split.
    - apply lookup_app_l_Some. rewrite Hl1, lookup_app_r, Nat.sub_diag by lia.
      reflexivity.
    - split; reflexivity. }
  split.
  { eexists _, _. rewrite Ht2, Ht1, <- app_assoc. split; [reflexivity|].
    repeat split. }
  rewrite Hf2. apply lookup_insert_eq.
Qed.

(** Two runs for [BTCUSDT] placed in the second 1700000000. *)
Lemma twap_same_second_same_id_witness :
  let X := Mock.filling (B64.of_Z 50000) in
  let s1 := (TWAP.place_twap_order X "BTCUSDT" "BUY" (B64.of_Z 1) 4 10 None
               false 1700000000 TWAP.init).2 in
  let s2 := (TWAP.place_twap_order X "btcusdt" "SELL" (B64.of_Z 2) 2 10 None
               false 1700000000 s1).2 in
  TWAP.get_twap_status "TWAP_BTCUSDT_1700000000" s1 = Some 0%nat
  /\ TWAP.get_twap_status "TWAP_BTCUSDT_1700000000" s2 = Some 1%nat
  /\ forall id', TWAP.get_twap_status id' s2 <> Some 0%nat.
Proof.
  intros X s1 s2.
  destruct (twap_same_second_same_id X "BTCUSDT" "btcusdt" "BUY" "SELL"
              (B64.of_Z 1) (B64.of_Z 2) 4 2 10 10 None None false false
              1700000000 TWAP.init s1 s2 0%nat 1%nat)
    as (Ha & Hb & _ & Hc & _).
  - apply TWAP.reachable_init.
  - vm_compute. reflexivity.
  - vm_compute. reflexivity.
  - vm_compute. reflexivity.
  - split; [exact Ha|]. split; [exact Hb|exact Hc].
Defined.

(** ** Grid: the monitoring thread *)

Section GridMonitor.
Variable X : exchange.

(** What a pass over one side keeps of an entry: its order and its price,
    and its status unless it goes from [PLACED] to [FILLED]. *)
Lemma check_side_spec kind symbol cs :
  forall fills lg,
  exists cs' new queries,
    Grid.check_side X kind symbol cs fills lg = (cs', fills ++ new, lg ++ queries)
    /\ placed queries = [] /\ cancels queries = []
    /\ Forall2 (fun c c' =>
                  Grid.c_order c' = Grid.c_order c
                  /\ Grid.c_level_price c' = Grid.c_level_price c
                  /\ (c' = c
                      \/ (Grid.c_status c = "PLACED"
                          /\ Grid.c_status c' = "FILLED"))) cs cs'.
Proof.
  induction cs as [|c rest IH]; intros fills lg.
  - exists [], [], []. cbn. rewrite !app_nil_r. repeat split. constructor.
  - cbn [Grid.check_side].
    assert (Hstep : exists c' new1 q1,
              (if String.eqb (Grid.c_status c) "PLACED" then
                 match Client.get_order X symbol (orderId (Grid.c_order c)) lg with
                 | (Ok order_status, log) =>
                     if String.eqb (o_status order_status) "FILLED" then
                       (Grid.with_child_status c "FILLED",
                        fills ++ [{| Grid.f_type := kind;
                                     Grid.f_order := order_status;
                                     Grid.f_level_price := Grid.c_level_price c |}],
                        log)
                     else (c, fills, log)
                 | (Raise e, log) => (c, fills, log)
                 end
               else (c, fills, lg)) = (c', fills ++ new1, lg ++ q1)
              /\ placed q1 = [] /\ cancels q1 = []
              /\ Grid.c_order c' = Grid.c_order c
              /\ Grid.c_level_price c' = Grid.c_level_price c
              /\ (c' = c
                  \/ (Grid.c_status c = "PLACED"
                      /\ Grid.c_status c' = "FILLED"))).
    { destruct (String.eqb (Grid.c_status c) "PLACED") eqn:Hp.
      - apply String.eqb_eq in Hp. unfold Client.get_order.
        destruct (x_query X lg symbol (orderId (Grid.c_order c))) as [os|e].
        + destruct (String.eqb (o_status os) "FILLED").
          * eexists _, [_], [_]. split; [reflexivity|]. repeat split.
            right. split; [exact Hp|reflexivity].
          * exists c, [], [GetOrder symbol (orderId (Grid.c_order c))].
            rewrite app_nil_r. repeat split. left. reflexivity.
        + exists c, [], [GetOrder symbol (orderId (Grid.c_order c))].
          rewrite app_nil_r. repeat split. left. reflexivity.
      - exists c, [], []. rewrite !app_nil_r. repeat split. left. reflexivity. }
    destruct Hstep as (c' & new1 & q1 & -> & Hp1 & Hc1 & Ho & Hl & Hs).
    destruct (IH (fills ++ new1) (lg ++ q1))
      as (cs' & new2 & q2 & -> & Hp2 & Hc2 & HF).
    exists (c' :: cs'), (new1 ++ new2), (q1 ++ q2).
    rewrite !app_assoc. split; [reflexivity|].
    split; [rewrite placed_app, Hp1, Hp2; reflexivity|].
    split; [rewrite cancels_app, Hc1, Hc2; reflexivity|].
    constructor; [|exact HF]. split; [exact Ho|]. split; [exact Hl|exact Hs].
Qed.

End GridMonitor.

(** The monitoring thread of a grid only asks: a pass of its loop sends no
    order request and no cancellation, whatever the queries answer, so no
    order is placed in the stead of a filled one, [_rebalance_grid] being
    empty. Of the dictionary it runs it keeps the entries of both sides in
    their order, each with its order and its price, and changes no status
    except from [PLACED] to [FILLED]; it leaves the registry and the stop
    flags as they are. *)
Theorem grid_monitor_only_queries :
  forall (X : exchange) (w : nat) (s : Grid.system),
    let s' := Grid._monitor_grid_step X w s in
    placed (Grid.log s') = placed (Grid.log s)
    /\ cancels (Grid.log s') = cancels (Grid.log s)
    /\ Grid.active_grids (Grid.mgr s') = Grid.active_grids (Grid.mgr s)
    /\ Grid.stop_flags (Grid.mgr s') = Grid.stop_flags (Grid.mgr s)
    /\ forall l gi,
        Grid.heap (Grid.mgr s) !! l = Some gi ->
        exists gi',
          Grid.heap (Grid.mgr s') !! l = Some gi'
          /\ Grid.grid_levels gi' = Grid.grid_levels gi
          /\ Forall2 (fun c c' =>
                        Grid.c_order c' = Grid.c_order c
                        /\ Grid.c_level_price c' = Grid.c_level_price c
                        /\ (c' = c
                            \/ (Grid.c_status c = "PLACED"
                                /\ Grid.c_status c' = "FILLED")))
               (Grid.buy_orders gi ++ Grid.sell_orders gi)
               (Grid.buy_orders gi' ++ Grid.sell_orders gi').
Proof.
  intros X w s s'.
  assert (Hsame : forall cs : list Grid.child,
            Forall2 (fun c c' =>
                       Grid.c_order c' = Grid.c_order c
                       /\ Grid.c_level_price c' = Grid.c_level_price c
                       /\ (c' = c
                           \/ (Grid.c_status c = "PLACED"
                               /\ Grid.c_status c' = "FILLED"))) cs cs).
  { intros cs. induction cs as [|c cs IH]; constructor; [|exact IH].
    repeat split. left. reflexivity. }
  assert (Hkeep : placed (Grid.log s) = placed (Grid.log s)
            /\ cancels (Grid.log s) = cancels (Grid.log s)
            /\ Grid.active_grids (Grid.mgr s) = Grid.active_grids (Grid.mgr s)
            /\ Grid.stop_flags (Grid.mgr s) = Grid.stop_flags (Grid.mgr s)
            /\ forall l gi,
                Grid.heap (Grid.mgr s) !! l = Some gi ->
                exists gi',
                  Grid.heap (Grid.mgr s) !! l = Some gi'
                  /\ Grid.grid_levels gi' = Grid.grid_levels gi
                  /\ Forall2 (fun c c' =>
                                Grid.c_order c' = Grid.c_order c
                                /\ Grid.c_level_price c' = Grid.c_level_price c
                                /\ (c' = c
                                    \/ (Grid.c_status c = "PLACED"
                                        /\ Grid.c_status c' = "FILLED")))
                       (Grid.buy_orders gi ++ Grid.sell_orders gi)
                       (Grid.buy_orders gi' ++ Grid.sell_orders gi')).
  { do 4 (split; [reflexivity|]). intros l gi Hl. exists gi.
    split; [exact Hl|]. split; [reflexivity|apply Hsame]. }
  subst s'. unfold Grid._monitor_grid_step.
  destruct (Grid.threads s !! w) as [t|]; [|exact Hkeep].
  destruct (negb (Grid.m_running t)); [exact Hkeep|].
  destruct (Grid.heap (Grid.mgr s) !! Grid.m_info t) as [gi0|] eqn:Hgi0;
    [|exact Hkeep].
  destruct (_ && _).
  - unfold Grid._check_filled_orders.
    destruct (check_side_spec X "BUY" (Grid.symbol gi0) (Grid.buy_orders gi0)
                (Grid.filled_orders gi0) (Grid.log s))
      as (buys & new1 & q1 & -> & Hp1 & Hc1 & HF1).
    destruct (check_side_spec X "SELL" (Grid.symbol gi0) (Grid.sell_orders gi0)
                (Grid.filled_orders gi0 ++ new1) (Grid.log s ++ q1))
      as (sells & new2 & q2 & -> & Hp2 & Hc2 & HF2).
    unfold Grid.store. cbn [Grid.log Grid.mgr Grid.active_grids Grid.stop_flags
                            Grid.heap].
    split; [rewrite !placed_app, Hp1, Hp2, !app_nil_r; reflexivity|].
    split; [rewrite !cancels_app, Hc1, Hc2, !app_nil_r; reflexivity|].
    do 2 (split; [reflexivity|]).
    intros l gi Hl. destruct (decide (Grid.m_info t = l)) as [Heq|Hne].
    + rewrite Heq in *. assert (gi0 = gi) as -> by congruence.
      eexists. split; [apply list_lookup_insert_eq; eapply lookup_lt_Some; exact Hl|].
      unfold Grid._rebalance_grid.
      destruct (Grid.rebalance _); cbn; (split; [reflexivity|]);
        apply Forall2_app; assumption.
    + exists gi. rewrite list_lookup_insert_ne by congruence.
      split; [exact Hl|]. split; [reflexivity|apply Hsame].
  - unfold Grid.store. cbn [Grid.log Grid.mgr Grid.active_grids Grid.stop_flags
                            Grid.heap].
    do 4 (split; [reflexivity|]).
    intros l gi Hl. destruct (decide (Grid.m_info t = l)) as [Heq|Hne].
    + rewrite Heq in *. assert (gi0 = gi) as -> by congruence.
      eexists. split; [apply list_lookup_insert_eq; eapply lookup_lt_Some; exact Hl|].
      cbn. split; [reflexivity|apply Hsame].
    + exists gi. rewrite list_lookup_insert_ne by congruence.
      split; [exact Hl|]. split; [reflexivity|apply Hsame].
Qed.

(** A pass over a dictionary of four orders, on an exchange that reports the
    order 2 as filled. *)
Lemma grid_monitor_only_queries_witness :
  let X :=
    {| x_ping := fun _ => true;
       x_price := fun _ _ => Ok (B64.of_Z 47000);
       x_place := fun _ _ => Raise Mock.refused;
       x_query := fun _ _ id =>
         Ok (Mock.reply id (if id =? 2 then "FILLED" else "NEW") None []);
       x_cancel := fun _ _ _ => Raise Mock.refused;
       x_sleep := fun _ => Ok tt;
       x_print := fun _ _ => Ok tt |} in
  let s := Mock.holding Mock.grid_of_five false true in
  let s' := Grid._monitor_grid_step X 0 s in
  placed (Grid.log s') = []
  /\ cancels (Grid.log s') = []
  /\ ((fun gi => Grid.c_status <$> Grid.buy_orders gi ++ Grid.sell_orders gi)
        <$> Grid.heap (Grid.mgr s') !! 0%nat)
     = Some ["PLACED"; "FILLED"; "PLACED"; "PLACED"]%string.
Proof.
  intros X s s'.
  destruct (grid_monitor_only_queries X 0%nat s) as (Hp & Hc & _).
  fold s' in Hp, Hc. split; [exact Hp|]. split; [exact Hc|].
  vm_compute. reflexivity.
Defined.

(** ** TWAP: a reply that cannot be read *)

(** A chunk whose order the exchange has accepted, but whose reply carries
    an [executedQty] that is not a number, is counted in [executed_chunks]
    and nowhere else: the executed quantity, the total value and the list
    of orders stay as they were, the error is only logged, and the pass
    goes on to the wait like any other. *)
Theorem twap_unreadable_reply_counted (X : exchange) (flags : gmap string bool)
    (id : string) (k : Z) (i : TWAP.info) (lg lg' : list call) (o : order) :
  default false (flags !! id) = false ->
  TWAP._execute_chunk X i (k + 1) (TWAP.planned_quantity i k) lg
  = (Ok (Some o), lg') ->
  executedQty o = Some Unreadable ->
  let out := TWAP.loop_pass X flags id k i lg in
  TWAP.executed_chunks out.1.1 = TWAP.executed_chunks i + 1
  /\ TWAP.executed_quantity out.1.1 = TWAP.executed_quantity i
  /\ TWAP.total_value out.1.1 = TWAP.total_value i
  /\ TWAP.orders out.1.1 = TWAP.orders i
  /\ TWAP.status out.1.1 = TWAP.status i
  /\ out.1.2 = lg'
  /\ (out.2 = TWAP.Continue
      \/ exists e, x_sleep X lg' = Raise e /\ out.2 = TWAP.Crash e).
Proof.
  intros Hflag Hchunk Hqty. cbv zeta. unfold TWAP.loop_pass.
  rewrite Hflag, Hchunk. unfold TWAP.record_chunk. cbv zeta. rewrite Hqty.
  cbn [from_option Datatypes.id to_float TWAP.with_progress TWAP.num_chunks].
  destruct (k <? TWAP.num_chunks i - 1).
  - destruct (x_sleep X lg') as [u|e] eqn:Hs; cbn.
    + repeat split. left. reflexivity.
    + repeat split. right. exists e. split; reflexivity.
  - cbn. repeat split. left. reflexivity.
Qed.

(** The first chunk of a run of four, with a reply that cannot be read. *)
Lemma twap_unreadable_reply_counted_witness :
  let X := Mock.garbled (B64.of_Z 50000) in
  let i :=
    {| TWAP.twap_id := "TWAP_BTCUSDT_1700000000"; TWAP.symbol := "BTCUSDT";
       TWAP.side := "BUY"; TWAP.total_quantity := B64.of_Z 1;
       TWAP.chunk_size := B64.lit 1 4; TWAP.num_chunks := 4;
       TWAP.interval_seconds := 10; TWAP.price_limit := None;
       TWAP.randomize := false; TWAP.start_time := 1700000000;
       TWAP.executed_chunks := 0; TWAP.executed_quantity := B64.zero;
       TWAP.total_value := B64.zero; TWAP.orders := [];
       TWAP.status := "ACTIVE"; TWAP.end_time := None; TWAP.error := None |} in
  let out := TWAP.loop_pass X ∅ "TWAP_BTCUSDT_1700000000" 0 i [] in
  TWAP.executed_chunks out.1.1 = 1
  /\ TWAP.executed_quantity out.1.1 = B64.zero
  /\ TWAP.orders out.1.1 = []
  /\ placed out.1.2 = [TWAP.market_request "BTCUSDT" "BUY" (B64.lit 1 4)].
Proof.
  intros X i out.
  destruct (twap_unreadable_reply_counted X ∅ "TWAP_BTCUSDT_1700000000" 0 i []
              [PlaceOrder (TWAP.market_request "BTCUSDT" "BUY" (B64.lit 1 4))]
              {| orderId := 0; o_status := "FILLED";
                 executedQty := Some Unreadable;
                 fills := [(Number (B64.lit 1 4), Number (B64.of_Z 50000))] |})
    as (Hc & Hq & _ & Ho & _ & Hlog & _).
  - vm_compute. reflexivity.
  - vm_compute. reflexivity.
  - reflexivity.
  - fold out in Hc, Hq, Ho, Hlog. rewrite Hc, Hq, Ho, Hlog.
    repeat split.
Defined.

(** Four chunks, every reply unreadable: four orders are sent, the last of
    them for the whole quantity, and the run ends [COMPLETED] with four
    chunks counted, nothing executed and no order recorded. *)
Lemma twap_unreadable_run_example :
  let X := Mock.garbled (B64.of_Z 50000) in
  let s1 := (TWAP.place_twap_order X "BTCUSDT" "BUY" (B64.of_Z 1) 4 10 None
               false 1700000000 TWAP.init).2 in
  let s2 := TWAP._execute_twap X 1700000040 0 s1 in
  rq_quantity <$> placed (TWAP.log s2)
  = [B64.lit 1 4; B64.lit 1 4; B64.lit 1 4; B64.of_Z 1]
  /\ ((fun i => (TWAP.status i, TWAP.executed_chunks i,
                 TWAP.executed_quantity i, length (TWAP.orders i)))
        <$> TWAP.heap (TWAP.mgr s2) !! 0%nat)
     = Some ("COMPLETED"%string, 4, B64.zero, 0%nat).
Proof. vm_compute. split; reflexivity. Qed.
